(** * Image materialization pipeline of the image-generation MCP server

    A shallow embedding of [src/utils/image.ts] (PNG metadata codec, output
    path resolution, file names, file-size reporting), of
    [executeGenerateImage] (the orchestrator of the generate tool), of the
    Gemini provider of [src/providers/gemini.ts] and of the handler of
    [src/index.ts] that answers a tool call, with the properties of the
    specification, and further properties of the code, stated and proved
    over it.

    Conventions.
    - A JavaScript string is the list of its UTF-16 code units ([JsString]).
    - A Node [Buffer] is the list of its bytes, each an integer in [0, 256).
    - A JavaScript exception is an explicit [Throw] result.
    - The file system, the clock and the provider are an explicit [World]
      threaded through the asynchronous functions.
    - What lives outside the sources at hand (the security helpers, the
      preset table, the provider registry, the SDK client) is a parameter
      of the functions that use it. *)

From Stdlib Require Import String Ascii DecimalString.
From Stdlib Require Import ZArith List Lia Bool.
Import ListNotations.
Open Scope Z_scope.

(* ================================================================== *)
(** * Part I: definitions *)
(* ================================================================== *)

(** ** JavaScript values *)

Definition JsString := list Z.
Definition Buffer := list Z.

(** A string literal of the source, as code units. *)
Definition lit (s : string) : JsString :=
  map (fun a => Z.of_N (N_of_ascii a)) (list_ascii_of_string s).

(** [String(n)] for an integer [n]. *)
Definition show_int (n : Z) : JsString :=
  lit (NilZero.string_of_int (Z.to_int n)).

(** A thrown JavaScript error: the constructor name and the message. *)
Record JsError := MkError { err_name : JsString; err_message : JsString }.

Inductive Result (A : Type) : Type :=
| Ok (a : A)
| Throw (e : JsError).
Arguments Ok {A} a.
Arguments Throw {A} e.

Definition rbind {A B} (r : Result A) (k : A -> Result B) : Result B :=
  match r with
  | Ok a => k a
  | Throw e => Throw e
  end.

Declare Scope result_scope.
Delimit Scope result_scope with result.
Notation "'let!' x ':=' r 'in' k" := (rbind r (fun x => k))
  (at level 10, x name, r at level 100, k at level 200) : result_scope.

Definition jsstr_eqb (a b : JsString) : bool :=
  if list_eq_dec Z.eq_dec a b then true else false.

(** [String.prototype.slice(0, n)] for a non-negative [n]. *)
Definition str_slice0 (s : JsString) (n : nat) : JsString := firstn n s.

(** White space and line terminators of ECMAScript, the characters removed
    by [String.prototype.trim]. *)
Definition is_js_whitespace (c : Z) : bool :=
  (c =? 9) || (c =? 10) || (c =? 11) || (c =? 12) || (c =? 13) || (c =? 32)
  || (c =? 160) || (c =? 5760) || ((8192 <=? c) && (c <=? 8202))
  || (c =? 8232) || (c =? 8233) || (c =? 8239) || (c =? 8287)
  || (c =? 12288) || (c =? 65279).

Fixpoint trim_start (s : JsString) : JsString :=
  match s with
  | c :: rest => if is_js_whitespace c then trim_start rest else s
  | [] => []
  end.

Definition trim (s : JsString) : JsString :=
  rev (trim_start (rev (trim_start s))).

(** V8 refuses to build a string longer than this many code units
    ([buffer.constants.MAX_STRING_LENGTH], 2^29 - 24 on 64-bit builds). *)
Definition MAX_STRING_LENGTH : Z := 2 ^ 29 - 24.

Definition js_string_ok (s : JsString) : Prop :=
  Z.of_nat (length s) <= MAX_STRING_LENGTH.

(** ** Node buffers *)

(** [buf.slice(start, end)] for non-negative offsets: both ends are clamped
    to the length of the buffer. *)
Definition buf_slice (b : Buffer) (start stop : Z) : Buffer :=
  firstn (Z.to_nat stop - Z.to_nat start) (skipn (Z.to_nat start) b).

(** [buf.slice(start)]. *)
Definition buf_slice_from (b : Buffer) (start : Z) : Buffer :=
  skipn (Z.to_nat start) b.

Definition buf_equals (a b : Buffer) : bool :=
  if list_eq_dec Z.eq_dec a b then true else false.

Definition buf_concat (bs : list Buffer) : Buffer := concat bs.

Definition buf_length (b : Buffer) : Z := Z.of_nat (length b).

(** *** Range errors of the buffer module

    The errors of [lib/internal/errors.js] that the integer accessors of a
    buffer throw.  Both are [RangeError]s; they differ in their code and
    in their message. *)

Definition RangeError (message : JsString) : JsError :=
  MkError (lit "RangeError") message.

(** The double quote that the messages put around a name. *)
Definition QUOTE : JsString := [34].

(** [addNumericalSeparator(val)] on the digits in reverse: an underscore
    after every three digits that more digits follow. *)
Fixpoint separate_reversed (r : JsString) : JsString :=
  match r with
  | a :: b :: c :: rest =>
      match rest with
      | [] => r
      | _ :: _ => a :: b :: c :: 95 :: separate_reversed rest
      end
  | _ => r
  end.

(** [addNumericalSeparator(val)]: the sign stays in front. *)
Definition addNumericalSeparator (val : JsString) : JsString :=
  match val with
  | 45 :: digits => 45 :: rev (separate_reversed (rev digits))
  | _ => rev (separate_reversed (rev val))
  end.

(** [ERR_OUT_OF_RANGE(str, range, input)] for an integer [input]: integers
    beyond 2^32 are printed with separators. *)
Definition ERR_OUT_OF_RANGE (str range : JsString) (input : Z) : JsError :=
  let received :=
    if 2 ^ 32 <? Z.abs input then addNumericalSeparator (show_int input)
    else show_int input in
  RangeError
    (lit "The value of " ++ QUOTE ++ str ++ QUOTE
     ++ lit " is out of range. It must be " ++ range
     ++ lit ". Received " ++ received).

Definition ERR_BUFFER_OUT_OF_BOUNDS : JsError :=
  RangeError (lit "Attempt to access memory outside buffer bounds").

(** [boundsError(value, length)] of [lib/internal/buffer.js] for an integer
    [value]: [length] is the last offset at which the access fits. *)
Definition boundsError (value length : Z) : JsError :=
  if length <? 0 then ERR_BUFFER_OUT_OF_BOUNDS
  else ERR_OUT_OF_RANGE (lit "offset")
         (lit ">= 0 and <= " ++ show_int length) value.

(** [buf.readUInt32BE(offset)] for an integer offset that is not negative:
    when the first or the last of the four bytes is not inside the buffer,
    [boundsError(offset, buf.length - 4)]. *)
Definition readUInt32BE (b : Buffer) (offset : Z) : Result Z :=
  match skipn (Z.to_nat offset) b with
  | b0 :: b1 :: b2 :: b3 :: _ =>
      Ok (b0 * 2 ^ 24 + b1 * 2 ^ 16 + b2 * 2 ^ 8 + b3)
  | _ => Throw (boundsError offset (buf_length b - 4))
  end.

(** The four bytes stored by [writeUInt32BE]. *)
Definition u32be (v : Z) : Buffer :=
  [Z.shiftr v 24 mod 256; Z.shiftr v 16 mod 256; Z.shiftr v 8 mod 256;
   v mod 256].

(** [Buffer.alloc(4)] followed by [writeUInt32BE(value, 0)] for an integer
    [value]: [ERR_OUT_OF_RANGE] when it is not an unsigned 32-bit
    integer. *)
Definition writeUInt32BE (value : Z) : Result Buffer :=
  if (0 <=? value) && (value <=? 2 ^ 32 - 1) then Ok (u32be value)
  else Throw (ERR_OUT_OF_RANGE (lit "value")
                (lit ">= 0 and <= 4294967295") value).

(** [x >>> 0]. *)
Definition to_uint32 (x : Z) : Z := x mod 2 ^ 32.

(** [Buffer.from(s, "latin1")] (and ["ascii"]): the low byte of every code
    unit. *)
Definition buffer_from_latin1 (s : JsString) : Buffer :=
  map (fun c => Z.land c 255) s.

Definition is_high_surrogate (c : Z) : bool := (0xD800 <=? c) && (c <=? 0xDBFF).
Definition is_low_surrogate (c : Z) : bool := (0xDC00 <=? c) && (c <=? 0xDFFF).

Definition utf8_replacement : Buffer := [0xEF; 0xBF; 0xBD].

Definition utf8_2 (c : Z) : Buffer :=
  [Z.lor 0xC0 (Z.shiftr c 6); Z.lor 0x80 (Z.land c 0x3F)].

Definition utf8_3 (c : Z) : Buffer :=
  [Z.lor 0xE0 (Z.shiftr c 12); Z.lor 0x80 (Z.land (Z.shiftr c 6) 0x3F);
   Z.lor 0x80 (Z.land c 0x3F)].

Definition utf8_4 (hi lo : Z) : Buffer :=
  let cp := 0x10000 + Z.shiftl (hi - 0xD800) 10 + (lo - 0xDC00) in
  [Z.lor 0xF0 (Z.shiftr cp 18); Z.lor 0x80 (Z.land (Z.shiftr cp 12) 0x3F);
   Z.lor 0x80 (Z.land (Z.shiftr cp 6) 0x3F); Z.lor 0x80 (Z.land cp 0x3F)].

(** [Buffer.from(s, "utf8")]: a surrogate pair is one four-byte sequence, a
    lone surrogate is replaced by U+FFFD. *)
Fixpoint buffer_from_utf8 (s : JsString) : Buffer :=
  match s with
  | [] => []
  | c :: rest =>
      if c <? 0x80 then c :: buffer_from_utf8 rest
      else if c <? 0x800 then utf8_2 c ++ buffer_from_utf8 rest
      else if is_high_surrogate c then
        match rest with
        | d :: rest' =>
            if is_low_surrogate d then utf8_4 c d ++ buffer_from_utf8 rest'
            else utf8_replacement ++ buffer_from_utf8 rest
        | [] => utf8_replacement
        end
      else if is_low_surrogate c then utf8_replacement ++ buffer_from_utf8 rest
      else utf8_3 c ++ buffer_from_utf8 rest
  end.

(** ** CRC-32 of [zlib]

    [zlib.crc32] is the CRC-32 of ISO 3309 / ITU-T V.42 used by PNG:
    reflected polynomial [0xEDB88320], initial value and final complement
    [0xFFFFFFFF], one step per bit. *)

Definition crc_step (c : Z) : Z :=
  if Z.testbit c 0 then Z.lxor 0xEDB88320 (Z.shiftr c 1) else Z.shiftr c 1.

Definition crc_byte (crc b : Z) : Z :=
  Nat.iter 8 crc_step (Z.lxor crc (Z.land b 255)).

Definition crc32 (data : Buffer) : Z :=
  Z.lxor (fold_left crc_byte data 0xFFFFFFFF) 0xFFFFFFFF.

(** ** utils/image.ts: the PNG metadata codec *)

Record ImageMetadata := {
  md_prompt : option JsString;
  md_model : option JsString;
  md_provider : option JsString;
  md_format : option JsString;
  md_style : option JsString;
  md_title : option JsString;
  md_generatedAt : option JsString
}.

Definition tEXt : Buffer := buffer_from_latin1 (lit "tEXt").

Open Scope result_scope.

(** [createPngTextChunk(keyword, text)]. *)
Definition createPngTextChunk (keyword text : JsString) : Result Buffer :=
  let safeKeyword := trim (str_slice0 keyword 79) in
  let keywordBuf := buffer_from_latin1 safeKeyword in
  let textBuf := buffer_from_utf8 text in
  let data := buf_concat [keywordBuf; [0]; textBuf] in
  let type := tEXt in
  let! length := writeUInt32BE (buf_length data) in
  let crcData := buf_concat [type; data] in
  let crcValue := crc32 crcData in
  let! crcBuf := writeUInt32BE (to_uint32 crcValue) in
  Ok (buf_concat [length; type; data; crcBuf]).

Definition PNG_SIGNATURE_LENGTH : Z := 8.
Definition expectedSig : Buffer := [137; 80; 78; 71; 13; 10; 26; 10].

(** [if (field) chunks.push(createPngTextChunk(keyword, field))]: an
    undefined or empty string is falsy. *)
Definition push_if_present (keyword : string) (field : option JsString)
    (chunks : list Buffer) : Result (list Buffer) :=
  match field with
  | Some (c :: s) =>
      let! chunk := createPngTextChunk (lit keyword) (c :: s) in
      Ok (chunks ++ [chunk])
  | _ => Ok chunks
  end.

Definition push_chunk (keyword text : string) (chunks : list Buffer)
    : Result (list Buffer) :=
  let! chunk := createPngTextChunk (lit keyword) (lit text) in
  Ok (chunks ++ [chunk]).

Definition SOFTWARE_TAG : string := "image-generation-mcp".
Definition SOURCE_TAG : string :=
  "https://github.com/12-days-of-shipmas-2025/day-2-image-generation-mcp".

(** [embedPngMetadata(pngBuffer, metadata)]. *)
Definition embedPngMetadata (pngBuffer : Buffer) (metadata : ImageMetadata)
    : Result Buffer :=
  let signature := buf_slice pngBuffer 0 PNG_SIGNATURE_LENGTH in
  if negb (buf_equals signature expectedSig) then Ok pngBuffer
  else
    let! ihdrLength := readUInt32BE pngBuffer PNG_SIGNATURE_LENGTH in
    let ihdrEnd := PNG_SIGNATURE_LENGTH + 4 + 4 + ihdrLength + 4 in
    let chunks : list Buffer := [] in
    let! chunks := push_if_present "Description" (md_prompt metadata) chunks in
    let! chunks := push_if_present "AI-Model" (md_model metadata) chunks in
    let! chunks := push_if_present "AI-Provider" (md_provider metadata) chunks in
    let! chunks := push_if_present "Image-Format" (md_format metadata) chunks in
    let! chunks := push_if_present "AI-Style" (md_style metadata) chunks in
    let! chunks := push_if_present "Title" (md_title metadata) chunks in
    let! chunks :=
      push_if_present "Creation-Time" (md_generatedAt metadata) chunks in
    let! chunks := push_chunk "Software" SOFTWARE_TAG chunks in
    let! chunks := push_chunk "Source" SOURCE_TAG chunks in
    let beforeMetadata := buf_slice pngBuffer 0 ihdrEnd in
    let afterIhdr := buf_slice_from pngBuffer ihdrEnd in
    let metadataBuffer := buf_concat chunks in
    Ok (buf_concat [beforeMetadata; metadataBuffer; afterIhdr]).

(** ** Property lookup on an object literal

    [mimeToExt] is an object literal, so [mimeToExt[key]] finds the
    properties written in the literal and, under any other key, what every
    object inherits from [Object.prototype]: its built-in functions and,
    under [__proto__], the prototype itself.  Only a key found in neither
    gives [undefined]. *)

Inductive JsValue :=
| JsStr (s : JsString)
| JsBuiltin (name : JsString)
| JsObjectPrototype.

(** [String(v)], which a template literal and [+=] on a string apply to
    the value: a built-in function [f] reads
    [function f() { [native code] }] and an object [[object Object]]. *)
Definition to_js_string (v : JsValue) : JsString :=
  match v with
  | JsStr s => s
  | JsBuiltin name => lit "function " ++ name ++ lit "() { [native code] }"
  | JsObjectPrototype => lit "[object Object]"
  end.

(** The properties of [Object.prototype]. *)
Definition Object_prototype : list (JsString * JsValue) :=
  [ (lit "constructor", JsBuiltin (lit "Object"));
    (lit "__defineGetter__", JsBuiltin (lit "__defineGetter__"));
    (lit "__defineSetter__", JsBuiltin (lit "__defineSetter__"));
    (lit "hasOwnProperty", JsBuiltin (lit "hasOwnProperty"));
    (lit "__lookupGetter__", JsBuiltin (lit "__lookupGetter__"));
    (lit "__lookupSetter__", JsBuiltin (lit "__lookupSetter__"));
    (lit "isPrototypeOf", JsBuiltin (lit "isPrototypeOf"));
    (lit "propertyIsEnumerable", JsBuiltin (lit "propertyIsEnumerable"));
    (lit "toString", JsBuiltin (lit "toString"));
    (lit "valueOf", JsBuiltin (lit "valueOf"));
    (lit "__proto__", JsObjectPrototype);
    (lit "toLocaleString", JsBuiltin (lit "toLocaleString")) ].

(** The table of [getExtensionFromMimeType]. *)
Definition mimeToExt : list (JsString * JsString) :=
  [ (lit "image/png", lit ".png");
    (lit "image/jpeg", lit ".jpg");
    (lit "image/jpg", lit ".jpg");
    (lit "image/webp", lit ".webp");
    (lit "image/gif", lit ".gif") ].

Fixpoint record_get {V : Type} (table : list (JsString * V))
    (key : JsString) : option V :=
  match table with
  | [] => None
  | (k, v) :: rest => if jsstr_eqb k key then Some v else record_get rest key
  end.

(** What an object literal inherits under [key], if anything. *)
Definition inherited (key : JsString) : option JsValue :=
  record_get Object_prototype key.

(** [getExtensionFromMimeType(mimeType)], [mimeToExt[mimeType] ?? ".png"]:
    the table, then what the table inherits, and [".png"] only when the
    lookup gives [undefined].  The result is a string but for the
    inherited values. *)
Definition getExtensionFromMimeType (mimeType : JsString) : JsValue :=
  match record_get mimeToExt mimeType with
  | Some ext => JsStr ext
  | None =>
      match inherited mimeType with
      | Some v => v
      | None => JsStr (lit ".png")
      end
  end.

(** ** Dates

    The UTC fields of a [Date] and [Date.prototype.toISOString]:
    [YYYY-MM-DDTHH:mm:ss.sssZ], the year written with a sign and six digits
    outside 0..9999. *)

Record DateTime := {
  dt_year : Z;
  dt_month : N;
  dt_day : N;
  dt_hours : N;
  dt_minutes : N;
  dt_seconds : N;
  dt_ms : N
}.

Definition decimal (n : N) : JsString :=
  lit (NilZero.string_of_uint (N.to_uint n)).

Definition pad_start (width : nat) (s : JsString) : JsString :=
  repeat 48 (width - length s) ++ s.

Definition iso_year (y : Z) : JsString :=
  if (0 <=? y) && (y <=? 9999) then pad_start 4 (decimal (Z.to_N y))
  else (if y <? 0 then lit "-" else lit "+")
         ++ pad_start 6 (decimal (Z.to_N (Z.abs y))).

Definition toISOString (d : DateTime) : JsString :=
  iso_year (dt_year d) ++ lit "-" ++ pad_start 2 (decimal (dt_month d))
  ++ lit "-" ++ pad_start 2 (decimal (dt_day d))
  ++ lit "T" ++ pad_start 2 (decimal (dt_hours d))
  ++ lit ":" ++ pad_start 2 (decimal (dt_minutes d))
  ++ lit ":" ++ pad_start 2 (decimal (dt_seconds d))
  ++ lit "." ++ pad_start 3 (decimal (dt_ms d)) ++ lit "Z".

(** [s.replace(/[:.]/g, "-")]. *)
Definition replace_colon_dot (s : JsString) : JsString :=
  map (fun c => if (c =? 58) || (c =? 46) then 45 else c) s.

(** The timestamp of a generated file name:
    [date.toISOString().replace(/[:.]/g, "-").slice(0, 19)]. *)
Definition filename_timestamp (now : DateTime) : JsString :=
  str_slice0 (replace_colon_dot (toISOString now)) 19.

(** The body of [generateFilename(prefix, mimeType)], given the value of
    [new Date()]. *)
Definition filename_at (now : DateTime) (prefix mimeType : JsString)
    : JsString :=
  let timestamp := filename_timestamp now in
  let ext := getExtensionFromMimeType mimeType in
  prefix ++ lit "-" ++ timestamp ++ to_js_string ext.

(** [estimateFileSize(base64Data)]: [Math.floor((length * 3) / 4)]. *)
Definition estimateFileSize (base64Data : JsString) : Z :=
  (Z.of_nat (length base64Data) * 3) / 4.

(** [(num / den).toFixed(1)] for a byte count [num] that is a safe integer
    (not negative and below 2^53) and [den] one of 1024 and 1024 * 1024:
    the quotient is then exact and far below 10^21, where [toFixed] turns
    to exponent notation, and the text is the nearest multiple of one
    tenth, ties upwards. *)
Definition toFixed1 (num den : Z) : JsString :=
  let n := (20 * num + den) / (2 * den) in
  show_int (n / 10) ++ lit "." ++ show_int (n mod 10).

(** [formatFileSize(bytes)] for an integer byte count below 2^53. *)
Definition formatFileSize (bytes : Z) : JsString :=
  if bytes <? 1024 then show_int bytes ++ lit " B"
  else if bytes <? 1024 * 1024 then toFixed1 bytes 1024 ++ lit " KB"
  else toFixed1 bytes (1024 * 1024) ++ lit " MB".

(** ** The [path] module of Node (POSIX flavour) *)

Module Path.

Definition SLASH : Z := 47.
Definition DOT : Z := 46.

Definition is_slash (c : Z) : bool := c =? SLASH.

Fixpoint drop_while (f : Z -> bool) (s : JsString) : JsString :=
  match s with
  | c :: rest => if f c then drop_while f rest else s
  | [] => []
  end.

Fixpoint take_while (f : Z -> bool) (s : JsString) : JsString :=
  match s with
  | c :: rest => if f c then c :: take_while f rest else []
  | [] => []
  end.

(** [path.split("/")]. *)
Fixpoint split (p : JsString) : list JsString :=
  match p with
  | [] => [[]]
  | c :: rest =>
      if is_slash c then [] :: split rest
      else match split rest with
           | seg :: segs => (c :: seg) :: segs
           | [] => [[c]]
           end
  end.

(** [segments.join("/")]. *)
Fixpoint join_segments (segs : list JsString) : JsString :=
  match segs with
  | [] => []
  | [seg] => seg
  | seg :: rest => seg ++ SLASH :: join_segments rest
  end.

(** One segment of [normalizeString]; the stack holds the segments kept
    so far, the last one first. *)
Definition normalize_step (allowAboveRoot : bool) (stack : list JsString)
    (seg : JsString) : list JsString :=
  if jsstr_eqb seg [] || jsstr_eqb seg [DOT] then stack
  else if jsstr_eqb seg [DOT; DOT] then
    match stack with
    | top :: below =>
        if jsstr_eqb top [DOT; DOT] then seg :: stack else below
    | [] => if allowAboveRoot then [seg] else []
    end
  else seg :: stack.

Definition normalizeString (path : JsString) (allowAboveRoot : bool)
    : JsString :=
  join_segments
    (rev (fold_left (normalize_step allowAboveRoot) (split path) [])).

Definition starts_with_slash (p : JsString) : bool :=
  match p with
  | c :: _ => is_slash c
  | [] => false
  end.

Definition ends_with_slash (p : JsString) : bool :=
  starts_with_slash (rev p).

(** [path.normalize(path)]. *)
Definition normalize (path : JsString) : JsString :=
  match path with
  | [] => [DOT]
  | _ =>
      let isAbsolute := starts_with_slash path in
      let trailingSeparator := ends_with_slash path in
      let path' := normalizeString path (negb isAbsolute) in
      match path' with
      | [] =>
          if isAbsolute then [SLASH]
          else if trailingSeparator then [DOT; SLASH] else [DOT]
      | _ =>
          let path'' :=
            if trailingSeparator then path' ++ [SLASH] else path' in
          if isAbsolute then SLASH :: path'' else path''
      end
  end.

(** [path.join(a, b)]. *)
Definition join (a b : JsString) : JsString :=
  match a, b with
  | [], [] => [DOT]
  | [], _ => normalize b
  | _, [] => normalize a
  | _, _ => normalize (a ++ SLASH :: b)
  end.

Definition resolve_step (path : JsString) (acc : JsString * bool)
    : JsString * bool :=
  if snd acc then acc
  else match path with
       | [] => acc
       | _ => (path ++ SLASH :: fst acc, starts_with_slash path)
       end.

(** [path.resolve(path)] in the working directory [cwd]. *)
Definition resolve (cwd path : JsString) : JsString :=
  let '(resolvedPath, resolvedAbsolute) :=
    resolve_step cwd (resolve_step path ([], false)) in
  let resolvedPath := normalizeString resolvedPath (negb resolvedAbsolute) in
  if resolvedAbsolute then SLASH :: resolvedPath
  else match resolvedPath with
       | [] => [DOT]
       | _ => resolvedPath
       end.

(** [path.dirname(path)]. *)
Definition dirname (path : JsString) : JsString :=
  match path with
  | [] => [DOT]
  | c0 :: rest =>
      let hasRoot := is_slash c0 in
      let scanned :=
        drop_while (fun c => negb (is_slash c))
          (drop_while is_slash (rev rest)) in
      match scanned with
      | [] => if hasRoot then [SLASH] else [DOT]
      | _ :: before =>
          match before with
          | [] => if hasRoot then [SLASH; SLASH] else [c0]
          | _ => c0 :: rev before
          end
      end
  end.

(** The last component of a path, trailing separators ignored. *)
Definition last_component (path : JsString) : JsString :=
  rev (take_while (fun c => negb (is_slash c))
         (drop_while is_slash (rev path))).

Definition is_dot (c : Z) : bool := c =? DOT.

(** [path.extname(path)]: from the last dot of the last component to its
    end; empty when there is no dot, when the component starts with its
    only dot, and for the component [..]. *)
Definition extname (path : JsString) : JsString :=
  let base := last_component path in
  let rbase := rev base in
  let after := take_while (fun c => negb (is_dot c)) rbase in
  match drop_while (fun c => negb (is_dot c)) rbase with
  | [] => []
  | dot :: before =>
      match before with
      | [] => []
      | _ =>
          if jsstr_eqb base [DOT; DOT] then []
          else dot :: rev after
      end
  end.

End Path.

(** ** Base64

    [Buffer.from(s, "base64")]: the decoder of Node is lenient. Characters
    outside the standard and URL-safe alphabets are skipped, decoding stops
    at the first ['='], and a trailing group of two or three characters
    gives one or two bytes.  The decoder looks at the low byte of every
    code unit only. *)

(** [static_cast<uint8_t>(c)]. *)
Definition low_byte (c : Z) : Z := Z.land c 255.

(** The value of a character of the two alphabets. *)
Definition unbase64 (c : Z) : option Z :=
  if (65 <=? c) && (c <=? 90) then Some (c - 65)
  else if (97 <=? c) && (c <=? 122) then Some (c - 97 + 26)
  else if (48 <=? c) && (c <=? 57) then Some (c - 48 + 52)
  else if (c =? 43) || (c =? 45) then Some 62
  else if (c =? 47) || (c =? 95) then Some 63
  else None.

Fixpoint base64_sextets (s : JsString) : list Z :=
  match s with
  | [] => []
  | u :: rest =>
      let c := low_byte u in
      match unbase64 c with
      | Some v => v :: base64_sextets rest
      | None => if c =? 61 then [] else base64_sextets rest
      end
  end.

Fixpoint base64_bytes (sextets : list Z) : Buffer :=
  match sextets with
  | a :: b :: c :: d :: rest =>
      [a * 4 + b / 16; (b mod 16) * 16 + c / 4; (c mod 4) * 64 + d]
        ++ base64_bytes rest
  | [a; b; c] => [a * 4 + b / 16; (b mod 16) * 16 + c / 4]
  | [a; b] => [a * 4 + b / 16]
  | _ => []
  end.

Definition buffer_from_base64 (s : JsString) : Buffer :=
  base64_bytes (base64_sextets s).

(** ** Provider interface (providers/types.ts) *)

Inductive Quality := standard | high.

Record ImageGenerationOptions := {
  opt_prompt : JsString;
  opt_aspectRatio : JsString;
  opt_width : Z;
  opt_height : Z;
  opt_quality : Quality;
  opt_style : option JsString
}.

(** [GeneratedImage]; its open-ended [metadata] bag is never read by the
    pipeline and is left out. *)
Record GeneratedImage := {
  gi_base64Data : JsString;
  gi_mimeType : JsString;
  gi_width : option Z;
  gi_height : option Z;
  gi_model : option JsString
}.

(** [ImageProvider]: [generateImage] resolves to an image or rejects with
    an error; what the network answers is the provider's business. *)
Record ImageProvider := {
  prov_name : JsString;
  isConfigured : bool;
  generateImage : ImageGenerationOptions -> Result GeneratedImage
}.

(** ** The world of side effects *)

Inductive FsNode :=
| FsFile (content : Buffer)
| FsDir.

(** What the pipeline asks of the outside: a provider call (network), a
    directory creation, a file write.  An event records the call, whether
    or not it succeeds. *)
Inductive Event :=
| EvGenerateImage (options : ImageGenerationOptions)
| EvMkdir (dir : JsString)
| EvWriteFile (path : JsString) (data : Buffer).

Record World := {
  w_cwd : JsString;
  w_env_IMAGE_OUTPUT_DIR : option JsString;
  w_clock : nat -> DateTime;
  w_tick : nat;
  w_fs : JsString -> option FsNode;
  w_mkdir_error : JsString -> option JsError;
  w_writeFile_error : JsString -> option JsError;
  w_trace : list Event
}.

Definition with_tick (w : World) (t : nat) : World :=
  {| w_cwd := w_cwd w; w_env_IMAGE_OUTPUT_DIR := w_env_IMAGE_OUTPUT_DIR w;
     w_clock := w_clock w; w_tick := t; w_fs := w_fs w;
     w_mkdir_error := w_mkdir_error w;
     w_writeFile_error := w_writeFile_error w; w_trace := w_trace w |}.

Definition with_fs (w : World) (fs : JsString -> option FsNode) : World :=
  {| w_cwd := w_cwd w; w_env_IMAGE_OUTPUT_DIR := w_env_IMAGE_OUTPUT_DIR w;
     w_clock := w_clock w; w_tick := w_tick w; w_fs := fs;
     w_mkdir_error := w_mkdir_error w;
     w_writeFile_error := w_writeFile_error w; w_trace := w_trace w |}.

Definition log (w : World) (ev : Event) : World :=
  {| w_cwd := w_cwd w; w_env_IMAGE_OUTPUT_DIR := w_env_IMAGE_OUTPUT_DIR w;
     w_clock := w_clock w; w_tick := w_tick w; w_fs := w_fs w;
     w_mkdir_error := w_mkdir_error w;
     w_writeFile_error := w_writeFile_error w;
     w_trace := w_trace w ++ [ev] |}.

(** An asynchronous (or effectful) computation: it settles with a value or
    an exception and leaves a world behind. *)
Definition Async (A : Type) : Type := World -> Result A * World.

Definition resolved {A} (a : A) : Async A := fun w => (Ok a, w).
Definition rejected {A} (e : JsError) : Async A := fun w => (Throw e, w).

Definition await {A B} (m : Async A) (k : A -> Async B) : Async B :=
  fun w =>
    match m w with
    | (Ok a, w') => k a w'
    | (Throw e, w') => (Throw e, w')
    end.

Declare Scope async_scope.
Delimit Scope async_scope with async.
Notation "'let*' x ':=' m 'in' k" := (await m (fun x => k))
  (at level 10, x name, m at level 100, k at level 200) : async_scope.
Notation "m ';;' k" := (await m (fun _ => k))
  (at level 100, k at level 200, right associativity) : async_scope.

Definition of_result {A} (r : Result A) : Async A := fun w => (r, w).

(** A synchronous effectful computation that cannot fail. *)
Definition Sync (A : Type) : Type := World -> A * World.

Definition lift {A} (m : Sync A) : Async A :=
  fun w => let '(a, w') := m w in (Ok a, w').

(** [new Date()]: the clock is read and moves on. *)
Definition new_Date : Sync DateTime :=
  fun w => (w_clock w (w_tick w), with_tick w (S (w_tick w))).

(** [generateFilename(prefix, mimeType)]. *)
Definition generateFilename (prefix mimeType : JsString) : Sync JsString :=
  fun w =>
    let '(now, w) := new_Date w in
    (filename_at now prefix mimeType, w).

Definition existsSync (w : World) (path : JsString) : bool :=
  match w_fs w path with
  | Some _ => true
  | None => false
  end.

(** [statSync(path).isDirectory()], asked only of an existing path. *)
Definition statSync_isDirectory (w : World) (path : JsString) : bool :=
  match w_fs w path with
  | Some FsDir => true
  | _ => false
  end.

Fixpoint is_prefix (p s : JsString) : bool :=
  match p, s with
  | [], _ => true
  | a :: p', b :: s' => (a =? b) && is_prefix p' s'
  | _ :: _, [] => false
  end.

Definition endsWith (s suffix : JsString) : bool :=
  is_prefix (rev suffix) (rev s).

(** The one-character string of a backslash. *)
Definition BACKSLASH : JsString := [92].

(** [mkdir(dir, { recursive: true })]: the directory and its missing
    ancestors exist afterwards. *)
Definition mkdir_recursive (dir : JsString) : Async unit :=
  fun w =>
    let w := log w (EvMkdir dir) in
    match w_mkdir_error w dir with
    | Some e => (Throw e, w)
    | None =>
        (Ok tt,
         with_fs w (fun p =>
           if jsstr_eqb p dir || is_prefix (p ++ [Path.SLASH]) dir
           then match w_fs w p with
                | Some node => Some node
                | None => Some FsDir
                end
           else w_fs w p))
    end.

(** [writeFile(path, data)]: the whole buffer, over whatever was there. *)
Definition writeFile (path : JsString) (data : Buffer) : Async unit :=
  fun w =>
    let w := log w (EvWriteFile path data) in
    match w_writeFile_error w path with
    | Some e => (Throw e, w)
    | None =>
        (Ok tt,
         with_fs w (fun p =>
           if jsstr_eqb p path then Some (FsFile data) else w_fs w p))
    end.

(** [provider.generateImage(options)]. *)
Definition call_generateImage (provider : ImageProvider)
    (options : ImageGenerationOptions) : Async GeneratedImage :=
  fun w => (generateImage provider options, log w (EvGenerateImage options)).

Open Scope async_scope.

(** ** utils/image.ts: saving *)

Definition is_empty (s : JsString) : bool :=
  match s with
  | [] => true
  | _ => false
  end.

(** [/[^a-zA-Z0-9-_]/]: the code units the class lets through are the
    ASCII letters and digits, the dash and the underscore. *)
Definition is_filename_char (c : Z) : bool :=
  ((97 <=? c) && (c <=? 122)) || ((65 <=? c) && (c <=? 90))
  || ((48 <=? c) && (c <=? 57)) || (c =? 45) || (c =? 95).

(** [name.replace(/[^a-zA-Z0-9-_]/g, "-")]. *)
Definition replace_unsafe (name : JsString) : JsString :=
  map (fun c => if is_filename_char c then c else 45) name.

(** [s.replace(/-+/g, "-")]: every run of dashes becomes one dash. *)
Fixpoint collapse_dashes (s : JsString) : JsString :=
  match s with
  | [] => []
  | c :: rest =>
      if c =? 45 then
        match rest with
        | d :: _ =>
            if d =? 45 then collapse_dashes rest else c :: collapse_dashes rest
        | [] => [c]
        end
      else c :: collapse_dashes rest
  end.

(** [s.replace(/^-|-$/g, "")]: a dash at the start goes, and a dash at the
    end of what is left. *)
Definition strip_leading_dash (s : JsString) : JsString :=
  match s with
  | c :: rest => if c =? 45 then rest else s
  | [] => []
  end.

Fixpoint strip_trailing_dash (s : JsString) : JsString :=
  match s with
  | [] => []
  | [c] => if c =? 45 then [] else [c]
  | c :: rest => c :: strip_trailing_dash rest
  end.

(** [toLowerCase()] on a string of ASCII characters. *)
Definition ascii_lower (c : Z) : Z :=
  if (65 <=? c) && (c <=? 90) then c + 32 else c.

(** [sanitizeFilename(name)]. *)
Definition sanitizeFilename (name : JsString) : JsString :=
  str_slice0
    (map ascii_lower
       (strip_trailing_dash
          (strip_leading_dash (collapse_dashes (replace_unsafe name)))))
    100.

(** [saveImage(base64Data, outputPath, mimeType, metadata)]. *)
Definition saveImage (base64Data outputPath mimeType : JsString)
    (metadata : option ImageMetadata) : Async JsString :=
  fun w =>
    let absolutePath := Path.resolve (w_cwd w) outputPath in
    let isDirectory :=
      endsWith outputPath (lit "/") || endsWith outputPath BACKSLASH
      || (existsSync w absolutePath && statSync_isDirectory w absolutePath) in
    (let* absolutePath :=
       if isDirectory then
         let* filename := lift (generateFilename (lit "blog-image") mimeType) in
         resolved (Path.join absolutePath filename)
       else resolved absolutePath in
     let dir := Path.dirname absolutePath in
     let* _ :=
       (fun w' =>
          if negb (existsSync w' dir) then mkdir_recursive dir w'
          else resolved tt w') in
     let finalPath :=
       if is_empty (Path.extname absolutePath)
       then absolutePath ++ to_js_string (getExtensionFromMimeType mimeType)
       else absolutePath in
     let rawBuffer := buffer_from_base64 base64Data in
     let* finalBuffer :=
       of_result
         match metadata with
         | Some md =>
             if jsstr_eqb mimeType (lit "image/png")
             then embedPngMetadata rawBuffer md
             else Ok rawBuffer
         | None => Ok rawBuffer
         end in
     writeFile finalPath finalBuffer ;;
     resolved finalPath) w.

(** [getDefaultOutputDir()]. *)
Definition getDefaultOutputDir (w : World) : JsString :=
  match w_env_IMAGE_OUTPUT_DIR w with
  | Some (c :: envDir) => Path.resolve (w_cwd w) (c :: envDir)
  | _ => Path.join (w_cwd w) (lit "generated-images")
  end.

(** [generateDefaultOutputPath(mimeType, prefix)]. *)
Definition generateDefaultOutputPath (mimeType prefix : JsString)
    : Sync JsString :=
  fun w =>
    let dir := getDefaultOutputDir w in
    let '(filename, w) := generateFilename prefix mimeType w in
    (Path.join dir filename, w).

(** ** The generate tool: [executeGenerateImage] *)

(** Modelled from the spec: [PlatformPreset] of config/presets, the static
    mapping from a format key to its declared geometry (width, height,
    aspect ratio, native-support flag, provider aspect ratio).  Only the
    fields the tool reads are kept. *)
Record PlatformPreset := {
  ps_name : JsString;
  ps_width : Z;
  ps_height : Z;
  ps_aspectRatio : JsString;
  ps_nativeAspectRatio : bool;
  ps_geminiAspectRatio : JsString
}.

(** What [validatePrompt] and [validateOutputPath] of utils/security
    return. *)
Record PromptValidation := {
  pv_valid : bool;
  pv_error : option JsString;
  pv_sanitized : JsString
}.

Record PathValidation := {
  pathv_valid : bool;
  pathv_error : option JsString
}.

(** The collaborators of the tool that live outside utils/image.ts and the
    tool itself: the security helpers, the preset table and the provider
    registry. *)
Record Collaborators := {
  validatePrompt : JsString -> PromptValidation;
  validateOutputPath : JsString -> PathValidation;
  safeErrorMessage : JsError -> JsString;
  PLATFORM_PRESETS : JsString -> option PlatformPreset;
  PRESET_KEYS : list JsString;
  createProvider : JsString -> ImageProvider
}.

Record GenerateImageInput := {
  in_prompt : JsString;
  in_format : JsString;
  in_quality : Quality;
  in_style : option JsString;
  in_title : option JsString;
  in_outputPath : option JsString;
  in_provider : JsString
}.

Record Dimensions := {
  dim_width : Z;
  dim_height : Z;
  dim_requestedWidth : option Z;
  dim_requestedHeight : option Z
}.

Record ImageInfo := {
  img_base64Data : JsString;
  img_mimeType : JsString;
  img_format : JsString;
  img_dimensions : Dimensions;
  img_fileSize : JsString;
  img_savedTo : option JsString
}.

Record GenerateImageResult := {
  res_success : bool;
  res_message : JsString;
  res_image : option ImageInfo;
  res_preset : option PlatformPreset;
  res_warning : option JsString;
  res_error : option JsString
}.

Definition failure (message : string) (error : option JsString)
    : GenerateImageResult :=
  {| res_success := false; res_message := lit message; res_image := None;
     res_preset := None; res_warning := None; res_error := error |}.

(** [keys.join(", ")]. *)
Fixpoint join_comma (keys : list JsString) : JsString :=
  match keys with
  | [] => []
  | [k] => k
  | k :: rest => k ++ lit ", " ++ join_comma rest
  end.

(** A truthy optional string: defined and not empty. *)
Definition truthy (o : option JsString) : bool :=
  match o with
  | Some (_ :: _) => true
  | _ => false
  end.

(** [a ?? b]. *)
Definition nullish {A} (o : option A) (default : A) : A :=
  match o with
  | Some a => a
  | None => default
  end.

(** The text of the warning for a preset whose aspect ratio the provider
    does not support natively. *)
Definition native_mismatch_warning (preset : PlatformPreset) : JsString :=
  lit "Note: This preset's aspect ratio (" ++ ps_aspectRatio preset
  ++ lit ") is not natively supported by Gemini. "
  ++ lit "Image was generated at " ++ ps_geminiAspectRatio preset
  ++ lit " aspect ratio. "
  ++ lit "You may need to crop the image to fit "
  ++ show_int (ps_width preset) ++ lit "x" ++ show_int (ps_height preset)
  ++ lit ".".

(** The text of the warning for actual dimensions that differ from the
    preset's. *)
Definition dimension_drift_warning (actualWidth actualHeight : Z)
    (preset : PlatformPreset) : JsString :=
  lit "Image was generated at " ++ show_int actualWidth ++ lit "x"
  ++ show_int actualHeight ++ lit ", which differs from the preset's "
  ++ show_int (ps_width preset) ++ lit "x" ++ show_int (ps_height preset)
  ++ lit ". " ++ lit "You may need to resize the image.".

(** The geometry block of [executeGenerateImage]: the actual dimensions
    (from the provider, else the preset's) and the warning. *)
Definition reconcile (preset : PlatformPreset) (generatedImage : GeneratedImage)
    : Z * Z * option JsString :=
  let actualWidth := nullish (gi_width generatedImage) (ps_width preset) in
  let actualHeight := nullish (gi_height generatedImage) (ps_height preset) in
  let warning :=
    if negb (ps_nativeAspectRatio preset) then
      Some (native_mismatch_warning preset)
    else if negb (actualWidth =? ps_width preset)
            || negb (actualHeight =? ps_height preset) then
      Some (dimension_drift_warning actualWidth actualHeight preset)
    else None in
  (actualWidth, actualHeight, warning).

(** The provenance record built for the saved image. *)
Definition build_metadata (input : GenerateImageInput)
    (generatedImage : GeneratedImage) (now : DateTime) : ImageMetadata :=
  {| md_prompt := Some (in_prompt input);
     md_model :=
       Some (nullish (gi_model generatedImage) (lit "gemini-2.0-flash-exp"));
     md_provider := Some (in_provider input);
     md_format := Some (in_format input);
     md_style := in_style input;
     md_title := in_title input;
     md_generatedAt := Some (toISOString now) |}.

(** The prompt sent to the provider: the sanitized prompt, with the title
    in front when there is one. *)
Definition enhance_prompt (sanitized : JsString) (title : option JsString)
    : JsString :=
  match title with
  | Some (c :: title) =>
      lit "For a blog post titled " ++ [34] ++ (c :: title) ++ [34]
      ++ lit ": " ++ sanitized
  | _ => sanitized
  end.

(** The options handed to [provider.generateImage]. *)
Definition generation_options (enhancedPrompt : JsString)
    (preset : PlatformPreset) (input : GenerateImageInput)
    : ImageGenerationOptions :=
  {| opt_prompt := enhancedPrompt;
     opt_aspectRatio := ps_aspectRatio preset;
     opt_width := ps_width preset;
     opt_height := ps_height preset;
     opt_quality := in_quality input;
     opt_style := in_style input |}.

(** [executeGenerateImage(input)].  Every exception is caught inside, so
    the promise always resolves to a result record. *)
Definition executeGenerateImage (env : Collaborators)
    (input : GenerateImageInput) (w : World) : GenerateImageResult * World :=
  let promptValidation := validatePrompt env (in_prompt input) in
  if negb (pv_valid promptValidation) then
    (failure "Invalid prompt" (pv_error promptValidation), w)
  else
  let pathValidation :=
    if truthy (in_outputPath input)
    then validateOutputPath env (nullish (in_outputPath input) [])
    else {| pathv_valid := true; pathv_error := None |} in
  if negb (pathv_valid pathValidation) then
    (failure "Invalid output path" (pathv_error pathValidation), w)
  else
  match PLATFORM_PRESETS env (in_format input) with
  | None =>
      (failure "Invalid format"
         (Some (lit "Unknown format: " ++ in_format input
                ++ lit ". Available: " ++ join_comma (PRESET_KEYS env))), w)
  | Some preset =>
  let provider := createProvider env (in_provider input) in
  if negb (isConfigured provider) then
    (failure "Provider not configured"
       (Some (in_provider input
              ++ lit " provider requires API key. Set GOOGLE_API_KEY environment variable.")),
     w)
  else
  let enhancedPrompt :=
    enhance_prompt (pv_sanitized promptValidation) (in_title input) in
  match call_generateImage provider
          (generation_options enhancedPrompt preset input) w with
  | (Throw error, w) =>
      (failure "Image generation failed" (Some (safeErrorMessage env error)), w)
  | (Ok generatedImage, w) =>
  let fileSize :=
    formatFileSize (estimateFileSize (gi_base64Data generatedImage)) in
  let '(outputPath, w) :=
    match in_outputPath input with
    | Some p => (p, w)
    | None =>
        generateDefaultOutputPath (gi_mimeType generatedImage)
          (lit "blog-image") w
    end in
  let '(now, w) := new_Date w in
  let metadata := build_metadata input generatedImage now in
  match saveImage (gi_base64Data generatedImage) outputPath
          (gi_mimeType generatedImage) (Some metadata) w with
  | (Throw error, w) =>
      (failure "Failed to save image" (Some (safeErrorMessage env error)), w)
  | (Ok savedPath, w) =>
  let '(actualWidth, actualHeight, warning) :=
    reconcile preset generatedImage in
  let message := lit "Image generated and saved to " ++ savedPath in
  ({| res_success := true;
      res_message := message;
      res_image :=
        Some {| img_base64Data := gi_base64Data generatedImage;
                img_mimeType := gi_mimeType generatedImage;
                img_format := in_format input;
                img_dimensions :=
                  {| dim_width := actualWidth;
                     dim_height := actualHeight;
                     dim_requestedWidth := Some (ps_width preset);
                     dim_requestedHeight := Some (ps_height preset) |};
                img_fileSize := fileSize;
                img_savedTo := Some savedPath |};
      res_preset := Some preset;
      res_warning := warning;
      res_error := None |}, w)
  end end end.

(** ** Vocabulary of the specification

    The definitions below follow the words of the specification: they say
    what a synthesized chunk is and which chunks a provenance record calls
    for.  The theorems compare them with what the code computes. *)

(** [keyword-bytes + 1 + value-bytes]: the chunk data. *)
Definition chunk_data (keyword value : JsString) : Buffer :=
  buffer_from_latin1 keyword ++ [0] ++ buffer_from_utf8 value.

(** A tEXt chunk: big-endian length of the data, type, data, big-endian
    CRC-32 over type and data. *)
Definition text_chunk (keyword value : JsString) : Buffer :=
  u32be (buf_length (chunk_data keyword value)) ++ tEXt
  ++ chunk_data keyword value
  ++ u32be (crc32 (tEXt ++ chunk_data keyword value)).

(** [12 + keyword-bytes + 1 + value-bytes]. *)
Definition chunk_size (keyword value : JsString) : Z :=
  12 + buf_length (buffer_from_latin1 keyword) + 1
  + buf_length (buffer_from_utf8 value).

(** The data of a chunk fit the 32-bit length field. *)
Definition fits (kv : JsString * JsString) : Prop :=
  buf_length (chunk_data (fst kv) (snd kv)) < 2 ^ 32.

(** The provenance fields with their keywords, in the documented order. *)
Definition provenance_fields (md : ImageMetadata)
    : list (string * option JsString) :=
  [ ("Description", md_prompt md);
    ("AI-Model", md_model md);
    ("AI-Provider", md_provider md);
    ("Image-Format", md_format md);
    ("AI-Style", md_style md);
    ("Title", md_title md);
    ("Creation-Time", md_generatedAt md) ]%string.

Definition present_field (kf : string * option JsString)
    : list (JsString * JsString) :=
  match snd kf with
  | Some (c :: s) => [(lit (fst kf), c :: s)]
  | _ => []
  end.

Definition fixed_fields : list (JsString * JsString) :=
  [ (lit "Software", lit SOFTWARE_TAG); (lit "Source", lit SOURCE_TAG) ].

(** One pair per non-empty provenance field, then the two fixed pairs. *)
Definition synthesized_fields (md : ImageMetadata)
    : list (JsString * JsString) :=
  flat_map present_field (provenance_fields md) ++ fixed_fields.

Definition chunks_size (fields : list (JsString * JsString)) : Z :=
  fold_right (fun kv acc => chunk_size (fst kv) (snd kv) + acc) 0 fields.

(** Every string of the record is one the engine can hold. *)
Definition metadata_ok (md : ImageMetadata) : Prop :=
  Forall (fun kf => match snd kf with
                    | Some s => js_string_ok s
                    | None => True
                    end) (provenance_fields md).

Definition has_png_signature (b : Buffer) : Prop :=
  buf_slice b 0 PNG_SIGNATURE_LENGTH = expectedSig.

(** The keyword as it is stored: [keyword.slice(0, 79).trim()]. *)
Definition safe_keyword (keyword : JsString) : JsString :=
  trim (str_slice0 keyword 79).

(** The nine keywords that occur in the source. *)
Definition md_keywords : list string :=
  ["Description"; "AI-Model"; "AI-Provider"; "Image-Format"; "AI-Style";
   "Title"; "Creation-Time"; "Software"; "Source"]%string.

(** Membership in the list of keywords. *)
Ltac keyword_in := cbn [md_keywords In]; tauto.

Definition chunk_of (kv : JsString * JsString) : Buffer :=
  text_chunk (fst kv) (snd kv).

(** The offset at which the chunks are spliced in: the end of the first
    chunk, whose data length the buffer declares. *)
Definition ihdr_end (ihdrLength : Z) : Z :=
  PNG_SIGNATURE_LENGTH + 4 + 4 + ihdrLength + 4.

(** The input with the chunks of a provenance record spliced in. *)
Definition spliced (buf : Buffer) (ihdrLength : Z) (md : ImageMetadata)
    : Buffer :=
  buf_slice buf 0 (ihdr_end ihdrLength)
  ++ concat (map chunk_of (synthesized_fields md))
  ++ buf_slice_from buf (ihdr_end ihdrLength).

(** The test by which [saveImage] takes the supplied path for a
    directory. *)
Definition is_directory_path (w : World) (outputPath : JsString) : bool :=
  endsWith outputPath (lit "/") || endsWith outputPath BACKSLASH
  || (existsSync w (Path.resolve (w_cwd w) outputPath)
      && statSync_isDirectory w (Path.resolve (w_cwd w) outputPath)).

(** The character [x] does not occur in [s]. *)
Definition no_char (x : Z) (s : JsString) : Prop := Forall (fun c => c <> x) s.

(** The path [p] is the file name [f], alone or after a separator. *)
Definition ends_in_file (p f : JsString) : Prop :=
  exists prefix,
    p = prefix ++ f /\ (prefix = [] \/ exists q, prefix = q ++ [Path.SLASH]).

(** A usable file name: not empty, no separator in it, and neither of the
    two dot names. *)
Definition file_name (f : JsString) : Prop :=
  f <> [] /\ no_char Path.SLASH f /\ f <> [Path.DOT]
  /\ f <> [Path.DOT; Path.DOT].

(** The world in which [saveImage] looks for the directory: the clock has
    been read once if a file name was generated. *)
Definition after_naming (w : World) (outputPath : JsString) : World :=
  if is_directory_path w outputPath then with_tick w (S (w_tick w)) else w.

(** The path [saveImage] settles on before it looks at the extension: the
    resolved path, with a generated file name under it when the supplied
    path is taken for a directory. *)
Definition target_path (w : World) (outputPath mimeType : JsString)
    : JsString :=
  let absolutePath := Path.resolve (w_cwd w) outputPath in
  if is_directory_path w outputPath
  then Path.join absolutePath
         (filename_at (w_clock w (w_tick w)) (lit "blog-image") mimeType)
  else absolutePath.

(** The path [saveImage] writes to and returns. *)
Definition final_path (w : World) (outputPath mimeType : JsString)
    : JsString :=
  if is_empty (Path.extname (target_path w outputPath mimeType))
  then target_path w outputPath mimeType
       ++ to_js_string (getExtensionFromMimeType mimeType)
  else target_path w outputPath mimeType.

(** The bytes [saveImage] hands to [writeFile]. *)
Definition final_buffer (base64Data mimeType : JsString)
    (metadata : option ImageMetadata) : Result Buffer :=
  match metadata with
  | Some md =>
      if jsstr_eqb mimeType (lit "image/png")
      then embedPngMetadata (buffer_from_base64 base64Data) md
      else Ok (buffer_from_base64 base64Data)
  | None => Ok (buffer_from_base64 base64Data)
  end.

(** The steps of the tool between the provider's answer and the saved
    path: output path, provenance record, [saveImage]. *)
Definition save_generated (input : GenerateImageInput)
    (generatedImage : GeneratedImage) : Async JsString :=
  fun w =>
    let '(outputPath, w) :=
      match in_outputPath input with
      | Some p => (p, w)
      | None =>
          generateDefaultOutputPath (gi_mimeType generatedImage)
            (lit "blog-image") w
      end in
    let '(now, w) := new_Date w in
    saveImage (gi_base64Data generatedImage) outputPath
      (gi_mimeType generatedImage)
      (Some (build_metadata input generatedImage now)) w.

(** The provenance record the tool builds in world [w] for an answer. *)
Definition metadata_in (input : GenerateImageInput)
    (generatedImage : GeneratedImage) (w : World) : ImageMetadata :=
  let '(_, w) :=
    match in_outputPath input with
    | Some p => (p, w)
    | None =>
        generateDefaultOutputPath (gi_mimeType generatedImage)
          (lit "blog-image") w
    end in
  build_metadata input generatedImage (fst (new_Date w)).

(** The record of a successful outcome. *)
Definition success_result (input : GenerateImageInput)
    (preset : PlatformPreset) (generatedImage : GeneratedImage)
    (savedPath : JsString) : GenerateImageResult :=
  let '(actualWidth, actualHeight, warning) :=
    reconcile preset generatedImage in
  {| res_success := true;
     res_message := lit "Image generated and saved to " ++ savedPath;
     res_image :=
       Some {| img_base64Data := gi_base64Data generatedImage;
               img_mimeType := gi_mimeType generatedImage;
               img_format := in_format input;
               img_dimensions :=
                 {| dim_width := actualWidth;
                    dim_height := actualHeight;
                    dim_requestedWidth := Some (ps_width preset);
                    dim_requestedHeight := Some (ps_height preset) |};
               img_fileSize :=
                 formatFileSize
                   (estimateFileSize (gi_base64Data generatedImage));
               img_savedTo := Some savedPath |};
     res_preset := Some preset;
     res_warning := warning;
     res_error := None |}.

(** The outcome of the tool for a request, and the world it leaves. *)
Definition outcome (env : Collaborators) (input : GenerateImageInput)
    (w : World) : GenerateImageResult :=
  fst (executeGenerateImage env input w).

Definition world_after (env : Collaborators) (input : GenerateImageInput)
    (w : World) : World :=
  snd (executeGenerateImage env input w).

(** The request passes the checks made before the provider is created. *)
Definition request_valid (env : Collaborators) (input : GenerateImageInput)
    : bool :=
  pv_valid (validatePrompt env (in_prompt input))
  && (if truthy (in_outputPath input)
      then pathv_valid
             (validateOutputPath env (nullish (in_outputPath input) []))
      else true).

(** The options the tool sends for a request and a preset. *)
Definition options_of (env : Collaborators) (input : GenerateImageInput)
    (preset : PlatformPreset) : ImageGenerationOptions :=
  generation_options
    (enhance_prompt (pv_sanitized (validatePrompt env (in_prompt input)))
       (in_title input))
    preset input.

(** [haystack.includes(needle)]. *)
Fixpoint includes (haystack needle : JsString) : bool :=
  is_prefix needle haystack
  || match haystack with
     | [] => false
     | _ :: rest => includes rest needle
     end.

(** The events that change the file system. *)
Definition is_fs_mutation (ev : Event) : bool :=
  match ev with
  | EvMkdir _ | EvWriteFile _ _ => true
  | EvGenerateImage _ => false
  end.

Definition is_provider_call (ev : Event) : bool :=
  match ev with
  | EvGenerateImage _ => true
  | _ => false
  end.

(** What [sanitizeFilename] promises of its result, as tests. *)
Definition is_safe_lower_char (c : Z) : bool :=
  ((97 <=? c) && (c <=? 122)) || ((48 <=? c) && (c <=? 57))
  || (c =? 45) || (c =? 95).

Definition starts_with_dash (s : JsString) : bool :=
  match s with
  | c :: _ => c =? 45
  | [] => false
  end.

Fixpoint has_double_dash (s : JsString) : bool :=
  match s with
  | c :: rest =>
      ((c =? 45) && starts_with_dash rest) || has_double_dash rest
  | [] => false
  end.

(** A date whose fields have the widths of the ISO format: a year of four
    digits, two digits for month, day, hours, minutes and seconds, three
    for the milliseconds.  Every date of the years 0 to 9999 is one. *)
Definition four_digit_date (d : DateTime) : Prop :=
  0 <= dt_year d <= 9999
  /\ (dt_month d < 100)%N /\ (dt_day d < 100)%N /\ (dt_hours d < 100)%N
  /\ (dt_minutes d < 100)%N /\ (dt_seconds d < 100)%N
  /\ (dt_ms d < 1000)%N.

(** Two dates in the same second. *)
Definition same_second (a b : DateTime) : Prop :=
  dt_year a = dt_year b /\ dt_month a = dt_month b /\ dt_day a = dt_day b
  /\ dt_hours a = dt_hours b /\ dt_minutes a = dt_minutes b
  /\ dt_seconds a = dt_seconds b.

(** The file-system calls one [saveImage] can make: a directory made or
    not, then a file written or not. *)
Definition save_shape (evs : list Event) : bool :=
  match evs with
  | [] | [EvMkdir _] | [EvWriteFile _ _] | [EvMkdir _; EvWriteFile _ _] => true
  | _ => false
  end.

Definition is_write (ev : Event) : bool :=
  match ev with
  | EvWriteFile _ _ => true
  | _ => false
  end.

(** The six messages of a failed or successful outcome. *)
Definition failure_messages : list JsString :=
  [ lit "Invalid prompt"; lit "Invalid output path"; lit "Invalid format";
    lit "Provider not configured"; lit "Image generation failed";
    lit "Failed to save image" ].

(** ** providers/gemini.ts: the Gemini provider *)

Inductive GeminiModel :=
| gemini_2_5_flash_image
| gemini_3_pro_image_preview.

Definition model_name (m : GeminiModel) : JsString :=
  match m with
  | gemini_2_5_flash_image => lit "gemini-2.5-flash-image"
  | gemini_3_pro_image_preview => lit "gemini-3-pro-image-preview"
  end.

Inductive GeminiAspectRatio :=
| ratio_1_1
| ratio_16_9
| ratio_9_16
| ratio_4_3
| ratio_3_4.

Definition ratio_name (r : GeminiAspectRatio) : JsString :=
  match r with
  | ratio_1_1 => lit "1:1"
  | ratio_16_9 => lit "16:9"
  | ratio_9_16 => lit "9:16"
  | ratio_4_3 => lit "4:3"
  | ratio_3_4 => lit "3:4"
  end.

Definition SUPPORTED_ASPECT_RATIOS : list GeminiAspectRatio :=
  [ratio_1_1; ratio_16_9; ratio_9_16; ratio_4_3; ratio_3_4].

(** [getSupportedAspectRatios()]. *)
Definition getSupportedAspectRatios : list JsString :=
  map ratio_name SUPPORTED_ASPECT_RATIOS.

(** [getMaxResolution()]: width and height. *)
Definition getMaxResolution : Z * Z := (4096, 4096).

(** The table [standardSizes] of [getActualDimensions]: width and
    height. *)
Definition standardSizes (r : GeminiAspectRatio) : Z * Z :=
  match r with
  | ratio_1_1 => (1024, 1024)
  | ratio_16_9 => (1536, 864)
  | ratio_9_16 => (864, 1536)
  | ratio_4_3 => (1280, 960)
  | ratio_3_4 => (960, 1280)
  end.

(** [Math.round(x * scale)] for an integer [x] and a scale of [halves]
    halves (1.5 is three halves, 2.5 five): the product is exact, and
    [Math.round] rounds a half upwards. *)
Definition round_scaled (x halves : Z) : Z := (x * halves + 1) / 2.

(** [getActualDimensions(aspectRatio, requestedWidth, _requestedHeight)]. *)
Definition getActualDimensions (aspectRatio : GeminiAspectRatio)
    (requestedWidth _requestedHeight : Z) : Z * Z :=
  let standard := standardSizes aspectRatio in
  if 1500 <? requestedWidth then
    let base := standard in
    let scale := if 3000 <? requestedWidth then 5 else 3 in
    (round_scaled (fst base) scale, round_scaled (snd base) scale)
  else standard.

(** [ProviderError] of providers/types.ts. *)
Record ProviderError := {
  pe_message : JsString;
  pe_provider : JsString;
  pe_code : JsString;
  pe_isRetryable : bool
}.

(** What the SDK client can reject with: an [Error] with its message, or
    any other value. *)
Inductive ClientFailure :=
| ClientError (message : JsString)
| ClientValue.

(** The part of the SDK's response that [generateImage] reads. *)
Record InlineData := {
  inline_mimeType : option JsString;
  inline_data : option JsString
}.

Record ResponsePart := { part_inlineData : option InlineData }.

(** A candidate, with [content?.parts] when both are there. *)
Record Candidate := { cand_parts : option (list ResponsePart) }.

Record GenerateContentResponse := {
  resp_candidates : option (list Candidate)
}.

(** The request [generateImage] sends: model, prompt text, aspect ratio
    and, for some requests, an image size. *)
Record GenerateContentRequest := {
  req_model : GeminiModel;
  req_text : JsString;
  req_aspectRatio : GeminiAspectRatio;
  req_imageSize : option JsString
}.

Definition GeminiClient : Type :=
  GenerateContentRequest -> ClientFailure + GenerateContentResponse.

(** The state of a [GeminiProvider]: the client, there when an API key
    was found, and the default model of its configuration. *)
Record GeminiProvider := {
  gp_client : option GeminiClient;
  gp_defaultModel : option GeminiModel
}.

(** [isConfigured()]: [this.client !== null]. *)
Definition gemini_isConfigured (self : GeminiProvider) : bool :=
  match gp_client self with
  | Some _ => true
  | None => false
  end.

Definition provider_error (message code : string) (isRetryable : bool)
    : ProviderError :=
  {| pe_message := lit message; pe_provider := lit "gemini";
     pe_code := lit code; pe_isRetryable := isRetryable |}.

(** [part.inlineData?.mimeType?.startsWith("image/")]: the MIME type and
    the data of a part that carries an image. *)
Definition image_of_part (part : ResponsePart)
    : option (JsString * option JsString) :=
  match part_inlineData part with
  | Some inlineData =>
      match inline_mimeType inlineData with
      | Some mimeType =>
          if is_prefix (lit "image/") mimeType
          then Some (mimeType, inline_data inlineData)
          else None
      | None => None
      end
  | None => None
  end.

(** The loop over the parts stops at the first part that carries an
    image. *)
Fixpoint first_image (parts : list ResponsePart)
    : option (JsString * option JsString) :=
  match parts with
  | [] => None
  | part :: rest =>
      match image_of_part part with
      | Some found => Some found
      | None => first_image rest
      end
  end.

(** [response.candidates?.[0]] and its [content?.parts]. *)
Definition first_parts (response : GenerateContentResponse)
    : option (list ResponsePart) :=
  match resp_candidates response with
  | Some (candidate :: _) => cand_parts candidate
  | _ => None
  end.

Definition is_pro (m : GeminiModel) : bool :=
  match m with
  | gemini_3_pro_image_preview => true
  | gemini_2_5_flash_image => false
  end.

(** The model [generateImage] selects. *)
Definition select_model (self : GeminiProvider)
    (options : ImageGenerationOptions) : GeminiModel :=
  match opt_quality options with
  | high => gemini_3_pro_image_preview
  | standard => nullish (gp_defaultModel self) gemini_2_5_flash_image
  end.

(** The request [generateImage] builds. *)
Definition gemini_request (toGeminiAspectRatio : JsString -> GeminiAspectRatio)
    (self : GeminiProvider) (options : ImageGenerationOptions)
    : GenerateContentRequest :=
  let model := select_model self options in
  let aspectRatio := toGeminiAspectRatio (opt_aspectRatio options) in
  let fullPrompt :=
    match opt_style options with
    | Some (c :: style) =>
        (c :: style) ++ lit " style: " ++ opt_prompt options
    | _ => opt_prompt options
    end in
  {| req_model := model;
     req_text := fullPrompt;
     req_aspectRatio := aspectRatio;
     req_imageSize :=
       if is_pro model && (1500 <? opt_width options)
       then Some (if 3000 <? opt_width options then lit "4K" else lit "2K")
       else None |}.

(** The body of the [try] block of [generateImage]: what it returns, or
    what it throws, a [ProviderError] of its own or whatever the client
    rejected with. *)
Definition gemini_attempt (toGeminiAspectRatio : JsString -> GeminiAspectRatio)
    (self : GeminiProvider) (client : GeminiClient)
    (options : ImageGenerationOptions)
    : (ProviderError + ClientFailure) + GeneratedImage :=
  let request := gemini_request toGeminiAspectRatio self options in
  match client request with
  | inl failure => inl (inr failure)
  | inr response =>
      match first_parts response with
      | None =>
          inl (inl (provider_error "No image generated in response"
                      "NO_IMAGE" true))
      | Some parts =>
          match first_image parts with
          | Some (mimeType, Some (c :: imageData)) =>
              let actualDimensions :=
                getActualDimensions (req_aspectRatio request)
                  (opt_width options) (opt_height options) in
              inr {| gi_base64Data := c :: imageData;
                     gi_mimeType := mimeType;
                     gi_width := Some (fst actualDimensions);
                     gi_height := Some (snd actualDimensions);
                     gi_model := Some (model_name (req_model request)) |}
          | Some (_, _) =>
              inl (inl (provider_error "Empty image data in response"
                          "EMPTY_IMAGE_DATA" true))
          | None =>
              inl (inl (provider_error "No image data found in response"
                          "NO_IMAGE_DATA" true))
          end
      end
  end.

(** [generateImage(options)] of the Gemini provider, with the mapping
    [toGeminiAspectRatio] of config/presets taken as given. *)
Definition gemini_generateImage
    (toGeminiAspectRatio : JsString -> GeminiAspectRatio)
    (self : GeminiProvider) (options : ImageGenerationOptions)
    : ProviderError + GeneratedImage :=
  match gp_client self with
  | None =>
      inl (provider_error
             "Gemini provider not configured. Set GOOGLE_API_KEY environment variable."
             "NOT_CONFIGURED" false)
  | Some client =>
      match gemini_attempt toGeminiAspectRatio self client options with
      | inr image => inr image
      | inl (inl error) => inl error
      | inl (inr failure) =>
          let message :=
            match failure with
            | ClientError message => message
            | ClientValue => lit "Unknown error"
            end in
          let isRetryable :=
            includes message (lit "rate limit")
            || includes message (lit "timeout")
            || includes message (lit "503") in
          inl {| pe_message := lit "Gemini API error: " ++ message;
                 pe_provider := lit "gemini";
                 pe_code := lit "API_ERROR";
                 pe_isRetryable := isRetryable |}
      end
  end.

(** The Gemini provider behind the [ImageProvider] interface the tool
    uses; a [ProviderError] is an [Error] named [ProviderError]. *)
Definition gemini_provider
    (toGeminiAspectRatio : JsString -> GeminiAspectRatio)
    (self : GeminiProvider) : ImageProvider :=
  {| prov_name := lit "gemini";
     isConfigured := gemini_isConfigured self;
     generateImage := fun options =>
       match gemini_generateImage toGeminiAspectRatio self options with
       | inr image => Ok image
       | inl error => Throw (MkError (lit "ProviderError") (pe_message error))
       end |}.

(** The two terms of an aspect ratio, as its name gives them. *)
Definition ratio_terms (r : GeminiAspectRatio) : Z * Z :=
  match r with
  | ratio_1_1 => (1, 1)
  | ratio_16_9 => (16, 9)
  | ratio_9_16 => (9, 16)
  | ratio_4_3 => (4, 3)
  | ratio_3_4 => (3, 4)
  end.

Definition provider_error_codes : list JsString :=
  [ lit "NOT_CONFIGURED"; lit "NO_IMAGE"; lit "EMPTY_IMAGE_DATA";
    lit "NO_IMAGE_DATA"; lit "API_ERROR" ].

(** ** index.ts: the answer to a [generate_blog_image] call *)

Inductive ContentItem :=
| TextContent (text : JsString)
| ImageContent (data mimeType : JsString).

(** The result of a tool call; an absent [isError] reads as false. *)
Record ToolResponse := {
  tr_content : list ContentItem;
  tr_isError : bool
}.

(** The line feed of the template strings. *)
Definition LF : JsString := [10].

(** The text of the details item. *)
Definition details_text (image : ImageInfo) : JsString :=
  LF ++ lit "Details:" ++ LF ++ lit "- Format: " ++ img_format image
  ++ LF ++ lit "- Dimensions: "
  ++ show_int (dim_width (img_dimensions image)) ++ lit "x"
  ++ show_int (dim_height (img_dimensions image))
  ++ LF ++ lit "- File size: " ++ img_fileSize image
  ++ (if truthy (img_savedTo image)
      then LF ++ lit "- Saved to: " ++ nullish (img_savedTo image) []
      else []).

(** The handler of [generate_blog_image], from the result of
    [executeGenerateImage] on. *)
Definition respond (result : GenerateImageResult) : ToolResponse :=
  if negb (res_success result) then
    {| tr_content :=
         [TextContent
            (lit "Error: " ++ nullish (res_error result) (res_message result))];
       tr_isError := true |}
  else
    {| tr_content :=
         TextContent (res_message result)
         :: match res_image result with
            | Some image =>
                [ImageContent (img_base64Data image) (img_mimeType image);
                 TextContent (details_text image)]
            | None => []
            end;
       tr_isError := false |}.

(** ** A concrete deployment, for running the pipeline *)

Module Scenario.

Definition ghost_banner : PlatformPreset :=
  {| ps_name := lit "Ghost Blog Banner"; ps_width := 1200;
     ps_height := 675; ps_aspectRatio := lit "16:9";
     ps_nativeAspectRatio := true; ps_geminiAspectRatio := lit "16:9" |}.

Definition linkedin_post : PlatformPreset :=
  {| ps_name := lit "LinkedIn Post"; ps_width := 1200;
     ps_height := 628; ps_aspectRatio := lit "1.91:1";
     ps_nativeAspectRatio := false; ps_geminiAspectRatio := lit "16:9" |}.

Definition presets (key : JsString) : option PlatformPreset :=
  if jsstr_eqb key (lit "ghost-banner") then Some ghost_banner
  else if jsstr_eqb key (lit "linkedin-post") then Some linkedin_post
  else None.

(** A one-pixel PNG of 70 bytes (IHDR, IDAT, IEND), base64 encoded. *)
Definition pixel_base64 : JsString :=
  lit "iVBORw0KGgoAAAANSUhEUgAAAAEAAAABCAYAAAAfFcSJAAAADUlEQVR42mNkYPhfDwAChwGA60e6kgAAAABJRU5ErkJggg==".

Definition pixel_png : Buffer := buffer_from_base64 pixel_base64.

(** The image a configured provider answers with: the standard 16:9
    size of the Gemini provider. *)
Definition answer : GeneratedImage :=
  {| gi_base64Data := pixel_base64; gi_mimeType := lit "image/png";
     gi_width := Some 1536; gi_height := Some 864;
     gi_model := Some (lit "gemini-2.5-flash-image") |}.

Definition gemini : ImageProvider :=
  {| prov_name := lit "gemini"; isConfigured := true;
     generateImage := fun _ => Ok answer |}.

Definition gemini_without_key : ImageProvider :=
  {| prov_name := lit "gemini"; isConfigured := false;
     generateImage := fun _ =>
       Throw (MkError (lit "ProviderError")
                (lit "Gemini provider not configured. Set GOOGLE_API_KEY environment variable.")) |}.

Definition collaborators (provider : ImageProvider) : Collaborators :=
  {| validatePrompt := fun p =>
       {| pv_valid := (3 <=? Z.of_nat (length p));
          pv_error := Some (lit "Prompt must be at least 3 characters");
          pv_sanitized := trim p |};
     validateOutputPath := fun p =>
       {| pathv_valid := negb (includes p (lit ".."));
          pathv_error := Some (lit "Path traversal is not allowed") |};
     safeErrorMessage := err_message;
     PLATFORM_PRESETS := presets;
     PRESET_KEYS := [lit "ghost-banner"; lit "linkedin-post"];
     createProvider := fun _ => provider |}.

Definition noon : DateTime :=
  {| dt_year := 2025; dt_month := 12; dt_day := 2; dt_hours := 12;
     dt_minutes := 0; dt_seconds := 0; dt_ms := 7 |}.

Definition project : JsString := lit "/home/user/project".

Definition disk (path : JsString) : option FsNode :=
  if jsstr_eqb path (lit "/") || jsstr_eqb path (lit "/home")
     || jsstr_eqb path (lit "/home/user") || jsstr_eqb path project
  then Some FsDir else None.

Definition world : World :=
  {| w_cwd := project; w_env_IMAGE_OUTPUT_DIR := None;
     w_clock := fun _ => noon; w_tick := 0%nat; w_fs := disk;
     w_mkdir_error := fun _ => None; w_writeFile_error := fun _ => None;
     w_trace := [] |}.

Definition EACCES (path : JsString) : JsError :=
  MkError (lit "Error")
    (lit "EACCES: permission denied, open '" ++ path ++ lit "'").

(** The same machine with a disk that refuses every write. *)
Definition readonly_world : World :=
  {| w_cwd := project; w_env_IMAGE_OUTPUT_DIR := None;
     w_clock := fun _ => noon; w_tick := 0%nat; w_fs := disk;
     w_mkdir_error := fun p => Some (EACCES p);
     w_writeFile_error := fun p => Some (EACCES p);
     w_trace := [] |}.

Definition request (format : string) (outputPath : option JsString)
    : GenerateImageInput :=
  {| in_prompt := lit "sunset"; in_format := lit format;
     in_quality := standard; in_style := None; in_title := None;
     in_outputPath := outputPath; in_provider := lit "gemini" |}.

(** A provider whose service is down. *)
Definition gemini_down : ImageProvider :=
  {| prov_name := lit "gemini"; isConfigured := true;
     generateImage := fun _ =>
       Throw (MkError (lit "ProviderError") (lit "Gemini API error: 503")) |}.

(** The eight bytes of the PNG signature and nothing else, base64
    encoded. *)
Definition signature_only_base64 : JsString := lit "iVBORw0KGgo=".

(** A client that answers every request with a text part and the
    one-pixel PNG, and the provider built on it. *)
Definition answering_client : GeminiClient :=
  fun _ =>
    inr {| resp_candidates :=
             Some [ {| cand_parts :=
                         Some [ {| part_inlineData := None |};
                                {| part_inlineData :=
                                     Some {| inline_mimeType :=
                                               Some (lit "image/png");
                                             inline_data :=
                                               Some pixel_base64 |} |} ] |} ] |}.

Definition with_key : GeminiProvider :=
  {| gp_client := Some answering_client; gp_defaultModel := None |}.

(** A client whose service is out of quota. *)
Definition limited_client : GeminiClient :=
  fun _ => inl (ClientError (lit "429: rate limit exceeded")).

Definition limited : GeminiProvider :=
  {| gp_client := Some limited_client; gp_defaultModel := None |}.

Definition quota_error : ProviderError :=
  {| pe_message := lit "Gemini API error: 429: rate limit exceeded";
     pe_provider := lit "gemini"; pe_code := lit "API_ERROR";
     pe_isRetryable := true |}.

(** A mapping from the preset's aspect ratio to Gemini's. *)
Definition nearest_ratio (aspectRatio : JsString) : GeminiAspectRatio :=
  if jsstr_eqb aspectRatio (lit "1:1") then ratio_1_1
  else if jsstr_eqb aspectRatio (lit "9:16") then ratio_9_16
  else if jsstr_eqb aspectRatio (lit "4:3") then ratio_4_3
  else if jsstr_eqb aspectRatio (lit "3:4") then ratio_3_4
  else ratio_16_9.

(** The tool with the Gemini provider behind it. *)
Definition with_gemini : Collaborators :=
  collaborators (gemini_provider nearest_ratio with_key).

(** A little later in the same second. *)
Definition noon_later : DateTime :=
  {| dt_year := 2025; dt_month := 12; dt_day := 2; dt_hours := 12;
     dt_minutes := 0; dt_seconds := 0; dt_ms := 950 |}.

(** A world whose clock moves on within the second. *)
Definition ticking_world : World :=
  {| w_cwd := project; w_env_IMAGE_OUTPUT_DIR := None;
     w_clock := fun t => match t with O => noon | _ => noon_later end;
     w_tick := 0%nat; w_fs := disk;
     w_mkdir_error := fun _ => None; w_writeFile_error := fun _ => None;
     w_trace := [] |}.

(** The tool with a configured provider, and with one that has no key. *)
Definition configured : Collaborators := collaborators gemini.
Definition unconfigured : Collaborators := collaborators gemini_without_key.

(** Requests: to a file of the working directory, to a directory still to
    be made, and with no output path at all. *)
Definition to_file : GenerateImageInput :=
  request "ghost-banner" (Some (lit "pic")).
Definition to_file_linkedin : GenerateImageInput :=
  request "linkedin-post" (Some (lit "pic")).
Definition to_directory : GenerateImageInput :=
  request "ghost-banner" (Some (lit "out/")).
Definition by_default : GenerateImageInput := request "ghost-banner" None.

(** The provenance record of the tool for the answer, and the one-pixel
    PNG with its chunks. *)
Definition provenance : ImageMetadata :=
  build_metadata by_default answer noon.
Definition tagged_png : Buffer := spliced pixel_png 13 provenance.

End Scenario.

(* ================================================================== *)
(** * Part II: theorems *)
(* ================================================================== *)


Lemma Ok_inj {A} (a b : A) : Ok a = Ok b -> a = b.
Proof. intros H. injection H. trivial. Qed.

(** ** Words and big-endian fields *)

Lemma lxor_range32 (a b : Z) :
  0 <= a < 2 ^ 32 -> 0 <= b < 2 ^ 32 -> 0 <= Z.lxor a b < 2 ^ 32.
Proof.
  intros Ha Hb.
  assert (Hnn : 0 <= Z.lxor a b) by (apply Z.lxor_nonneg; lia).
  split; [exact Hnn|].
  destruct (Z.eq_dec (Z.lxor a b) 0) as [->|Hne]; [lia|].
  apply Z.log2_lt_pow2; [lia|].
  assert (Hla : Z.log2 a < 32).
  { destruct (Z.eq_dec a 0) as [->|]; [reflexivity|].
    apply Z.log2_lt_pow2; lia. }
  assert (Hlb : Z.log2 b < 32).
  { destruct (Z.eq_dec b 0) as [->|]; [reflexivity|].
    apply Z.log2_lt_pow2; lia. }
  pose proof (Z.log2_lxor a b (proj1 Ha) (proj1 Hb)). lia.
Qed.

Lemma shiftr1_range32 (c : Z) : 0 <= c < 2 ^ 32 -> 0 <= Z.shiftr c 1 < 2 ^ 32.
Proof.
  intros Hc. rewrite Z.shiftr_div_pow2 by lia.
  change (2 ^ 1) with 2. change (2 ^ 32) with 4294967296 in *.
  split; [apply Z.div_pos; lia|].
  apply Z.div_lt_upper_bound; lia.
Qed.

Lemma crc_step_range (c : Z) : 0 <= c < 2 ^ 32 -> 0 <= crc_step c < 2 ^ 32.
Proof.
  intros Hc. unfold crc_step.
  pose proof (shiftr1_range32 c Hc).
  destruct (Z.testbit c 0); [|assumption].
  apply lxor_range32; [|assumption].
  change (2 ^ 32) with 4294967296. lia.
Qed.

Lemma land255_range (b : Z) : 0 <= Z.land b 255 < 256.
Proof.
  change 255 with (Z.ones 8). rewrite Z.land_ones by lia.
  change (2 ^ 8) with 256. apply Z.mod_pos_bound. lia.
Qed.

Lemma crc_byte_range (crc b : Z) :
  0 <= crc < 2 ^ 32 -> 0 <= crc_byte crc b < 2 ^ 32.
Proof.
  intros Hc. unfold crc_byte.
  assert (H0 : 0 <= Z.lxor crc (Z.land b 255) < 2 ^ 32).
  { apply lxor_range32; [assumption|].
    pose proof (land255_range b). change (2 ^ 32) with 4294967296. lia. }
  generalize dependent (Z.lxor crc (Z.land b 255)). intros x Hx.
  cbn [Nat.iter nat_rect].
  do 8 apply crc_step_range. exact Hx.
Qed.

Lemma fold_crc_range (data : Buffer) (crc : Z) :
  0 <= crc < 2 ^ 32 -> 0 <= fold_left crc_byte data crc < 2 ^ 32.
Proof.
  revert crc. induction data as [|b data IH]; intros crc Hc; cbn [fold_left].
  - exact Hc.
  - apply IH, crc_byte_range, Hc.
Qed.

Lemma crc32_range (data : Buffer) : 0 <= crc32 data < 2 ^ 32.
Proof.
  unfold crc32. apply lxor_range32.
  - apply fold_crc_range. change (2 ^ 32) with 4294967296. lia.
  - change (2 ^ 32) with 4294967296. lia.
Qed.

(** The check value of CRC-32: the model agrees with [zlib] on the
    standard test vector. *)
Lemma crc32_check_value : crc32 (lit "123456789") = 0xCBF43926.
Proof. vm_compute. reflexivity. Qed.

Lemma to_uint32_crc32 (data : Buffer) : to_uint32 (crc32 data) = crc32 data.
Proof. unfold to_uint32. apply Z.mod_small, crc32_range. Qed.

Lemma u32be_length (v : Z) : length (u32be v) = 4%nat.
Proof. reflexivity. Qed.

Lemma writeUInt32BE_ok (v : Z) :
  0 <= v < 2 ^ 32 -> writeUInt32BE v = Ok (u32be v).
Proof.
  intros Hv. unfold writeUInt32BE.
  change (2 ^ 32) with 4294967296 in *.
  destruct (Z.leb_spec 0 v); [|lia].
  destruct (Z.leb_spec v (4294967296 - 1)); [reflexivity|lia].
Qed.

Lemma writeUInt32BE_inv (v : Z) (b : Buffer) :
  writeUInt32BE v = Ok b -> b = u32be v /\ 0 <= v < 2 ^ 32.
Proof.
  unfold writeUInt32BE. change (2 ^ 32) with 4294967296.
  destruct (Z.leb_spec 0 v); cbn [andb]; [|discriminate].
  destruct (Z.leb_spec v (4294967296 - 1)); [|discriminate].
  intros [= <-]. split; [reflexivity|lia].
Qed.

(** Reading back what [writeUInt32BE] stored. *)
Lemma readUInt32BE_u32be (pre post : Buffer) (v : Z) :
  0 <= v < 2 ^ 32 ->
  readUInt32BE (pre ++ u32be v ++ post) (buf_length pre) = Ok v.
Proof.
  intros Hv. unfold readUInt32BE, buf_length.
  rewrite Nat2Z.id, skipn_app, skipn_all, Nat.sub_diag.
  cbn [app skipn u32be]. f_equal.
  rewrite !Z.shiftr_div_pow2 by lia.
  change (2 ^ 32) with 4294967296 in *. change (2 ^ 24) with 16777216.
  change (2 ^ 16) with 65536. change (2 ^ 8) with 256.
  Z.div_mod_to_equations. lia.
Qed.


(** ** Encodings *)

Lemma buffer_from_latin1_length (s : JsString) :
  length (buffer_from_latin1 s) = length s.
Proof. apply length_map. Qed.

(** UTF-8 never needs more than three bytes per UTF-16 code unit. *)
Lemma buffer_from_utf8_length_pair (s : JsString) :
  (length (buffer_from_utf8 s) <= 3 * length s)%nat
  /\ forall c, (length (buffer_from_utf8 (c :: s)) <= 3 * length (c :: s))%nat.
Proof.
  induction s as [|d s [IH1 IH2]].
  - split; [cbn; lia|]. intros c. cbn.
    repeat match goal with |- context [if ?b then _ else _] => destruct b end;
      cbn; lia.
  - split; [apply IH2|]. intros c.
    specialize (IH2 d).
    cbn [buffer_from_utf8] in *.
    repeat match goal with
           | |- context [if ?b then _ else _] => destruct b
           end;
      rewrite ?length_app; cbn [length utf8_2 utf8_3 utf8_4 utf8_replacement] in *;
      lia.
Qed.

Lemma buffer_from_utf8_length (s : JsString) :
  (length (buffer_from_utf8 s) <= 3 * length s)%nat.
Proof. apply buffer_from_utf8_length_pair. Qed.

Lemma chunk_data_length (keyword value : JsString) :
  buf_length (chunk_data keyword value)
  = buf_length (buffer_from_latin1 keyword) + 1
    + buf_length (buffer_from_utf8 value).
Proof.
  unfold chunk_data, buf_length. rewrite !length_app. cbn [length]. lia.
Qed.

Lemma text_chunk_length (keyword value : JsString) :
  buf_length (text_chunk keyword value) = chunk_size keyword value.
Proof.
  unfold text_chunk, chunk_size.
  pose proof (chunk_data_length keyword value) as Hd.
  unfold buf_length in *. rewrite !length_app, !u32be_length.
  change (length tEXt) with 4%nat. lia.
Qed.

(** ** [createPngTextChunk] *)

Lemma createPngTextChunk_inv (keyword text : JsString) (chunk : Buffer) :
  createPngTextChunk keyword text = Ok chunk ->
  chunk = text_chunk (safe_keyword keyword) text
  /\ buf_length (chunk_data (safe_keyword keyword) text) < 2 ^ 32.
Proof.
  unfold createPngTextChunk, rbind, buf_concat. cbn [concat].
  rewrite !app_nil_r, to_uint32_crc32.
  fold (safe_keyword keyword).
  change (buffer_from_latin1 (safe_keyword keyword) ++ [0] ++ buffer_from_utf8 text)
    with (chunk_data (safe_keyword keyword) text).
  destruct (writeUInt32BE (buf_length _)) as [len|e] eqn:Hlen; [|discriminate].
  apply writeUInt32BE_inv in Hlen as [-> Hrange].
  rewrite (writeUInt32BE_ok _ (crc32_range _)).
  intros [= <-]. split; [reflexivity|lia].
Qed.

Lemma createPngTextChunk_ok (keyword text : JsString) :
  buf_length (chunk_data (safe_keyword keyword) text) < 2 ^ 32 ->
  createPngTextChunk keyword text = Ok (text_chunk (safe_keyword keyword) text).
Proof.
  intros Hlen.
  unfold createPngTextChunk, rbind, buf_concat. cbn [concat].
  rewrite !app_nil_r, to_uint32_crc32.
  fold (safe_keyword keyword).
  change (buffer_from_latin1 (safe_keyword keyword) ++ [0] ++ buffer_from_utf8 text)
    with (chunk_data (safe_keyword keyword) text).
  rewrite writeUInt32BE_ok by (unfold buf_length in *; lia).
  rewrite (writeUInt32BE_ok _ (crc32_range _)). reflexivity.
Qed.

(** A keyword of at most 79 code units and a value the engine can hold
    always fit the 32-bit length field. *)
Lemma chunk_data_fits (keyword value : JsString) :
  (length keyword <= 79)%nat -> js_string_ok value ->
  buf_length (chunk_data keyword value) < 2 ^ 32.
Proof.
  intros Hk Hv. rewrite chunk_data_length. unfold buf_length, js_string_ok in *.
  rewrite buffer_from_latin1_length.
  pose proof (buffer_from_utf8_length value).
  unfold MAX_STRING_LENGTH in Hv.
  change (2 ^ 29) with 536870912 in Hv. change (2 ^ 32) with 4294967296.
  lia.
Qed.

(** The nine keywords of the source are short and carry no outer white
    space: [slice(0, 79).trim()] leaves them as they are. *)
Lemma keywords_safe (k : string) :
  In k md_keywords ->
  safe_keyword (lit k) = lit k /\ (length (lit k) <= 79)%nat.
Proof.
  intros Hin. cbn [md_keywords In] in Hin.
  repeat destruct Hin as [<-|Hin]; try contradiction;
    (split; [vm_compute; reflexivity
            | apply Nat.leb_le; vm_compute; reflexivity]).
Qed.

Lemma push_if_present_inv (k : string) (field : option JsString)
    (chunks chunks' : list Buffer) :
  In k md_keywords ->
  push_if_present k field chunks = Ok chunks' ->
  chunks' = chunks ++ map chunk_of (present_field (k, field))
  /\ Forall fits (present_field (k, field)).
Proof.
  intros Hk. destruct (keywords_safe k Hk) as [Hsafe _].
  unfold push_if_present, present_field. cbn [fst snd].
  destruct field as [[|c s]|]; cbn [map];
    try (intros [= <-]; rewrite app_nil_r; split; [reflexivity|constructor]).
  unfold rbind.
  destruct (createPngTextChunk (lit k) (c :: s)) as [chunk|e] eqn:Hc;
    [|discriminate].
  apply createPngTextChunk_inv in Hc as [-> Hfit]. rewrite Hsafe in *.
  intros [= <-]. split; [reflexivity|].
  constructor; [exact Hfit|constructor].
Qed.

Lemma push_if_present_ok (k : string) (field : option JsString)
    (chunks : list Buffer) :
  In k md_keywords ->
  match field with Some s => js_string_ok s | None => True end ->
  push_if_present k field chunks
  = Ok (chunks ++ map chunk_of (present_field (k, field))).
Proof.
  intros Hk Hok. destruct (keywords_safe k Hk) as [Hsafe Hlen].
  unfold push_if_present, present_field. cbn [fst snd].
  destruct field as [[|c s]|]; cbn [map]; rewrite ?app_nil_r; try reflexivity.
  rewrite createPngTextChunk_ok; rewrite Hsafe.
  - reflexivity.
  - apply chunk_data_fits; assumption.
Qed.

Lemma tags_ok : js_string_ok (lit SOFTWARE_TAG) /\ js_string_ok (lit SOURCE_TAG).
Proof.
  split; unfold js_string_ok, MAX_STRING_LENGTH; apply Z.leb_le;
    vm_compute; reflexivity.
Qed.

Lemma push_chunk_ok (k text : string) (chunks : list Buffer) :
  In k md_keywords -> js_string_ok (lit text) ->
  push_chunk k text chunks = Ok (chunks ++ [chunk_of (lit k, lit text)]).
Proof.
  intros Hk Hok. destruct (keywords_safe k Hk) as [Hsafe Hlen].
  unfold push_chunk. rewrite createPngTextChunk_ok; rewrite Hsafe.
  - reflexivity.
  - apply chunk_data_fits; assumption.
Qed.

Lemma fixed_fields_fit : Forall fits fixed_fields.
Proof.
  destruct tags_ok as [H1 H2].
  repeat constructor; unfold fits; cbn [fst snd]; apply chunk_data_fits;
    try assumption; apply Nat.leb_le; vm_compute; reflexivity.
Qed.

Lemma signature_check (buf : Buffer) :
  has_png_signature buf ->
  buf_equals (buf_slice buf 0 PNG_SIGNATURE_LENGTH) expectedSig = true.
Proof.
  unfold has_png_signature, buf_equals. intros ->.
  destruct (list_eq_dec Z.eq_dec expectedSig expectedSig); congruence.
Qed.

Lemma signature_check_fails (buf : Buffer) :
  ~ has_png_signature buf ->
  buf_equals (buf_slice buf 0 PNG_SIGNATURE_LENGTH) expectedSig = false.
Proof.
  unfold has_png_signature, buf_equals. intros Hn.
  destruct (list_eq_dec Z.eq_dec _ expectedSig); [contradiction|reflexivity].
Qed.

Lemma synthesized_unfold (md : ImageMetadata) :
  map chunk_of (synthesized_fields md)
  = ((((((((([] ++ map chunk_of (present_field ("Description"%string, md_prompt md)))
     ++ map chunk_of (present_field ("AI-Model"%string, md_model md)))
     ++ map chunk_of (present_field ("AI-Provider"%string, md_provider md)))
     ++ map chunk_of (present_field ("Image-Format"%string, md_format md)))
     ++ map chunk_of (present_field ("AI-Style"%string, md_style md)))
     ++ map chunk_of (present_field ("Title"%string, md_title md)))
     ++ map chunk_of (present_field ("Creation-Time"%string, md_generatedAt md)))
     ++ [chunk_of (lit "Software", lit SOFTWARE_TAG)])
     ++ [chunk_of (lit "Source", lit SOURCE_TAG)]).
Proof.
  unfold synthesized_fields, provenance_fields, fixed_fields.
  cbn [flat_map]. rewrite !map_app. cbn [map app].
  rewrite <- !app_assoc. cbn [app]. reflexivity.
Qed.

(** Whenever the signature matches and [embedPngMetadata] returns, it
    returns the input with the synthesized chunks spliced in, and every
    chunk's data fits its length field. *)
Lemma embed_inv (buf : Buffer) (md : ImageMetadata) (out : Buffer) :
  has_png_signature buf ->
  embedPngMetadata buf md = Ok out ->
  exists ihdrLength,
    readUInt32BE buf PNG_SIGNATURE_LENGTH = Ok ihdrLength
    /\ out = spliced buf ihdrLength md
    /\ Forall fits (synthesized_fields md).
Proof.
  intros Hsig. unfold embedPngMetadata.
  rewrite (signature_check buf Hsig). cbn [negb].
  destruct (readUInt32BE buf PNG_SIGNATURE_LENGTH) as [L|e]; [|discriminate].
  unfold rbind at 1.
  repeat match goal with
  | |- rbind (push_if_present ?k ?f ?c) _ = Ok _ -> _ =>
      let H := fresh "H" in
      destruct (push_if_present k f c) as [?chunks|?e] eqn:H;
      [apply push_if_present_inv in H as [-> ?]; [|keyword_in];
       unfold rbind at 1
      |discriminate]
  end.
  rewrite push_chunk_ok by (try keyword_in; apply tags_ok).
  unfold rbind at 1.
  rewrite push_chunk_ok by (try keyword_in; apply tags_ok).
  unfold rbind at 1.
  intros Hout. apply Ok_inj in Hout. subst out.
  exists L. split; [reflexivity|]. split.
  - unfold spliced, buf_concat, ihdr_end. cbn [concat]. rewrite app_nil_r.
    rewrite synthesized_unfold. reflexivity.
  - unfold synthesized_fields, provenance_fields. cbn [flat_map].
    apply Forall_app; split; [|exact fixed_fields_fit].
    repeat (apply Forall_app; split; [assumption|]).
    constructor.
Qed.

(** With strings the engine can hold, the only exception is the read of
    the first chunk's length. *)
Lemma embed_ok (buf : Buffer) (md : ImageMetadata) (ihdrLength : Z) :
  has_png_signature buf ->
  readUInt32BE buf PNG_SIGNATURE_LENGTH = Ok ihdrLength ->
  metadata_ok md ->
  embedPngMetadata buf md = Ok (spliced buf ihdrLength md).
Proof.
  intros Hsig Hread Hmd. unfold embedPngMetadata.
  rewrite (signature_check buf Hsig), Hread. cbn [negb]. unfold rbind at 1.
  unfold metadata_ok, provenance_fields in Hmd.
  repeat match goal with
         | H : Forall _ (_ :: _) |- _ => inversion H; clear H; subst
         end.
  cbn [snd] in *.
  repeat (rewrite push_if_present_ok by (try keyword_in; assumption);
          unfold rbind at 1).
  rewrite push_chunk_ok by (try keyword_in; apply tags_ok).
  unfold rbind at 1.
  rewrite push_chunk_ok by (try keyword_in; apply tags_ok).
  unfold rbind at 1.
  unfold spliced, buf_concat, ihdr_end. cbn [concat]. rewrite app_nil_r.
  rewrite synthesized_unfold. reflexivity.
Qed.

(** ** Slices *)

Lemma buf_slice_0 (b : Buffer) (stop : Z) :
  buf_slice b 0 stop = firstn (Z.to_nat stop) b.
Proof.
  unfold buf_slice. change (Z.to_nat 0) with 0%nat.
  rewrite Nat.sub_0_r. reflexivity.
Qed.

Lemma buf_length_app (a b : Buffer) :
  buf_length (a ++ b) = buf_length a + buf_length b.
Proof. unfold buf_length. rewrite length_app. lia. Qed.

Lemma buf_length_nonneg (b : Buffer) : 0 <= buf_length b.
Proof. unfold buf_length. lia. Qed.

(** The middle of three pieces is the slice between their boundaries. *)
Lemma buf_slice_middle (a m b : Buffer) (start stop : Z) :
  start = buf_length a -> stop = buf_length a + buf_length m ->
  buf_slice (a ++ m ++ b) start stop = m.
Proof.
  intros -> ->. unfold buf_slice, buf_length.
  rewrite Nat2Z.id.
  replace (Z.to_nat (Z.of_nat (length a) + Z.of_nat (length m)) - length a)%nat
    with (length m) by lia.
  rewrite skipn_app, skipn_all, Nat.sub_diag. cbn [app skipn].
  rewrite firstn_app, firstn_all, Nat.sub_diag. cbn [firstn].
  apply app_nil_r.
Qed.

Lemma chunks_size_app (xs ys : list (JsString * JsString)) :
  chunks_size (xs ++ ys) = chunks_size xs + chunks_size ys.
Proof.
  induction xs as [|x xs IH].
  - reflexivity.
  - change (chunks_size ((x :: xs) ++ ys))
      with (chunk_size (fst x) (snd x) + chunks_size (xs ++ ys)).
    change (chunks_size (x :: xs))
      with (chunk_size (fst x) (snd x) + chunks_size xs).
    lia.
Qed.

Lemma chunks_length (fields : list (JsString * JsString)) :
  buf_length (concat (map chunk_of fields)) = chunks_size fields.
Proof.
  induction fields as [|kv fields IH].
  - reflexivity.
  - change (chunks_size (kv :: fields))
      with (chunk_size (fst kv) (snd kv) + chunks_size fields).
    cbn [map concat]. rewrite buf_length_app, IH.
    unfold chunk_of. rewrite text_chunk_length. reflexivity.
Qed.

Lemma chunk_size_pos (k v : JsString) : 13 <= chunk_size k v.
Proof.
  unfold chunk_size.
  pose proof (buf_length_nonneg (buffer_from_latin1 k)).
  pose proof (buf_length_nonneg (buffer_from_utf8 v)). lia.
Qed.

Lemma chunks_size_nonneg (fields : list (JsString * JsString)) :
  0 <= chunks_size fields.
Proof.
  induction fields as [|kv fields IH].
  - cbn. lia.
  - change (chunks_size (kv :: fields))
      with (chunk_size (fst kv) (snd kv) + chunks_size fields).
    pose proof (chunk_size_pos (fst kv) (snd kv)). lia.
Qed.

(** Two chunks at least are always synthesized. *)
Lemma synthesized_size_pos (md : ImageMetadata) :
  26 <= chunks_size (synthesized_fields md).
Proof.
  unfold synthesized_fields. rewrite chunks_size_app.
  pose proof (chunks_size_nonneg (flat_map present_field (provenance_fields md))).
  change (chunks_size fixed_fields)
    with (chunk_size (lit "Software") (lit SOFTWARE_TAG)
          + (chunk_size (lit "Source") (lit SOURCE_TAG) + 0)).
  pose proof (chunk_size_pos (lit "Software") (lit SOFTWARE_TAG)).
  pose proof (chunk_size_pos (lit "Source") (lit SOURCE_TAG)).
  lia.
Qed.

Lemma spliced_firstn_skipn (buf : Buffer) (ihdrLength : Z) (md : ImageMetadata) :
  spliced buf ihdrLength md
  = firstn (Z.to_nat (ihdr_end ihdrLength)) buf
    ++ concat (map chunk_of (synthesized_fields md))
    ++ skipn (Z.to_nat (ihdr_end ihdrLength)) buf.
Proof. unfold spliced, buf_slice_from. rewrite buf_slice_0. reflexivity. Qed.

Lemma spliced_length (buf : Buffer) (ihdrLength : Z) (md : ImageMetadata) :
  buf_length (spliced buf ihdrLength md)
  = buf_length buf + chunks_size (synthesized_fields md).
Proof.
  rewrite spliced_firstn_skipn, !buf_length_app, chunks_length.
  pose proof (firstn_skipn (Z.to_nat (ihdr_end ihdrLength)) buf) as H.
  apply (f_equal buf_length) in H. rewrite buf_length_app in H. lia.
Qed.

(** ** The codec: the claims *)

(** C1.  For a buffer that begins with the PNG signature and holds its
    whole first chunk, and a provenance record of strings the engine can
    hold, [embedPngMetadata] returns: the first [8 + 4 + 4 + ihdrLength + 4]
    bytes of the input, then one tEXt chunk per non-empty provenance field
    in the order Description, AI-Model, AI-Provider, Image-Format, AI-Style,
    Title, Creation-Time, then the Software and Source chunks, then the
    rest of the input.  The output is longer than the input by the sizes
    of the chunks, [12 + keyword bytes + 1 + value bytes] each, and every
    input byte is found again, before the splice point at its index and
    after it shifted by the length of the chunks. *)
Theorem embed_splices_provenance_chunks
    (buf : Buffer) (md : ImageMetadata) (ihdrLength : Z) :
  has_png_signature buf ->
  readUInt32BE buf PNG_SIGNATURE_LENGTH = Ok ihdrLength ->
  ihdr_end ihdrLength <= buf_length buf ->
  metadata_ok md ->
  exists out,
    embedPngMetadata buf md = Ok out
    /\ out = firstn (Z.to_nat (ihdr_end ihdrLength)) buf
             ++ concat (map chunk_of (synthesized_fields md))
             ++ skipn (Z.to_nat (ihdr_end ihdrLength)) buf
    /\ length (firstn (Z.to_nat (ihdr_end ihdrLength)) buf)
       = Z.to_nat (ihdr_end ihdrLength)
    /\ buf_length out = buf_length buf + chunks_size (synthesized_fields md)
    /\ (forall i, (i < Z.to_nat (ihdr_end ihdrLength))%nat ->
          nth_error out i = nth_error buf i)
    /\ (forall i, (Z.to_nat (ihdr_end ihdrLength) <= i)%nat ->
          nth_error out
            (i + length (concat (map chunk_of (synthesized_fields md))))
          = nth_error buf i).
Proof.
  intros Hsig Hread Hfit Hmd.
  exists (spliced buf ihdrLength md).
  assert (Hn : (Z.to_nat (ihdr_end ihdrLength) <= length buf)%nat)
    by (unfold buf_length in Hfit; lia).
  pose proof (firstn_length_le buf Hn) as Hpre.
  split; [apply embed_ok; assumption|].
  split; [apply spliced_firstn_skipn|].
  split; [exact Hpre|].
  split; [apply spliced_length|].
  rewrite spliced_firstn_skipn.
  generalize dependent (Z.to_nat (ihdr_end ihdrLength)). intros n Hn Hpre.
  generalize (concat (map chunk_of (synthesized_fields md))). intros chunks.
  split.
  - intros i Hi.
    rewrite nth_error_app1 by lia. rewrite nth_error_firstn.
    destruct (Nat.ltb_spec i n); [reflexivity|lia].
  - intros i Hi.
    rewrite nth_error_app2 by lia. rewrite nth_error_app2 by lia.
    rewrite nth_error_skipn. f_equal. lia.
Qed.

(** C3.  A buffer that does not begin with the eight bytes of the PNG
    signature, whatever its size, is returned as it is: [embedPngMetadata]
    returns the input and throws nothing. *)
Theorem embed_passes_other_buffers_through (buf : Buffer) (md : ImageMetadata) :
  ~ has_png_signature buf -> embedPngMetadata buf md = Ok buf.
Proof.
  intros Hsig. unfold embedPngMetadata.
  rewrite (signature_check_fails buf Hsig). reflexivity.
Qed.

(** C4.  In the output of [embedPngMetadata], each synthesized chunk is
    laid out as follows, at the offset that the prefix and the chunks
    before it take up: a four-byte big-endian length field that holds the
    byte length of the data alone (keyword bytes, one null byte, value
    bytes); the four type bytes [tEXt]; the data; and a four-byte
    big-endian field that holds the CRC-32 of the type bytes followed by
    the data bytes, as read back from the output itself. *)
Theorem embedded_chunk_fields
    (buf : Buffer) (md : ImageMetadata) (out : Buffer) (ihdrLength : Z)
    (before after : list (JsString * JsString)) (keyword value : JsString)
    (off n : Z) :
  has_png_signature buf ->
  embedPngMetadata buf md = Ok out ->
  readUInt32BE buf PNG_SIGNATURE_LENGTH = Ok ihdrLength ->
  synthesized_fields md = before ++ (keyword, value) :: after ->
  off = buf_length (buf_slice buf 0 (ihdr_end ihdrLength))
        + chunks_size before ->
  n = buf_length (buffer_from_latin1 keyword) + 1
      + buf_length (buffer_from_utf8 value) ->
  readUInt32BE out off = Ok n
  /\ buf_slice out (off + 4) (off + 8) = tEXt
  /\ buf_slice out (off + 8) (off + 8 + n)
     = buffer_from_latin1 keyword ++ [0] ++ buffer_from_utf8 value
  /\ readUInt32BE out (off + 8 + n)
     = Ok (crc32 (buf_slice out (off + 4) (off + 8 + n)))
  /\ 0 <= crc32 (buf_slice out (off + 4) (off + 8 + n)) < 2 ^ 32.
Proof.
  intros Hsig Hout Hread' Hsplit -> ->.
  destruct (embed_inv buf md out Hsig Hout) as (L & Hread & -> & Hfits).
  rewrite Hread' in Hread. apply Ok_inj in Hread. subst L.
  rename ihdrLength into L. rename keyword into k. rename value into v.
  rewrite <- chunk_data_length.
  unfold spliced. rewrite Hsplit in *. clear Hsplit.
  apply Forall_app in Hfits as [_ Hfits].
  apply Forall_inv in Hfits. unfold fits in Hfits. cbn [fst snd] in Hfits.
  rewrite map_app, concat_app. cbn [map concat].
  change (chunk_of (k, v))
    with (u32be (buf_length (chunk_data k v)) ++ tEXt ++ chunk_data k v
          ++ u32be (crc32 (tEXt ++ chunk_data k v))).
  fold (chunk_data k v).
  set (P := buf_slice buf 0 (ihdr_end L)).
  set (B := concat (map chunk_of before)).
  set (A := concat (map chunk_of after)).
  set (S := buf_slice_from buf (ihdr_end L)).
  set (data := chunk_data k v) in *.
  set (crc := crc32 (tEXt ++ data)).
  assert (HB : chunks_size before = buf_length B) by (symmetry; apply chunks_length).
  rewrite HB.
  pose proof (buf_length_nonneg data) as Hdata.
  assert (Htype : buf_slice
            (P ++ (B ++ (u32be (buf_length data) ++ tEXt ++ data ++ u32be crc) ++ A) ++ S)
            (buf_length P + buf_length B + 4)
            (buf_length P + buf_length B + 8) = tEXt).
  { replace (P ++ (B ++ (u32be (buf_length data) ++ tEXt ++ data ++ u32be crc) ++ A) ++ S)
      with ((P ++ B ++ u32be (buf_length data)) ++ tEXt ++ (data ++ u32be crc ++ A ++ S))
      by (rewrite <- !app_assoc; reflexivity).
    apply buf_slice_middle.
    - rewrite !buf_length_app. change (buf_length (u32be _)) with 4. lia.
    - rewrite !buf_length_app. change (buf_length (u32be _)) with 4.
      change (buf_length tEXt) with 4. lia. }
  assert (Hbody : buf_slice
            (P ++ (B ++ (u32be (buf_length data) ++ tEXt ++ data ++ u32be crc) ++ A) ++ S)
            (buf_length P + buf_length B + 4)
            (buf_length P + buf_length B + 8 + buf_length data) = tEXt ++ data).
  { replace (P ++ (B ++ (u32be (buf_length data) ++ tEXt ++ data ++ u32be crc) ++ A) ++ S)
      with ((P ++ B ++ u32be (buf_length data)) ++ (tEXt ++ data) ++ (u32be crc ++ A ++ S))
      by (rewrite <- !app_assoc; reflexivity).
    apply buf_slice_middle.
    - rewrite !buf_length_app. change (buf_length (u32be _)) with 4. lia.
    - rewrite !buf_length_app. change (buf_length (u32be _)) with 4.
      change (buf_length tEXt) with 4. lia. }
  rewrite Hbody. fold crc.
  split; [|split; [exact Htype|split; [|split]]].
  - replace (P ++ (B ++ (u32be (buf_length data) ++ tEXt ++ data ++ u32be crc) ++ A) ++ S)
      with ((P ++ B) ++ u32be (buf_length data) ++ (tEXt ++ data ++ u32be crc ++ A ++ S))
      by (rewrite <- !app_assoc; reflexivity).
    rewrite <- buf_length_app. apply readUInt32BE_u32be. lia.
  - replace (P ++ (B ++ (u32be (buf_length data) ++ tEXt ++ data ++ u32be crc) ++ A) ++ S)
      with ((P ++ B ++ u32be (buf_length data) ++ tEXt) ++ data ++ (u32be crc ++ A ++ S))
      by (rewrite <- !app_assoc; reflexivity).
    apply buf_slice_middle.
    + rewrite !buf_length_app. change (buf_length (u32be _)) with 4.
      change (buf_length tEXt) with 4. lia.
    + rewrite !buf_length_app. change (buf_length (u32be _)) with 4.
      change (buf_length tEXt) with 4. lia.
  - replace (P ++ (B ++ (u32be (buf_length data) ++ tEXt ++ data ++ u32be crc) ++ A) ++ S)
      with ((P ++ B ++ u32be (buf_length data) ++ tEXt ++ data) ++ u32be crc ++ (A ++ S))
      by (rewrite <- !app_assoc; reflexivity).
    replace (buf_length P + buf_length B + 8 + buf_length data)
      with (buf_length (P ++ B ++ u32be (buf_length data) ++ tEXt ++ data)).
    + apply readUInt32BE_u32be. apply crc32_range.
    + rewrite !buf_length_app. change (buf_length (u32be _)) with 4.
      change (buf_length tEXt) with 4. lia.
  - apply crc32_range.
Qed.

(** ** Truncated images *)

Lemma signature_length (buf : Buffer) :
  has_png_signature buf -> 8 <= buf_length buf.
Proof.
  unfold has_png_signature, buf_slice, PNG_SIGNATURE_LENGTH, buf_length.
  intros H. apply (f_equal (@length Z)) in H.
  rewrite length_firstn, length_skipn in H.
  change (length expectedSig) with 8%nat in H.
  change (Z.to_nat 8 - Z.to_nat 0)%nat with 8%nat in H.
  change (Z.to_nat 0) with 0%nat in H. lia.
Qed.

(** The error of the read at offset 8: the buffer has at least the eight
    bytes of the signature, so the message names the last offset that
    fits, the length less four. *)
Lemma embed_truncated (buf : Buffer) (md : ImageMetadata) :
  has_png_signature buf ->
  buf_length buf < 12 ->
  embedPngMetadata buf md
  = Throw (ERR_OUT_OF_RANGE (lit "offset")
             (lit ">= 0 and <= " ++ show_int (buf_length buf - 4)) 8).
Proof.
  intros Hsig Hlen. pose proof (signature_length buf Hsig) as Hmin.
  unfold embedPngMetadata. rewrite (signature_check buf Hsig). cbn [negb].
  unfold readUInt32BE, boundsError.
  destruct (Z.ltb_spec (buf_length buf - 4) 0) as [Hneg|_]; [lia|].
  unfold PNG_SIGNATURE_LENGTH, buf_length in *.
  change (Z.to_nat 8) with 8%nat.
  destruct (skipn 8 buf) as [|b0 [|b1 [|b2 [|b3 rest]]]] eqn:Hskip;
    try reflexivity.
  apply (f_equal (@length Z)) in Hskip. rewrite length_skipn in Hskip.
  cbn [length] in Hskip. lia.
Qed.

(** C10.  A buffer that begins with the PNG signature and is shorter than
    twelve bytes makes [embedPngMetadata] throw: the read of the first
    chunk's length at offset 8 is out of range.  The error is the
    [RangeError] that [readUInt32BE] raises for an offset beyond
    [length - 4], and its message names the offset, 8, and that bound.  No
    buffer is returned, the input least of all. *)
Theorem embed_throws_on_truncated_png (buf : Buffer) (md : ImageMetadata) :
  has_png_signature buf ->
  buf_length buf < 12 ->
  embedPngMetadata buf md
  = Throw (ERR_OUT_OF_RANGE (lit "offset")
             (lit ">= 0 and <= " ++ show_int (buf_length buf - 4)) 8)
  /\ (exists e, embedPngMetadata buf md = Throw e
                /\ err_name e = lit "RangeError")
  /\ forall out, embedPngMetadata buf md <> Ok out.
Proof.
  intros Hsig Hlen. pose proof (embed_truncated buf md Hsig Hlen) as H.
  split; [exact H|]. split.
  - eexists. split; [exact H|reflexivity].
  - intros out. rewrite H. discriminate.
Qed.

(** ** The world: saving *)

Lemma jsstr_eqb_refl (s : JsString) : jsstr_eqb s s = true.
Proof. unfold jsstr_eqb. destruct (list_eq_dec Z.eq_dec s s); congruence. Qed.


(** What [mkdir] followed by nothing else leaves behind, for the step of
    [saveImage] that makes sure the directory exists. *)
Lemma ensure_dir_cases (dir : JsString) (w : World) :
  (if negb (existsSync w dir) then mkdir_recursive dir w else resolved tt w)
  = (if existsSync w dir then (Ok tt, w)
     else match w_mkdir_error w dir with
          | Some e => (Throw e, log w (EvMkdir dir))
          | None =>
              (Ok tt,
               with_fs (log w (EvMkdir dir)) (fun p =>
                 if jsstr_eqb p dir || is_prefix (p ++ [Path.SLASH]) dir
                 then match w_fs w p with
                      | Some node => Some node
                      | None => Some FsDir
                      end
                 else w_fs w p))
          end).
Proof.
  unfold mkdir_recursive, resolved.
  destruct (existsSync w dir); cbn [negb]; [reflexivity|].
  cbn [log w_mkdir_error w_fs]. reflexivity.
Qed.

(** [saveImage], step by step. *)
Lemma saveImage_steps (base64Data outputPath mimeType : JsString)
    (metadata : option ImageMetadata) (w : World) :
  saveImage base64Data outputPath mimeType metadata w
  = match (if negb (existsSync (after_naming w outputPath)
                      (Path.dirname (target_path w outputPath mimeType)))
           then mkdir_recursive
                  (Path.dirname (target_path w outputPath mimeType))
                  (after_naming w outputPath)
           else resolved tt (after_naming w outputPath)) with
    | (Throw e, w1) => (Throw e, w1)
    | (Ok _, w1) =>
        match final_buffer base64Data mimeType metadata with
        | Throw e => (Throw e, w1)
        | Ok finalBuffer =>
            match writeFile (final_path w outputPath mimeType) finalBuffer w1 with
            | (Throw e, w2) => (Throw e, w2)
            | (Ok _, w2) => (Ok (final_path w outputPath mimeType), w2)
            end
        end
    end.
Proof.
  unfold saveImage, after_naming, final_path, target_path, final_buffer.
  fold (is_directory_path w outputPath).
  destruct (is_directory_path w outputPath);
    cbv beta iota zeta
      delta [await lift generateFilename new_Date resolved of_result];
    match goal with
    | |- context [if negb (existsSync ?w' ?d) then _ else _] =>
        destruct (if negb (existsSync w' d) then mkdir_recursive d w'
                  else (Ok tt, w')) as [[u|e] w1]
    end; try reflexivity;
    destruct metadata as [md|];
    repeat match goal with
    | |- context [if jsstr_eqb ?a ?b then _ else _] => destruct (jsstr_eqb a b)
    | |- context [embedPngMetadata ?a ?b] => destruct (embedPngMetadata a b)
    end; try reflexivity;
    match goal with
    | |- context [writeFile ?p ?b ?w'] =>
        destruct (writeFile p b w') as [[u'|e'] w2]
    end; reflexivity.
Qed.

Lemma writeFile_cases (path : JsString) (data : Buffer) (w : World) :
  writeFile path data w
  = match w_writeFile_error w path with
    | Some e => (Throw e, log w (EvWriteFile path data))
    | None =>
        (Ok tt,
         with_fs (log w (EvWriteFile path data)) (fun p =>
           if jsstr_eqb p path then Some (FsFile data) else w_fs w p))
    end.
Proof. reflexivity. Qed.

Lemma after_naming_trace (w : World) (outputPath : JsString) :
  w_trace (after_naming w outputPath) = w_trace w.
Proof. unfold after_naming. destruct (is_directory_path w outputPath); reflexivity. Qed.

Lemma after_naming_fs (w : World) (outputPath : JsString) :
  w_fs (after_naming w outputPath) = w_fs w.
Proof. unfold after_naming. destruct (is_directory_path w outputPath); reflexivity. Qed.

(** A successful [saveImage]: the path it returns, the bytes it wrote, the
    file it left and the calls it made. *)
Lemma saveImage_ok_inv (base64Data outputPath mimeType : JsString)
    (metadata : option ImageMetadata) (w w' : World) (savedPath : JsString) :
  saveImage base64Data outputPath mimeType metadata w = (Ok savedPath, w') ->
  savedPath = final_path w outputPath mimeType
  /\ exists finalBuffer,
       final_buffer base64Data mimeType metadata = Ok finalBuffer
       /\ w_fs w' savedPath = Some (FsFile finalBuffer)
       /\ exists made,
            w_trace w' = w_trace w ++ made ++ [EvWriteFile savedPath finalBuffer]
            /\ (made = []
                \/ made = [EvMkdir (Path.dirname
                                      (target_path w outputPath mimeType))]).
Proof.
  rewrite saveImage_steps, ensure_dir_cases.
  pose proof (after_naming_trace w outputPath) as Htrace.
  generalize dependent (after_naming w outputPath). intros w0 Htrace.
  generalize (Path.dirname (target_path w outputPath mimeType)). intros dir.
  generalize (final_path w outputPath mimeType). intros finalPath.
  destruct (existsSync w0 dir).
  - destruct (final_buffer base64Data mimeType metadata) as [buf|e];
      [|discriminate].
    rewrite writeFile_cases.
    destruct (w_writeFile_error w0 finalPath); [discriminate|].
    intros H. injection H as <- <-.
    split; [reflexivity|]. exists buf. split; [reflexivity|].
    split; [cbn [with_fs w_fs]; rewrite jsstr_eqb_refl; reflexivity|].
    exists []. split; [|left; reflexivity].
    cbn [with_fs log w_trace app]. rewrite Htrace. reflexivity.
  - destruct (w_mkdir_error w0 dir); [discriminate|].
    destruct (final_buffer base64Data mimeType metadata) as [buf|e];
      [|discriminate].
    rewrite writeFile_cases.
    cbn [with_fs log w_writeFile_error].
    destruct (w_writeFile_error w0 finalPath); [discriminate|].
    intros H. injection H as <- <-.
    split; [reflexivity|]. exists buf. split; [reflexivity|].
    split; [cbn [with_fs w_fs]; rewrite jsstr_eqb_refl; reflexivity|].
    exists [EvMkdir dir]. split; [|right; reflexivity].
    cbn [with_fs log w_trace]. rewrite Htrace, <- app_assoc. reflexivity.
Qed.

(** ** The tool: [executeGenerateImage] case by case *)

Lemma request_valid_cases (env : Collaborators) (input : GenerateImageInput) :
  request_valid env input = true ->
  pv_valid (validatePrompt env (in_prompt input)) = true
  /\ pathv_valid
       (if truthy (in_outputPath input)
        then validateOutputPath env (nullish (in_outputPath input) [])
        else {| pathv_valid := true; pathv_error := None |}) = true.
Proof.
  unfold request_valid. intros H. apply andb_prop in H as [H1 H2].
  split; [exact H1|]. destruct (truthy (in_outputPath input)); [exact H2|reflexivity].
Qed.

(** A request that passes the checks, names a known format and finds its
    provider configured goes to the provider, and on to [saveImage] when
    the provider answers. *)
Lemma execute_run (env : Collaborators) (input : GenerateImageInput)
    (w : World) (preset : PlatformPreset) :
  request_valid env input = true ->
  PLATFORM_PRESETS env (in_format input) = Some preset ->
  isConfigured (createProvider env (in_provider input)) = true ->
  executeGenerateImage env input w
  = match generateImage (createProvider env (in_provider input))
            (options_of env input preset) with
    | Throw e =>
        (failure "Image generation failed" (Some (safeErrorMessage env e)),
         log w (EvGenerateImage (options_of env input preset)))
    | Ok g =>
        match save_generated input g
                (log w (EvGenerateImage (options_of env input preset))) with
        | (Throw e, w') =>
            (failure "Failed to save image" (Some (safeErrorMessage env e)), w')
        | (Ok savedPath, w') => (success_result input preset g savedPath, w')
        end
    end.
Proof.
  intros Hvalid Hpreset Hconf.
  apply request_valid_cases in Hvalid as [Hprompt Hpath].
  unfold executeGenerateImage.
  rewrite Hprompt. cbn [negb]. rewrite Hpath. cbn [negb].
  rewrite Hpreset, Hconf. cbn [negb].
  unfold call_generateImage. fold (options_of env input preset).
  destruct (generateImage (createProvider env (in_provider input))
              (options_of env input preset)) as [g|e]; [|reflexivity].
  unfold save_generated, success_result.
  destruct (in_outputPath input) as [p|].
  - destruct (new_Date _) as [now w1].
    destruct (saveImage _ _ _ _ w1) as [[savedPath|e] w2]; [|reflexivity].
    destruct (reconcile preset g) as [[aw ah] warning]. reflexivity.
  - destruct (generateDefaultOutputPath _ _ _) as [p w0].
    destruct (new_Date _) as [now w1].
    destruct (saveImage _ _ _ _ w1) as [[savedPath|e] w2]; [|reflexivity].
    destruct (reconcile preset g) as [[aw ah] warning]. reflexivity.
Qed.

(** A request stopped before the provider is asked leaves the world as it
    was and fails. *)
Lemma execute_stops_early (env : Collaborators) (input : GenerateImageInput)
    (w : World) :
  request_valid env input = false
  \/ PLATFORM_PRESETS env (in_format input) = None
  \/ isConfigured (createProvider env (in_provider input)) = false ->
  snd (executeGenerateImage env input w) = w
  /\ res_success (fst (executeGenerateImage env input w)) = false.
Proof.
  intros Hstop. unfold executeGenerateImage.
  destruct (pv_valid (validatePrompt env (in_prompt input))) eqn:Hprompt;
    cbn [negb]; [|split; reflexivity].
  destruct (pathv_valid _) eqn:Hpath; cbn [negb]; [|split; reflexivity].
  destruct (PLATFORM_PRESETS env (in_format input)) as [preset|];
    [|split; reflexivity].
  destruct (isConfigured (createProvider env (in_provider input)));
    cbn [negb]; [|split; reflexivity].
  exfalso. destruct Hstop as [H|[H|H]]; try discriminate.
  unfold request_valid in H. rewrite Hprompt in H. cbn [andb] in H.
  destruct (truthy (in_outputPath input)); congruence.
Qed.

(** Every successful outcome comes from a provider answer and a saved
    file. *)
Lemma execute_success_inv (env : Collaborators) (input : GenerateImageInput)
    (w w' : World) (r : GenerateImageResult) :
  executeGenerateImage env input w = (r, w') ->
  res_success r = true ->
  exists preset g savedPath,
    request_valid env input = true
    /\ PLATFORM_PRESETS env (in_format input) = Some preset
    /\ isConfigured (createProvider env (in_provider input)) = true
    /\ generateImage (createProvider env (in_provider input))
         (options_of env input preset) = Ok g
    /\ save_generated input g
         (log w (EvGenerateImage (options_of env input preset)))
       = (Ok savedPath, w')
    /\ r = success_result input preset g savedPath.
Proof.
  intros Hrun Hsuccess.
  destruct (request_valid env input) eqn:Hvalid.
  2: { destruct (execute_stops_early env input w (or_introl Hvalid)) as [_ H].
       rewrite Hrun in H. cbn [fst] in H. congruence. }
  destruct (PLATFORM_PRESETS env (in_format input)) as [preset|] eqn:Hpreset.
  2: { destruct (execute_stops_early env input w (or_intror (or_introl Hpreset)))
         as [_ H].
       rewrite Hrun in H. cbn [fst] in H. congruence. }
  destruct (isConfigured (createProvider env (in_provider input))) eqn:Hconf.
  2: { destruct (execute_stops_early env input w (or_intror (or_intror Hconf)))
         as [_ H].
       rewrite Hrun in H. cbn [fst] in H. congruence. }
  rewrite (execute_run env input w preset Hvalid Hpreset Hconf) in Hrun.
  destruct (generateImage _ _) as [g|e] eqn:Hgen.
  2: { injection Hrun as <- _. discriminate Hsuccess. }
  destruct (save_generated _ _ _) as [[savedPath|e] w1] eqn:Hsave.
  2: { injection Hrun as <- _. discriminate Hsuccess. }
  injection Hrun as <- <-.
  exists preset, g, savedPath. repeat split; assumption || reflexivity.
Qed.

Lemma run_pair (env : Collaborators) (input : GenerateImageInput) (w : World) :
  executeGenerateImage env input w = (outcome env input w, world_after env input w).
Proof. unfold outcome, world_after. apply surjective_pairing. Qed.

(** A successful save on behalf of the tool: the bytes written are those
    of [final_buffer] for the provenance record built in that world. *)
Lemma save_generated_ok_inv (input : GenerateImageInput) (g : GeneratedImage)
    (w w' : World) (savedPath : JsString) :
  save_generated input g w = (Ok savedPath, w') ->
  exists finalBuffer,
    final_buffer (gi_base64Data g) (gi_mimeType g)
      (Some (metadata_in input g w)) = Ok finalBuffer
    /\ w_fs w' savedPath = Some (FsFile finalBuffer)
    /\ exists made,
         w_trace w' = w_trace w ++ made ++ [EvWriteFile savedPath finalBuffer]
         /\ (length made <= 1)%nat
         /\ forallb is_fs_mutation made = true.
Proof.
  unfold save_generated, metadata_in.
  destruct (in_outputPath input) as [p|];
    cbv beta iota zeta delta [generateDefaultOutputPath generateFilename new_Date];
    cbn [fst]; intros H;
    apply saveImage_ok_inv in H as (_ & buf & Hbuf & Hfs & made & Htrace & Hmade);
    exists buf; (split; [exact Hbuf|]); (split; [exact Hfs|]);
    exists made; (split; [exact Htrace|]);
    destruct Hmade as [->| ->]; split; cbn; try lia; reflexivity.
Qed.

(** ** The tool: the claims *)

(** C2 (as the code has it).  In every successful outcome the dimensions
    reported are the provider's actual ones where it gave them and the
    preset's otherwise, whether or not the preset's aspect ratio is native;
    the requested dimensions are the preset's.  A preset whose aspect ratio
    is not native always carries the native-mismatch warning; a native one
    carries the dimension-drift warning, which names both sizes, when the
    reported dimensions differ from the preset's, and no warning when they
    are equal.  Hence a warning is present exactly when the aspect ratio
    is not native or the reported dimensions differ from the preset's. *)
Theorem outcome_geometry (env : Collaborators) (input : GenerateImageInput)
    (w : World) :
  res_success (outcome env input w) = true ->
  exists preset g image,
    PLATFORM_PRESETS env (in_format input) = Some preset
    /\ generateImage (createProvider env (in_provider input))
         (options_of env input preset) = Ok g
    /\ res_image (outcome env input w) = Some image
    /\ dim_width (img_dimensions image) = nullish (gi_width g) (ps_width preset)
    /\ dim_height (img_dimensions image)
       = nullish (gi_height g) (ps_height preset)
    /\ dim_requestedWidth (img_dimensions image) = Some (ps_width preset)
    /\ dim_requestedHeight (img_dimensions image) = Some (ps_height preset)
    /\ (ps_nativeAspectRatio preset = false ->
        res_warning (outcome env input w)
        = Some (native_mismatch_warning preset))
    /\ (ps_nativeAspectRatio preset = true ->
        dim_width (img_dimensions image) <> ps_width preset
        \/ dim_height (img_dimensions image) <> ps_height preset ->
        res_warning (outcome env input w)
        = Some (dimension_drift_warning (dim_width (img_dimensions image))
                  (dim_height (img_dimensions image)) preset))
    /\ (ps_nativeAspectRatio preset = true ->
        dim_width (img_dimensions image) = ps_width preset ->
        dim_height (img_dimensions image) = ps_height preset ->
        res_warning (outcome env input w) = None)
    /\ (res_warning (outcome env input w) <> None
        <-> ps_nativeAspectRatio preset = false
            \/ dim_width (img_dimensions image) <> ps_width preset
            \/ dim_height (img_dimensions image) <> ps_height preset).
Proof.
  intros Hsuccess.
  destruct (execute_success_inv env input w _ _ (run_pair env input w) Hsuccess)
    as (preset & g & savedPath & _ & Hpreset & _ & Hgen & _ & Hr).
  rewrite Hr. clear Hr Hsuccess.
  unfold success_result, reconcile.
  set (aw := nullish (gi_width g) (ps_width preset)).
  set (ah := nullish (gi_height g) (ps_height preset)).
  exists preset, g.
  eexists. split; [exact Hpreset|]. split; [exact Hgen|].
  split; [cbn [res_image]; reflexivity|].
  cbn [img_dimensions dim_width dim_height dim_requestedWidth
       dim_requestedHeight res_warning].
  repeat (split; [reflexivity|]).
  destruct (ps_nativeAspectRatio preset); cbn [negb].
  - destruct (Z.eqb_spec aw (ps_width preset)) as [Hw|Hw];
      destruct (Z.eqb_spec ah (ps_height preset)) as [Hh|Hh]; cbn [negb orb];
      (split; [discriminate|]);
      (split; [intros _ Hd; try reflexivity; destruct Hd; contradiction|]);
      (split; [intros _ Hw' Hh'; try reflexivity; contradiction|]);
      split; try (intros _; tauto); try (intros _; discriminate);
      try (intros [H|[H|H]]; (discriminate || contradiction));
      intros H; exfalso; apply H; reflexivity.
  - split; [reflexivity|]. split; [discriminate|]. split; [discriminate|].
    split; [intros _; left; reflexivity|intros _; discriminate].
Qed.


(** C6 (as the code has it).  When the provider answers and the save that
    follows throws, the outcome is the failure whose message is
    [Failed to save image] and whose error is the sanitized text of the
    exception: no success, no image record, and a message other than that
    of a generation failure. *)
Theorem save_failure_outcome (env : Collaborators) (input : GenerateImageInput)
    (w : World) (preset : PlatformPreset) (g : GeneratedImage) (e : JsError) :
  request_valid env input = true ->
  PLATFORM_PRESETS env (in_format input) = Some preset ->
  isConfigured (createProvider env (in_provider input)) = true ->
  generateImage (createProvider env (in_provider input))
    (options_of env input preset) = Ok g ->
  fst (save_generated input g
         (log w (EvGenerateImage (options_of env input preset)))) = Throw e ->
  outcome env input w
  = failure "Failed to save image" (Some (safeErrorMessage env e))
  /\ res_success (outcome env input w) = false
  /\ res_image (outcome env input w) = None
  /\ res_message (outcome env input w) <> lit "Image generation failed"
  /\ world_after env input w
     = snd (save_generated input g
              (log w (EvGenerateImage (options_of env input preset)))).
Proof.
  intros Hvalid Hpreset Hconf Hgen Hsave.
  unfold outcome, world_after.
  rewrite (execute_run env input w preset Hvalid Hpreset Hconf), Hgen.
  destruct (save_generated _ _ _) as [[p|e'] w'].
  - discriminate Hsave.
  - cbn [fst snd] in *. injection Hsave as ->.
    repeat split. vm_compute. discriminate.
Qed.

(** C8.  When the provider of the request is not configured, the outcome
    is a failure and the world is left exactly as it was: the provider's
    [generateImage] is not called, no directory is made and no file is
    written.  For a request that passes validation and names a known
    format, the failure is the one of the not-configured kind. *)
Theorem unconfigured_provider_outcome (env : Collaborators)
    (input : GenerateImageInput) (w : World) :
  isConfigured (createProvider env (in_provider input)) = false ->
  res_success (outcome env input w) = false
  /\ world_after env input w = w
  /\ w_trace (world_after env input w) = w_trace w
  /\ (request_valid env input = true ->
      PLATFORM_PRESETS env (in_format input) <> None ->
      outcome env input w
      = failure "Provider not configured"
          (Some (in_provider input
                 ++ lit " provider requires API key. Set GOOGLE_API_KEY environment variable."))).
Proof.
  intros Hconf.
  destruct (execute_stops_early env input w (or_intror (or_intror Hconf)))
    as [Hw Hr].
  fold (world_after env input w) in Hw. fold (outcome env input w) in Hr.
  split; [exact Hr|]. split; [exact Hw|]. split; [rewrite Hw; reflexivity|].
  intros Hvalid Hpreset.
  apply request_valid_cases in Hvalid as [Hprompt Hpath].
  unfold outcome, executeGenerateImage.
  rewrite Hprompt. cbn [negb]. rewrite Hpath. cbn [negb].
  destruct (PLATFORM_PRESETS env (in_format input)); [|contradiction].
  rewrite Hconf. reflexivity.
Qed.

(** C9.  In every successful outcome the base64 data returned are those
    the provider answered with.  When the MIME type is [image/png] and the
    decoded data begin with the PNG signature, the file saved holds the
    decoded data with the synthesized chunks spliced in after the first
    chunk: it is longer than the decoded data by exactly the size of the
    chunks, and so differs from what the returned base64 data decode to. *)
Theorem returned_data_is_provider_data (env : Collaborators)
    (input : GenerateImageInput) (w : World) :
  res_success (outcome env input w) = true ->
  exists preset g image savedPath,
    PLATFORM_PRESETS env (in_format input) = Some preset
    /\ generateImage (createProvider env (in_provider input))
         (options_of env input preset) = Ok g
    /\ res_image (outcome env input w) = Some image
    /\ img_base64Data image = gi_base64Data g
    /\ img_savedTo image = Some savedPath
    /\ (gi_mimeType g = lit "image/png" ->
        has_png_signature (buffer_from_base64 (img_base64Data image)) ->
        exists ihdrLength content,
          readUInt32BE (buffer_from_base64 (img_base64Data image))
            PNG_SIGNATURE_LENGTH = Ok ihdrLength
          /\ w_fs (world_after env input w) savedPath = Some (FsFile content)
          /\ content
             = firstn (Z.to_nat (ihdr_end ihdrLength))
                 (buffer_from_base64 (img_base64Data image))
               ++ concat (map chunk_of
                            (synthesized_fields
                               (metadata_in input g
                                  (log w (EvGenerateImage
                                            (options_of env input preset))))))
               ++ skipn (Z.to_nat (ihdr_end ihdrLength))
                    (buffer_from_base64 (img_base64Data image))
          /\ buf_length content
             = buf_length (buffer_from_base64 (img_base64Data image))
               + chunks_size
                   (synthesized_fields
                      (metadata_in input g
                         (log w (EvGenerateImage
                                   (options_of env input preset)))))
          /\ buf_length (buffer_from_base64 (img_base64Data image))
             < buf_length content).
Proof.
  intros Hsuccess.
  destruct (execute_success_inv env input w _ _ (run_pair env input w) Hsuccess)
    as (preset & g & savedPath & _ & Hpreset & _ & Hgen & Hsave & Hr).
  rewrite Hr. clear Hr Hsuccess.
  unfold success_result.
  destruct (reconcile preset g) as [[aw ah] warning].
  exists preset, g. eexists. exists savedPath.
  split; [exact Hpreset|]. split; [exact Hgen|].
  split; [cbn [res_image]; reflexivity|].
  cbn [img_base64Data img_savedTo].
  split; [reflexivity|]. split; [reflexivity|].
  intros Hmime Hsig.
  apply save_generated_ok_inv in Hsave as (buf & Hbuf & Hfs & _).
  unfold final_buffer in Hbuf. rewrite Hmime, jsstr_eqb_refl in Hbuf.
  destruct (embed_inv _ _ _ Hsig Hbuf) as (L & Hread & -> & _).
  exists L. eexists. split; [exact Hread|]. split; [exact Hfs|].
  split; [apply spliced_firstn_skipn|].
  split; [apply spliced_length|].
  rewrite spliced_length.
  pose proof (synthesized_size_pos
                (metadata_in input g
                   (log w (EvGenerateImage (options_of env input preset))))).
  lia.
Qed.

(** ** The claims at work on the one-pixel PNG *)

Lemma embed_splices_provenance_chunks_witness :
  exists out,
    embedPngMetadata Scenario.pixel_png Scenario.provenance = Ok out
    /\ out = firstn (Z.to_nat (ihdr_end 13)) Scenario.pixel_png
             ++ concat (map chunk_of (synthesized_fields Scenario.provenance))
             ++ skipn (Z.to_nat (ihdr_end 13)) Scenario.pixel_png
    /\ length (firstn (Z.to_nat (ihdr_end 13)) Scenario.pixel_png)
       = Z.to_nat (ihdr_end 13)
    /\ buf_length out
       = buf_length Scenario.pixel_png
         + chunks_size (synthesized_fields Scenario.provenance)
    /\ (forall i, (i < Z.to_nat (ihdr_end 13))%nat ->
          nth_error out i = nth_error Scenario.pixel_png i)
    /\ (forall i, (Z.to_nat (ihdr_end 13) <= i)%nat ->
          nth_error out
            (i + length (concat (map chunk_of
                                   (synthesized_fields Scenario.provenance))))
          = nth_error Scenario.pixel_png i).
Proof.
  apply (embed_splices_provenance_chunks
           Scenario.pixel_png Scenario.provenance 13).
  - vm_compute. reflexivity.
  - vm_compute. reflexivity.
  - apply Z.leb_le. vm_compute. reflexivity.
  - unfold metadata_ok, provenance_fields.
    repeat (apply Forall_cons;
            [vm_compute; first [exact I | discriminate]|]).
    apply Forall_nil.
Defined.

Lemma embed_passes_other_buffers_through_witness :
  embedPngMetadata [255; 216; 255; 224] Scenario.provenance
  = Ok [255; 216; 255; 224].
Proof.
  apply embed_passes_other_buffers_through.
  vm_compute. discriminate.
Defined.

Lemma embedded_chunk_fields_witness :
  readUInt32BE Scenario.tagged_png 33 = Ok 18
  /\ buf_slice Scenario.tagged_png (33 + 4) (33 + 8) = tEXt
  /\ buf_slice Scenario.tagged_png (33 + 8) (33 + 8 + 18)
     = buffer_from_latin1 (lit "Description") ++ [0]
       ++ buffer_from_utf8 (lit "sunset")
  /\ readUInt32BE Scenario.tagged_png (33 + 8 + 18)
     = Ok (crc32 (buf_slice Scenario.tagged_png (33 + 4) (33 + 8 + 18)))
  /\ 0 <= crc32 (buf_slice Scenario.tagged_png (33 + 4) (33 + 8 + 18))
     < 2 ^ 32.
Proof.
  apply (embedded_chunk_fields Scenario.pixel_png Scenario.provenance
           Scenario.tagged_png 13 []
           (tl (synthesized_fields Scenario.provenance))
           (lit "Description") (lit "sunset") 33 18);
    vm_compute; reflexivity.
Defined.

Lemma embed_throws_on_truncated_png_witness :
  embedPngMetadata (expectedSig ++ [0; 0; 0]) Scenario.provenance
  = Throw (RangeError
             (lit "The value of " ++ QUOTE ++ lit "offset" ++ QUOTE
              ++ lit " is out of range. It must be >= 0 and <= 7. Received 8"))
  /\ forall out,
       embedPngMetadata (expectedSig ++ [0; 0; 0]) Scenario.provenance <> Ok out.
Proof.
  destruct (embed_throws_on_truncated_png (expectedSig ++ [0; 0; 0])
              Scenario.provenance) as (Hthrow & _ & Hnone).
  - vm_compute. reflexivity.
  - vm_compute. reflexivity.
  - split; [|exact Hnone]. rewrite Hthrow. vm_compute. reflexivity.
Defined.

(** ** The claims at work on a run of the tool *)

(** C2, the claim as worded fails: the LinkedIn preset (1200 by 628) has no
    native aspect ratio, the provider answers with 1536 by 864, and the
    outcome reports 1536 by 864, not the requested size. *)
Lemma non_native_preset_reports_actual_dimensions :
  ps_nativeAspectRatio Scenario.linkedin_post = false
  /\ PLATFORM_PRESETS Scenario.configured (in_format Scenario.to_file_linkedin)
     = Some Scenario.linkedin_post
  /\ exists image,
       res_image (outcome Scenario.configured Scenario.to_file_linkedin
                    Scenario.world) = Some image
       /\ dim_width (img_dimensions image) = 1536
       /\ dim_height (img_dimensions image) = 864
       /\ dim_requestedWidth (img_dimensions image) = Some 1200
       /\ dim_requestedHeight (img_dimensions image) = Some 628
       /\ res_warning (outcome Scenario.configured Scenario.to_file_linkedin
                         Scenario.world)
          = Some (native_mismatch_warning Scenario.linkedin_post).
Proof.
  split; [reflexivity|]. split; [vm_compute; reflexivity|].
  eexists. split; [vm_compute; reflexivity|].
  repeat split; vm_compute; reflexivity.
Qed.

Lemma outcome_geometry_witness :
  exists preset g image,
    PLATFORM_PRESETS Scenario.configured (in_format Scenario.to_file_linkedin)
    = Some preset
    /\ generateImage
         (createProvider Scenario.configured
            (in_provider Scenario.to_file_linkedin))
         (options_of Scenario.configured Scenario.to_file_linkedin preset)
       = Ok g
    /\ res_image (outcome Scenario.configured Scenario.to_file_linkedin
                    Scenario.world) = Some image
    /\ dim_width (img_dimensions image) = nullish (gi_width g) (ps_width preset)
    /\ dim_height (img_dimensions image)
       = nullish (gi_height g) (ps_height preset)
    /\ dim_requestedWidth (img_dimensions image) = Some (ps_width preset)
    /\ dim_requestedHeight (img_dimensions image) = Some (ps_height preset)
    /\ (ps_nativeAspectRatio preset = false ->
        res_warning (outcome Scenario.configured Scenario.to_file_linkedin
                       Scenario.world)
        = Some (native_mismatch_warning preset))
    /\ (ps_nativeAspectRatio preset = true ->
        dim_width (img_dimensions image) <> ps_width preset
        \/ dim_height (img_dimensions image) <> ps_height preset ->
        res_warning (outcome Scenario.configured Scenario.to_file_linkedin
                       Scenario.world)
        = Some (dimension_drift_warning (dim_width (img_dimensions image))
                  (dim_height (img_dimensions image)) preset))
    /\ (ps_nativeAspectRatio preset = true ->
        dim_width (img_dimensions image) = ps_width preset ->
        dim_height (img_dimensions image) = ps_height preset ->
        res_warning (outcome Scenario.configured Scenario.to_file_linkedin
                       Scenario.world) = None)
    /\ (res_warning (outcome Scenario.configured Scenario.to_file_linkedin
                       Scenario.world) <> None
        <-> ps_nativeAspectRatio preset = false
            \/ dim_width (img_dimensions image) <> ps_width preset
            \/ dim_height (img_dimensions image) <> ps_height preset).
Proof.
  apply outcome_geometry. vm_compute. reflexivity.
Defined.



(** C6, the claim as worded fails: the provider answers, the write is
    refused, and neither the message nor the error of the outcome says that
    an image was generated. *)
Lemma save_failure_text_is_silent_about_generation :
  map is_provider_call
    (w_trace (world_after Scenario.configured Scenario.to_file
                Scenario.readonly_world)) = [true; false]
  /\ res_success (outcome Scenario.configured Scenario.to_file
                    Scenario.readonly_world) = false
  /\ res_message (outcome Scenario.configured Scenario.to_file
                    Scenario.readonly_world) = lit "Failed to save image"
  /\ res_error (outcome Scenario.configured Scenario.to_file
                  Scenario.readonly_world)
     = Some (lit "EACCES: permission denied, open '/home/user/project/pic.png'")
  /\ includes (lit "Failed to save image") (lit "generated") = false
  /\ includes
       (lit "EACCES: permission denied, open '/home/user/project/pic.png'")
       (lit "generated") = false.
Proof. repeat split; vm_compute; reflexivity. Qed.

Lemma save_failure_outcome_witness :
  outcome Scenario.configured Scenario.to_file Scenario.readonly_world
  = failure "Failed to save image"
      (Some (safeErrorMessage Scenario.configured
               (Scenario.EACCES (lit "/home/user/project/pic.png"))))
  /\ res_success (outcome Scenario.configured Scenario.to_file
                    Scenario.readonly_world) = false
  /\ res_image (outcome Scenario.configured Scenario.to_file
                  Scenario.readonly_world) = None
  /\ res_message (outcome Scenario.configured Scenario.to_file
                    Scenario.readonly_world) <> lit "Image generation failed"
  /\ world_after Scenario.configured Scenario.to_file Scenario.readonly_world
     = snd (save_generated Scenario.to_file Scenario.answer
              (log Scenario.readonly_world
                 (EvGenerateImage
                    (options_of Scenario.configured Scenario.to_file
                       Scenario.ghost_banner)))).
Proof.
  apply (save_failure_outcome Scenario.configured Scenario.to_file
           Scenario.readonly_world Scenario.ghost_banner Scenario.answer
           (Scenario.EACCES (lit "/home/user/project/pic.png")));
    vm_compute; reflexivity.
Defined.

Lemma unconfigured_provider_outcome_witness :
  res_success (outcome Scenario.unconfigured Scenario.by_default
                 Scenario.world) = false
  /\ world_after Scenario.unconfigured Scenario.by_default Scenario.world
     = Scenario.world
  /\ w_trace (world_after Scenario.unconfigured Scenario.by_default
                Scenario.world) = w_trace Scenario.world
  /\ (request_valid Scenario.unconfigured Scenario.by_default = true ->
      PLATFORM_PRESETS Scenario.unconfigured (in_format Scenario.by_default)
      <> None ->
      outcome Scenario.unconfigured Scenario.by_default Scenario.world
      = failure "Provider not configured"
          (Some (in_provider Scenario.by_default
                 ++ lit " provider requires API key. Set GOOGLE_API_KEY environment variable."))).
Proof.
  apply unconfigured_provider_outcome. vm_compute. reflexivity.
Defined.

Lemma returned_data_is_provider_data_witness :
  exists preset g image savedPath,
    PLATFORM_PRESETS Scenario.configured (in_format Scenario.to_file)
    = Some preset
    /\ generateImage
         (createProvider Scenario.configured (in_provider Scenario.to_file))
         (options_of Scenario.configured Scenario.to_file preset) = Ok g
    /\ res_image (outcome Scenario.configured Scenario.to_file Scenario.world)
       = Some image
    /\ img_base64Data image = gi_base64Data g
    /\ img_savedTo image = Some savedPath
    /\ (gi_mimeType g = lit "image/png" ->
        has_png_signature (buffer_from_base64 (img_base64Data image)) ->
        exists ihdrLength content,
          readUInt32BE (buffer_from_base64 (img_base64Data image))
            PNG_SIGNATURE_LENGTH = Ok ihdrLength
          /\ w_fs (world_after Scenario.configured Scenario.to_file
                     Scenario.world) savedPath = Some (FsFile content)
          /\ content
             = firstn (Z.to_nat (ihdr_end ihdrLength))
                 (buffer_from_base64 (img_base64Data image))
               ++ concat (map chunk_of
                            (synthesized_fields
                               (metadata_in Scenario.to_file g
                                  (log Scenario.world
                                     (EvGenerateImage
                                        (options_of Scenario.configured
                                           Scenario.to_file preset))))))
               ++ skipn (Z.to_nat (ihdr_end ihdrLength))
                    (buffer_from_base64 (img_base64Data image))
          /\ buf_length content
             = buf_length (buffer_from_base64 (img_base64Data image))
               + chunks_size
                   (synthesized_fields
                      (metadata_in Scenario.to_file g
                         (log Scenario.world
                            (EvGenerateImage
                               (options_of Scenario.configured
                                  Scenario.to_file preset)))))
          /\ buf_length (buffer_from_base64 (img_base64Data image))
             < buf_length content).
Proof.
  apply returned_data_is_provider_data. vm_compute. reflexivity.
Defined.

(** ** Strings: scanning *)

Lemma jsstr_eqb_neq (a b : JsString) : a <> b -> jsstr_eqb a b = false.
Proof.
  unfold jsstr_eqb. destruct (list_eq_dec Z.eq_dec a b); congruence.
Qed.

Lemma Forall_firstn {A} (P : A -> Prop) (n : nat) (l : list A) :
  Forall P l -> Forall P (firstn n l).
Proof.
  revert n. induction l as [|x l IH]; intros [|n] H; cbn [firstn];
    try constructor.
  - exact (Forall_inv H).
  - apply IH. exact (Forall_inv_tail H).
Qed.

Lemma take_while_app_stop (f : Z -> bool) (a b : JsString) :
  Forall (fun c => f c = true) a ->
  (b = [] \/ exists c b', b = c :: b' /\ f c = false) ->
  Path.take_while f (a ++ b) = a.
Proof.
  intros Ha Hb. induction Ha as [|x a Hx Ha IH]; cbn [app Path.take_while].
  - destruct Hb as [->|(c & b' & -> & Hc)]; [reflexivity|].
    cbn [Path.take_while]. rewrite Hc. reflexivity.
  - rewrite Hx, IH. reflexivity.
Qed.

Lemma drop_while_app_stop (f : Z -> bool) (a b : JsString) :
  Forall (fun c => f c = true) a ->
  (b = [] \/ exists c b', b = c :: b' /\ f c = false) ->
  Path.drop_while f (a ++ b) = b.
Proof.
  intros Ha Hb. induction Ha as [|x a Hx Ha IH]; cbn [app Path.drop_while].
  - destruct Hb as [->|(c & b' & -> & Hc)]; [reflexivity|].
    cbn [Path.drop_while]. rewrite Hc. reflexivity.
  - rewrite Hx, IH. reflexivity.
Qed.

Lemma is_slash_false (c : Z) : c <> Path.SLASH -> Path.is_slash c = false.
Proof. intros H. unfold Path.is_slash. apply Z.eqb_neq. exact H. Qed.

Lemma is_dot_false (c : Z) : c <> Path.DOT -> Path.is_dot c = false.
Proof. intros H. unfold Path.is_dot. apply Z.eqb_neq. exact H. Qed.

Lemma no_char_app (x : Z) (a b : JsString) :
  no_char x (a ++ b) <-> no_char x a /\ no_char x b.
Proof. apply Forall_app. Qed.

(** ** The [path] module *)

Lemma split_nonempty (p : JsString) : Path.split p <> [].
Proof.
  destruct p as [|c p]; cbn [Path.split]; [discriminate|].
  destruct (Path.is_slash c); [discriminate|].
  destruct (Path.split p); discriminate.
Qed.

Lemma split_slash_free (f : JsString) :
  no_char Path.SLASH f -> Path.split f = [f].
Proof.
  induction 1 as [|c f Hc Hf IH]; cbn [Path.split]; [reflexivity|].
  rewrite (is_slash_false c Hc), IH. reflexivity.
Qed.

Lemma split_app (x y : JsString) :
  Path.split (x ++ Path.SLASH :: y) = Path.split x ++ Path.split y.
Proof.
  induction x as [|c x IH]; cbn [app Path.split].
  - change (Path.is_slash Path.SLASH) with true. reflexivity.
  - rewrite IH. destruct (Path.is_slash c); [reflexivity|].
    pose proof (split_nonempty x) as Hx.
    destruct (Path.split x); [contradiction|reflexivity].
Qed.

Lemma join_segments_snoc (l : list JsString) (f : JsString) :
  Path.join_segments (l ++ [f])
  = match l with
    | [] => f
    | _ => Path.join_segments l ++ Path.SLASH :: f
    end.
Proof.
  induction l as [|s l IH]; [reflexivity|].
  destruct l as [|s' l]; [reflexivity|].
  change (Path.join_segments ((s :: s' :: l) ++ [f]))
    with (s ++ Path.SLASH :: Path.join_segments ((s' :: l) ++ [f])).
  rewrite IH.
  change (Path.join_segments (s :: s' :: l))
    with (s ++ Path.SLASH :: Path.join_segments (s' :: l)).
  rewrite <- app_assoc. reflexivity.
Qed.

Lemma normalize_step_file (allowAboveRoot : bool) (stack : list JsString)
    (f : JsString) :
  file_name f -> Path.normalize_step allowAboveRoot stack f = f :: stack.
Proof.
  intros (Hne & _ & Hdot & Hdots). unfold Path.normalize_step.
  rewrite (jsstr_eqb_neq f [] Hne), (jsstr_eqb_neq f [Path.DOT] Hdot),
    (jsstr_eqb_neq f [Path.DOT; Path.DOT] Hdots).
  reflexivity.
Qed.

(** The reversed file name starts with a character that is no separator. *)
Lemma file_name_rev (f : JsString) :
  f <> [] -> no_char Path.SLASH f ->
  exists c r, rev f = c :: r /\ c <> Path.SLASH /\ no_char Path.SLASH (c :: r).
Proof.
  intros Hne Hf. apply Forall_rev in Hf.
  destruct (rev f) as [|c r] eqn:Hrev.
  - apply (f_equal (@rev Z)) in Hrev. rewrite rev_involutive in Hrev.
    contradiction.
  - exists c, r. split; [reflexivity|]. split; [exact (Forall_inv Hf)|exact Hf].
Qed.

Lemma rev_prefix_cases (prefix : JsString) :
  (prefix = [] \/ exists q, prefix = q ++ [Path.SLASH]) ->
  rev prefix = []
  \/ exists c b', rev prefix = c :: b' /\ Path.is_slash c = true.
Proof.
  intros [->|(q & ->)]; [left; reflexivity|right].
  rewrite rev_app_distr. cbn [rev app]. eexists. eexists.
  split; reflexivity.
Qed.

Lemma normalizeString_file (q f : JsString) (allowAboveRoot : bool) :
  (q = [] \/ exists q', q = q' ++ [Path.SLASH]) ->
  file_name f ->
  ends_in_file (Path.normalizeString (q ++ f) allowAboveRoot) f.
Proof.
  intros Hq Hf. pose proof Hf as (Hne & Hslash & _).
  unfold Path.normalizeString.
  assert (Hsplit : exists segs, Path.split (q ++ f) = segs ++ [f]).
  { destruct Hq as [->|(q' & ->)].
    - exists []. apply split_slash_free. exact Hslash.
    - exists (Path.split q'). rewrite <- app_assoc. cbn [app].
      rewrite split_app, (split_slash_free f Hslash). reflexivity. }
  destruct Hsplit as (segs & ->).
  rewrite fold_left_app. cbn [fold_left].
  rewrite (normalize_step_file _ _ f Hf). cbn [rev].
  rewrite join_segments_snoc.
  destruct (rev _) as [|s l].
  - exists []. split; [reflexivity|left; reflexivity].
  - exists (Path.join_segments (s :: l) ++ [Path.SLASH]).
    rewrite <- app_assoc. split; [reflexivity|].
    right. eexists. reflexivity.
Qed.

Lemma ends_with_slash_file (q f : JsString) :
  f <> [] -> no_char Path.SLASH f -> Path.ends_with_slash (q ++ f) = false.
Proof.
  intros Hne Hf. unfold Path.ends_with_slash. rewrite rev_app_distr.
  destruct (file_name_rev f Hne Hf) as (c & r & -> & Hc & _).
  cbn [app Path.starts_with_slash]. apply is_slash_false. exact Hc.
Qed.

Lemma normalize_file (q f : JsString) :
  (q = [] \/ exists q', q = q' ++ [Path.SLASH]) ->
  file_name f ->
  ends_in_file (Path.normalize (q ++ f)) f.
Proof.
  intros Hq Hf. pose proof Hf as (Hne & Hslash & _).
  unfold Path.normalize.
  destruct (q ++ f) as [|c0 p] eqn:Hp.
  { apply app_eq_nil in Hp as [_ Hp]. contradiction. }
  rewrite <- Hp. rewrite (ends_with_slash_file q f Hne Hslash).
  destruct (normalizeString_file q f (negb (Path.starts_with_slash (q ++ f)))
              Hq Hf) as (pre & Hpre & Hcases).
  rewrite Hpre.
  destruct (pre ++ f) as [|c1 p1] eqn:Hp1.
  { apply app_eq_nil in Hp1 as [_ Hp1]. contradiction. }
  rewrite <- Hp1.
  destruct (Path.starts_with_slash (q ++ f)).
  - exists (Path.SLASH :: pre). split; [reflexivity|]. right.
    destruct Hcases as [->|(x & ->)].
    + exists []. reflexivity.
    + exists (Path.SLASH :: x). reflexivity.
  - exists pre. split; [reflexivity|exact Hcases].
Qed.

(** [path.join(a, f)] ends in the file name [f]. *)
Lemma join_file (a f : JsString) :
  file_name f -> ends_in_file (Path.join a f) f.
Proof.
  intros Hf. pose proof Hf as (Hne & _).
  unfold Path.join. destruct a as [|c a]; destruct f as [|d f];
    try contradiction.
  - apply (normalize_file [] (d :: f)); [left; reflexivity|exact Hf].
  - replace ((c :: a) ++ Path.SLASH :: d :: f)
      with (((c :: a) ++ [Path.SLASH]) ++ d :: f)
      by (rewrite <- app_assoc; reflexivity).
    apply normalize_file; [right; eexists; reflexivity|exact Hf].
Qed.

Lemma last_component_file (p f : JsString) :
  ends_in_file p f -> f <> [] -> no_char Path.SLASH f ->
  Path.last_component p = f.
Proof.
  intros (prefix & -> & Hprefix) Hne Hf. unfold Path.last_component.
  rewrite rev_app_distr.
  destruct (file_name_rev f Hne Hf) as (c & r & Hrev & Hc & Hcr).
  rewrite Hrev. cbn [app Path.drop_while].
  rewrite (is_slash_false c Hc).
  change (c :: r ++ rev prefix) with ((c :: r) ++ rev prefix).
  rewrite take_while_app_stop.
  - rewrite <- Hrev. apply rev_involutive.
  - eapply Forall_impl; [|exact Hcr]. intros x Hx. cbv beta.
    rewrite (is_slash_false x Hx). reflexivity.
  - destruct (rev_prefix_cases prefix Hprefix) as [->|(c' & b' & -> & Hc')];
      [left; reflexivity|right].
    exists c', b'. split; [reflexivity|]. rewrite Hc'. reflexivity.
Qed.

(** The extension of a path that ends in [name.e]. *)
Lemma extname_file (p name e : JsString) :
  ends_in_file p (name ++ Path.DOT :: e) ->
  name <> [] -> e <> [] ->
  no_char Path.SLASH name -> no_char Path.SLASH e -> no_char Path.DOT e ->
  Path.extname p = Path.DOT :: e.
Proof.
  intros Hp Hname He Hsn Hse Hde.
  unfold Path.extname.
  rewrite (last_component_file p (name ++ Path.DOT :: e) Hp).
  2: { destruct name; [contradiction|discriminate]. }
  2: { apply no_char_app. split; [exact Hsn|].
       constructor; [discriminate|exact Hse]. }
  rewrite rev_app_distr. cbn [rev]. rewrite <- app_assoc. cbn [app].
  assert (Hrev : Forall (fun c => negb (Path.is_dot c) = true) (rev e)).
  { apply Forall_rev. eapply Forall_impl; [|exact Hde].
    intros x Hx. cbv beta. rewrite (is_dot_false x Hx). reflexivity. }
  assert (Hstop : Path.DOT :: rev name = []
                  \/ exists c b', Path.DOT :: rev name = c :: b'
                                  /\ negb (Path.is_dot c) = false).
  { right. exists Path.DOT, (rev name). split; reflexivity. }
  rewrite (take_while_app_stop _ _ _ Hrev Hstop),
    (drop_while_app_stop _ _ _ Hrev Hstop).
  destruct (rev name) as [|c r] eqn:Hrn.
  { apply (f_equal (@rev Z)) in Hrn. rewrite rev_involutive in Hrn.
    contradiction. }
  rewrite jsstr_eqb_neq.
  - rewrite rev_involutive. reflexivity.
  - destruct name as [|n0 name]; [contradiction|].
    destruct e as [|e0 e]; [contradiction|].
    intros H. apply (f_equal (@length Z)) in H.
    rewrite length_app in H. cbn [length] in H. lia.
Qed.

(** ** Dates and file names *)

Lemma string_of_uint_digits (d : Decimal.uint) :
  Forall (fun c => 48 <= c <= 57) (lit (NilEmpty.string_of_uint d)).
Proof.
  induction d; cbn [NilEmpty.string_of_uint];
    try (change (lit (String ?a ?s)) with (Z.of_N (N_of_ascii a) :: lit s));
    constructor; try assumption; vm_compute; split; discriminate.
Qed.

Lemma decimal_digits (n : N) : Forall (fun c => 48 <= c <= 57) (decimal n).
Proof.
  unfold decimal, NilZero.string_of_uint.
  destruct (N.to_uint n) eqn:Hd; try (rewrite <- Hd; apply string_of_uint_digits).
  repeat constructor; vm_compute; discriminate.
Qed.

Lemma pad_start_digits (width : nat) (s : JsString) :
  Forall (fun c => 48 <= c <= 57) s ->
  Forall (fun c => 48 <= c <= 57) (pad_start width s).
Proof.
  intros Hs. unfold pad_start. apply Forall_app. split; [|exact Hs].
  apply Forall_forall. intros x Hx. apply repeat_spec in Hx. subst x. cbv beta. lia.
Qed.


Lemma digits_no_slash (s : JsString) :
  Forall (fun c => 48 <= c <= 57) s -> no_char Path.SLASH s.
Proof.
  intros Hs. eapply Forall_impl; [|exact Hs].
  intros c Hc. cbv beta in *. unfold Path.SLASH. lia.
Qed.

Lemma padded_no_slash (width : nat) (n : N) :
  no_char Path.SLASH (pad_start width (decimal n)).
Proof. apply digits_no_slash, pad_start_digits, decimal_digits. Qed.

Lemma iso_year_no_slash (y : Z) : no_char Path.SLASH (iso_year y).
Proof.
  unfold iso_year. destruct ((0 <=? y) && (y <=? 9999)).
  - apply padded_no_slash.
  - apply no_char_app. split; [|apply padded_no_slash].
    destruct (y <? 0); repeat constructor; vm_compute; discriminate.
Qed.


Lemma toISOString_no_slash (d : DateTime) : no_char Path.SLASH (toISOString d).
Proof.
  unfold toISOString, no_char. rewrite !Forall_app.
  repeat split;
    try apply iso_year_no_slash; try apply padded_no_slash;
    repeat constructor; vm_compute; discriminate.
Qed.



Lemma filename_timestamp_no_slash (now : DateTime) :
  no_char Path.SLASH (filename_timestamp now).
Proof.
  unfold filename_timestamp, str_slice0, replace_colon_dot.
  apply Forall_firstn. apply Forall_map.
  eapply Forall_impl; [|apply toISOString_no_slash].
  intros c Hc. cbv beta.
  destruct ((c =? 58) || (c =? 46)); [discriminate|exact Hc].
Qed.

Lemma filename_timestamp_no_dot (now : DateTime) :
  no_char Path.DOT (filename_timestamp now).
Proof.
  unfold filename_timestamp, str_slice0, replace_colon_dot.
  apply Forall_firstn. apply Forall_map. apply Forall_forall.
  intros c _. cbv beta.
  destruct (Z.eqb_spec c 58); cbn [orb]; [discriminate|].
  destruct (Z.eqb_spec c 46); [discriminate|assumption].
Qed.

(** ** Extensions *)

Lemma no_char_check (x : Z) (s : JsString) :
  forallb (fun c => negb (c =? x)) s = true -> no_char x s.
Proof.
  intros H. apply Forall_forall. intros c Hc.
  rewrite forallb_forall in H. specialize (H c Hc). cbv beta in H.
  destruct (Z.eqb_spec c x); [discriminate|assumption].
Qed.

(** A MIME type under which the table inherits nothing has one of the
    four extensions. *)
Lemma extension_cases (mimeType : JsString) :
  inherited mimeType = None ->
  exists ext,
    getExtensionFromMimeType mimeType = JsStr ext
    /\ In ext [lit ".png"; lit ".jpg"; lit ".webp"; lit ".gif"].
Proof.
  intros Hplain. unfold getExtensionFromMimeType. rewrite Hplain.
  unfold mimeToExt. cbn [record_get].
  repeat match goal with
         | |- context [if jsstr_eqb ?a ?b then _ else _] =>
             destruct (jsstr_eqb a b)
         end; eexists; (split; [reflexivity|]); cbn [In]; tauto.
Qed.




(** An extension is a dot followed by letters. *)
Lemma extension_shape (mimeType : JsString) :
  inherited mimeType = None ->
  exists e, to_js_string (getExtensionFromMimeType mimeType) = Path.DOT :: e
            /\ e <> [] /\ no_char Path.SLASH e /\ no_char Path.DOT e.
Proof.
  intros Hplain.
  destruct (extension_cases mimeType Hplain) as (ext & -> & H).
  cbn [In] in H. cbn [to_js_string].
  destruct H as [<-|[<-|[<-|[<-|[]]]]];
    eexists; (split; [vm_compute; reflexivity|]);
    (split; [discriminate|]);
    split; repeat constructor; vm_compute; discriminate.
Qed.

(** Whatever the MIME type, the text put after the timestamp is not empty
    and holds no slash. *)
Lemma extension_text_tame (mimeType : JsString) :
  to_js_string (getExtensionFromMimeType mimeType) <> []
  /\ no_char Path.SLASH (to_js_string (getExtensionFromMimeType mimeType)).
Proof.
  unfold getExtensionFromMimeType, inherited, mimeToExt, Object_prototype.
  cbn [record_get].
  repeat match goal with
         | |- context [if jsstr_eqb ?a ?b then _ else _] =>
             destruct (jsstr_eqb a b)
         end;
    (split; [vm_compute; discriminate
            |apply no_char_check; vm_compute; reflexivity]).
Qed.

(** The generated file name is a usable one, whatever the MIME type. *)
Lemma generated_name_is_file (now : DateTime) (mimeType : JsString) :
  file_name (filename_at now (lit "blog-image") mimeType).
Proof.
  destruct (extension_text_tame mimeType) as [Hne Hslash].
  unfold filename_at.
  set (text := to_js_string (getExtensionFromMimeType mimeType)) in *.
  unfold file_name. split; [|split; [|split]].
  - intros H. apply (f_equal (@length Z)) in H.
    rewrite !length_app in H. cbn [length] in H.
    change (length (lit "blog-image")) with 10%nat in H.
    change (length (lit "-")) with 1%nat in H. lia.
  - unfold no_char. rewrite !Forall_app.
    split; [apply no_char_check; vm_compute; reflexivity|].
    split; [apply no_char_check; vm_compute; reflexivity|].
    split; [apply filename_timestamp_no_slash|exact Hslash].
  - intros H. apply (f_equal (@length Z)) in H.
    rewrite !length_app in H.
    change (length (lit "blog-image")) with 10%nat in H.
    cbn [length] in H. lia.
  - intros H. apply (f_equal (@length Z)) in H.
    rewrite !length_app in H.
    change (length (lit "blog-image")) with 10%nat in H.
    cbn [length] in H. lia.
Qed.

(** Under a MIME type that inherits nothing the name ends in the
    extension. *)
Lemma filename_at_shape (now : DateTime) (mimeType : JsString) :
  inherited mimeType = None ->
  exists e,
    to_js_string (getExtensionFromMimeType mimeType) = Path.DOT :: e
    /\ filename_at now (lit "blog-image") mimeType
       = (lit "blog-image-" ++ filename_timestamp now) ++ Path.DOT :: e
    /\ e <> [] /\ no_char Path.SLASH e /\ no_char Path.DOT e
    /\ no_char Path.SLASH (lit "blog-image-" ++ filename_timestamp now)
    /\ file_name (filename_at now (lit "blog-image") mimeType).
Proof.
  intros Hplain.
  destruct (extension_shape mimeType Hplain) as (e & Hext & Hne & Hse & Hde).
  assert (Hname : no_char Path.SLASH (lit "blog-image-" ++ filename_timestamp now)).
  { apply no_char_app. split; [|apply filename_timestamp_no_slash].
    repeat constructor; vm_compute; discriminate. }
  assert (Heq : filename_at now (lit "blog-image") mimeType
                = (lit "blog-image-" ++ filename_timestamp now) ++ Path.DOT :: e).
  { unfold filename_at. rewrite Hext. rewrite <- app_assoc. reflexivity. }
  exists e. split; [exact Hext|]. split; [exact Heq|].
  split; [exact Hne|]. split; [exact Hse|]. split; [exact Hde|].
  split; [exact Hname|]. apply generated_name_is_file.
Qed.

(** ** Saving: the path *)


(** Under a directory the extension is looked for in the joined path. *)
Lemma final_path_under_directory (w : World) (outputPath mimeType : JsString) :
  is_directory_path w outputPath = true ->
  final_path w outputPath mimeType
  = if is_empty
         (Path.extname
            (Path.join (Path.resolve (w_cwd w) outputPath)
               (filename_at (w_clock w (w_tick w)) (lit "blog-image")
                  mimeType)))
    then Path.join (Path.resolve (w_cwd w) outputPath)
           (filename_at (w_clock w (w_tick w)) (lit "blog-image") mimeType)
         ++ to_js_string (getExtensionFromMimeType mimeType)
    else Path.join (Path.resolve (w_cwd w) outputPath)
           (filename_at (w_clock w (w_tick w)) (lit "blog-image") mimeType).
Proof.
  intros Hdir. unfold final_path, target_path. rewrite Hdir. reflexivity.
Qed.

(** Under a directory, and a MIME type that inherits nothing, the path is
    the generated file name, joined. *)
Lemma final_path_directory (w : World) (outputPath mimeType : JsString) :
  is_directory_path w outputPath = true ->
  inherited mimeType = None ->
  final_path w outputPath mimeType
  = Path.join (Path.resolve (w_cwd w) outputPath)
      (filename_at (w_clock w (w_tick w)) (lit "blog-image") mimeType)
  /\ ends_in_file (final_path w outputPath mimeType)
       (filename_at (w_clock w (w_tick w)) (lit "blog-image") mimeType)
  /\ Path.extname (final_path w outputPath mimeType)
     = to_js_string (getExtensionFromMimeType mimeType).
Proof.
  intros Hdir Hplain.
  destruct (filename_at_shape (w_clock w (w_tick w)) mimeType Hplain)
    as (e & Hext & Heq & Hne & Hse & Hde & Hname & Hfile).
  pose proof (join_file (Path.resolve (w_cwd w) outputPath) _ Hfile) as Hends.
  assert (Hextname :
            Path.extname
              (Path.join (Path.resolve (w_cwd w) outputPath)
                 (filename_at (w_clock w (w_tick w)) (lit "blog-image") mimeType))
            = Path.DOT :: e).
  { apply (extname_file _ (lit "blog-image-"
                           ++ filename_timestamp (w_clock w (w_tick w))) e);
      try assumption.
    - rewrite <- Heq. exact Hends.
    - intros H. apply app_eq_nil in H as [H _]. discriminate H. }
  unfold final_path, target_path. rewrite Hdir, Hextname. cbn [is_empty].
  split; [reflexivity|]. split; [exact Hends|]. rewrite Hext. exact Hextname.
Qed.




(** ** Effects of saving *)

(** Whatever [saveImage] settles with, it has called [mkdir] at most once,
    then [writeFile] at most once, and nothing else. *)
Lemma saveImage_trace (base64Data outputPath mimeType : JsString)
    (metadata : option ImageMetadata) (w : World) :
  exists evs,
    w_trace (snd (saveImage base64Data outputPath mimeType metadata w))
    = w_trace w ++ evs
    /\ save_shape evs = true.
Proof.
  rewrite saveImage_steps, ensure_dir_cases.
  pose proof (after_naming_trace w outputPath) as Htrace.
  generalize dependent (after_naming w outputPath). intros w0 Htrace.
  generalize (Path.dirname (target_path w outputPath mimeType)). intros dir.
  generalize (final_path w outputPath mimeType). intros finalPath.
  destruct (existsSync w0 dir); [|destruct (w_mkdir_error w0 dir)];
    try (exists [EvMkdir dir]; cbn [snd log w_trace]; rewrite Htrace;
         split; reflexivity);
    destruct (final_buffer base64Data mimeType metadata) as [buf|e];
    try (exists []; cbn [snd]; rewrite app_nil_r, Htrace; split; reflexivity);
    try (exists [EvMkdir dir]; cbn [snd with_fs log w_trace]; rewrite Htrace;
         split; reflexivity);
    rewrite writeFile_cases; cbn [with_fs log w_writeFile_error];
    destruct (w_writeFile_error w0 finalPath);
    try (exists [EvWriteFile finalPath buf]; cbn [snd with_fs log w_trace];
         rewrite Htrace; split; reflexivity);
    exists [EvMkdir dir; EvWriteFile finalPath buf];
    cbn [snd with_fs log w_trace]; rewrite Htrace, <- app_assoc;
    split; reflexivity.
Qed.

Lemma save_generated_trace (input : GenerateImageInput) (g : GeneratedImage)
    (w : World) :
  exists evs,
    w_trace (snd (save_generated input g w)) = w_trace w ++ evs
    /\ save_shape evs = true.
Proof.
  unfold save_generated.
  destruct (in_outputPath input) as [p|];
    cbv beta iota zeta delta [generateDefaultOutputPath generateFilename new_Date];
    match goal with
    | |- context [saveImage ?b ?p ?m ?md ?w0] =>
        destruct (saveImage_trace b p m md w0) as (evs & Hevs & Hshape)
    end;
    exists evs; (split; [rewrite Hevs; reflexivity|exact Hshape]).
Qed.

(** The outcome of a run is one of seven. *)
Lemma outcome_cases (env : Collaborators) (input : GenerateImageInput)
    (w : World) :
  (exists preset g savedPath,
     outcome env input w = success_result input preset g savedPath)
  \/ exists message error,
       outcome env input w = failure message error
       /\ In (lit message) failure_messages.
Proof.
  unfold outcome, executeGenerateImage.
  destruct (pv_valid (validatePrompt env (in_prompt input))); cbn [negb].
  2: { right. eexists. eexists. split; [reflexivity|].
       unfold failure_messages. cbn [In]. tauto. }
  destruct (pathv_valid _); cbn [negb].
  2: { right. eexists. eexists. split; [reflexivity|].
       unfold failure_messages. cbn [In]. tauto. }
  destruct (PLATFORM_PRESETS env (in_format input)) as [preset|].
  2: { right. eexists. eexists. split; [reflexivity|].
       unfold failure_messages. cbn [In]. tauto. }
  destruct (isConfigured (createProvider env (in_provider input))); cbn [negb].
  2: { right. eexists. eexists. split; [reflexivity|].
       unfold failure_messages. cbn [In]. tauto. }
  unfold call_generateImage.
  destruct (generateImage _ _) as [g|e].
  2: { right. eexists. eexists. split; [reflexivity|].
       unfold failure_messages. cbn [In]. tauto. }
  destruct (match in_outputPath input with
            | Some p => _
            | None => _
            end) as [outputPath w0].
  destruct (new_Date w0) as [now w1].
  destruct (saveImage _ _ _ _ w1) as [[savedPath|e] w2].
  2: { right. eexists. eexists. split; [reflexivity|].
       unfold failure_messages. cbn [In]. tauto. }
  left. exists preset, g, savedPath. unfold success_result.
  destruct (reconcile preset g) as [[aw ah] warning]. reflexivity.
Qed.

(** X1.  Whatever the request and the world, a run of the tool adds to
    the record of calls either nothing, or one call of the provider
    followed by the file-system calls of one save: at most one [mkdir],
    then at most one [writeFile].  The provider is asked before anything
    is touched on disk, never twice, and with the aspect ratio, width and
    height of the preset of the request. *)
Theorem provider_call_precedes_file_system (env : Collaborators)
    (input : GenerateImageInput) (w : World) :
  exists evs,
    w_trace (world_after env input w) = w_trace w ++ evs
    /\ (evs = []
        \/ exists preset fs_calls,
             PLATFORM_PRESETS env (in_format input) = Some preset
             /\ evs = EvGenerateImage (options_of env input preset) :: fs_calls
             /\ opt_aspectRatio (options_of env input preset)
                = ps_aspectRatio preset
             /\ opt_width (options_of env input preset) = ps_width preset
             /\ opt_height (options_of env input preset) = ps_height preset
             /\ save_shape fs_calls = true
             /\ forallb is_fs_mutation fs_calls = true
             /\ existsb is_provider_call fs_calls = false).
Proof.
  destruct (request_valid env input) eqn:Hvalid.
  2: { exists []. rewrite app_nil_r.
       destruct (execute_stops_early env input w (or_introl Hvalid)) as [H _].
       fold (world_after env input w) in H. rewrite H. split; [reflexivity|].
       left. reflexivity. }
  destruct (PLATFORM_PRESETS env (in_format input)) as [preset|] eqn:Hpreset.
  2: { exists []. rewrite app_nil_r.
       destruct (execute_stops_early env input w (or_intror (or_introl Hpreset)))
         as [H _].
       fold (world_after env input w) in H. rewrite H. split; [reflexivity|].
       left. reflexivity. }
  destruct (isConfigured (createProvider env (in_provider input))) eqn:Hconf.
  2: { exists []. rewrite app_nil_r.
       destruct (execute_stops_early env input w (or_intror (or_intror Hconf)))
         as [H _].
       fold (world_after env input w) in H. rewrite H. split; [reflexivity|].
       left. reflexivity. }
  unfold world_after.
  rewrite (execute_run env input w preset Hvalid Hpreset Hconf).
  destruct (generateImage _ _) as [g|e].
  - destruct (save_generated_trace input g
                (log w (EvGenerateImage (options_of env input preset))))
      as (evs & Hevs & Hshape).
    exists (EvGenerateImage (options_of env input preset) :: evs).
    split.
    + destruct (save_generated _ _ _) as [[p|e] w']; cbn [snd] in *;
        rewrite Hevs; cbn [log w_trace]; rewrite <- app_assoc; reflexivity.
    + right. exists preset, evs.
      split; [reflexivity|]. repeat (split; [reflexivity|]).
      split; [exact Hshape|].
      destruct evs as [|[o|d|p b] [|[o'|d'|p' b'] [|ev evs]]];
        try discriminate Hshape; split; reflexivity.
  - exists [EvGenerateImage (options_of env input preset)].
    split; [reflexivity|]. right.
    exists preset, []. repeat split.
Qed.

(** X2.  When the provider rejects the request, the outcome is the
    generation failure with the sanitized text of the rejection; the
    provider has been called once, with the options of the preset, and the
    file system is as it was. *)
Theorem generation_failure_outcome (env : Collaborators)
    (input : GenerateImageInput) (w : World) (preset : PlatformPreset)
    (e : JsError) :
  request_valid env input = true ->
  PLATFORM_PRESETS env (in_format input) = Some preset ->
  isConfigured (createProvider env (in_provider input)) = true ->
  generateImage (createProvider env (in_provider input))
    (options_of env input preset) = Throw e ->
  outcome env input w
  = failure "Image generation failed" (Some (safeErrorMessage env e))
  /\ w_trace (world_after env input w)
     = w_trace w ++ [EvGenerateImage (options_of env input preset)]
  /\ w_fs (world_after env input w) = w_fs w
  /\ w_tick (world_after env input w) = w_tick w.
Proof.
  intros Hvalid Hpreset Hconf Hgen. unfold outcome, world_after.
  rewrite (execute_run env input w preset Hvalid Hpreset Hconf), Hgen.
  repeat split.
Qed.

(** X3.  The record of an outcome is well formed on every path: it
    carries an image exactly when it is a success, and a preset exactly
    then; a success has no error, names the saved path in its message and
    in its image record; a failure has no warning and one of the six fixed
    messages. *)
Theorem outcome_record_invariant (env : Collaborators)
    (input : GenerateImageInput) (w : World) :
  (res_success (outcome env input w) = true
   <-> res_image (outcome env input w) <> None)
  /\ (res_success (outcome env input w) = true
      <-> res_preset (outcome env input w) <> None)
  /\ (res_success (outcome env input w) = true ->
      res_error (outcome env input w) = None
      /\ exists image savedPath,
           res_image (outcome env input w) = Some image
           /\ img_savedTo image = Some savedPath
           /\ img_format image = in_format input
           /\ res_message (outcome env input w)
              = lit "Image generated and saved to " ++ savedPath)
  /\ (res_success (outcome env input w) = false ->
      res_warning (outcome env input w) = None
      /\ In (res_message (outcome env input w)) failure_messages).
Proof.
  destruct (outcome_cases env input w)
    as [(preset & g & savedPath & ->)|(message & error & -> & Hin)].
  - unfold success_result. destruct (reconcile preset g) as [[aw ah] warning].
    cbn [res_success res_image res_preset res_error res_message res_warning].
    split; [split; [discriminate|reflexivity]|].
    split; [split; [discriminate|reflexivity]|].
    split; [|discriminate].
    intros _. split; [reflexivity|].
    eexists. exists savedPath. repeat split.
  - unfold failure.
    cbn [res_success res_image res_preset res_error res_message res_warning].
    split; [split; [discriminate|intros H; contradiction]|].
    split; [split; [discriminate|intros H; contradiction]|].
    split; [discriminate|].
    intros _. split; [reflexivity|exact Hin].
Qed.

(** X4.  A successful outcome tells the truth about the disk: in the
    world the run leaves, the path named in the outcome holds a file, its
    content is what [saveImage] made of the provider's data and the
    provenance record, and writing it was the last call of the run. *)
Theorem success_leaves_the_file (env : Collaborators)
    (input : GenerateImageInput) (w : World) :
  res_success (outcome env input w) = true ->
  exists preset g image savedPath content,
    PLATFORM_PRESETS env (in_format input) = Some preset
    /\ generateImage (createProvider env (in_provider input))
         (options_of env input preset) = Ok g
    /\ res_image (outcome env input w) = Some image
    /\ img_savedTo image = Some savedPath
    /\ final_buffer (gi_base64Data g) (gi_mimeType g)
         (Some (metadata_in input g
                  (log w (EvGenerateImage (options_of env input preset)))))
       = Ok content
    /\ w_fs (world_after env input w) savedPath = Some (FsFile content)
    /\ exists earlier,
         w_trace (world_after env input w)
         = earlier ++ [EvWriteFile savedPath content].
Proof.
  intros Hsuccess.
  destruct (execute_success_inv env input w _ _ (run_pair env input w) Hsuccess)
    as (preset & g & savedPath & _ & Hpreset & _ & Hgen & Hsave & Hr).
  apply save_generated_ok_inv in Hsave
    as (content & Hbuf & Hfs & made & Htrace & _).
  rewrite Hr. unfold success_result.
  destruct (reconcile preset g) as [[aw ah] warning].
  exists preset, g. eexists. exists savedPath, content.
  split; [exact Hpreset|]. split; [exact Hgen|].
  split; [cbn [res_image]; reflexivity|].
  split; [reflexivity|]. split; [exact Hbuf|]. split; [exact Hfs|].
  eexists. rewrite Htrace, app_assoc. reflexivity.
Qed.

(** X5.  [saveImage] leaves bytes alone that it has no business with:
    when the MIME type is not [image/png], or no metadata is given, the
    file written holds exactly the bytes the base64 data decode to. *)
Theorem other_formats_are_written_raw (base64Data outputPath mimeType : JsString)
    (metadata : option ImageMetadata) (w : World) (savedPath : JsString) :
  fst (saveImage base64Data outputPath mimeType metadata w) = Ok savedPath ->
  mimeType <> lit "image/png" \/ metadata = None ->
  w_fs (snd (saveImage base64Data outputPath mimeType metadata w)) savedPath
  = Some (FsFile (buffer_from_base64 base64Data))
  /\ exists earlier,
       w_trace (snd (saveImage base64Data outputPath mimeType metadata w))
       = earlier ++ [EvWriteFile savedPath (buffer_from_base64 base64Data)].
Proof.
  destruct (saveImage base64Data outputPath mimeType metadata w)
    as [r w'] eqn:Hsave.
  cbn [fst snd]. intros -> Hraw.
  apply saveImage_ok_inv in Hsave
    as (_ & content & Hbuf & Hfs & made & Htrace & _).
  assert (Hcontent : content = buffer_from_base64 base64Data).
  { unfold final_buffer in Hbuf. destruct Hraw as [Hmime| ->].
    - rewrite (jsstr_eqb_neq _ _ Hmime) in Hbuf.
      destruct metadata; apply Ok_inj in Hbuf; congruence.
    - apply Ok_inj in Hbuf. congruence. }
  subst content. split; [exact Hfs|].
  eexists. rewrite Htrace, app_assoc. reflexivity.
Qed.


(** X7.  A PNG cut short after its signature, handed to [saveImage] with
    metadata, makes it reject with the error of the codec: the
    [RangeError] of [readUInt32BE] for the offset 8, whose message names
    the last offset that fits, the length of the decoded buffer less four.
    No file is written; the directory, if it was missing, has been made by
    then. *)
Theorem truncated_png_is_not_saved (base64Data outputPath : JsString)
    (md : ImageMetadata) (w : World) :
  has_png_signature (buffer_from_base64 base64Data) ->
  buf_length (buffer_from_base64 base64Data) < 12 ->
  w_mkdir_error w (Path.dirname (target_path w outputPath (lit "image/png")))
  = None ->
  fst (saveImage base64Data outputPath (lit "image/png") (Some md) w)
  = Throw (ERR_OUT_OF_RANGE (lit "offset")
             (lit ">= 0 and <= "
              ++ show_int (buf_length (buffer_from_base64 base64Data) - 4)) 8)
  /\ err_name (ERR_OUT_OF_RANGE (lit "offset")
                 (lit ">= 0 and <= "
                  ++ show_int (buf_length (buffer_from_base64 base64Data) - 4))
                 8)
     = lit "RangeError"
  /\ existsb is_write
       (w_trace (snd (saveImage base64Data outputPath (lit "image/png")
                        (Some md) w)))
     = existsb is_write (w_trace w)
  /\ (existsSync w (Path.dirname (target_path w outputPath (lit "image/png")))
      = false ->
      w_trace (snd (saveImage base64Data outputPath (lit "image/png")
                      (Some md) w))
      = w_trace w
        ++ [EvMkdir (Path.dirname
                       (target_path w outputPath (lit "image/png")))]).
Proof.
  intros Hsig Hshort Hmk.
  assert (Hbuf : final_buffer base64Data (lit "image/png") (Some md)
                 = Throw (ERR_OUT_OF_RANGE (lit "offset")
                            (lit ">= 0 and <= "
                             ++ show_int
                                  (buf_length (buffer_from_base64 base64Data)
                                   - 4)) 8)).
  { unfold final_buffer. rewrite jsstr_eqb_refl.
    apply embed_truncated; assumption. }
  rewrite saveImage_steps, ensure_dir_cases, Hbuf.
  assert (Hmk' : w_mkdir_error (after_naming w outputPath)
                   (Path.dirname (target_path w outputPath (lit "image/png")))
                 = None).
  { unfold after_naming. destruct (is_directory_path w outputPath); exact Hmk. }
  rewrite Hmk'. unfold existsSync. rewrite after_naming_fs.
  destruct (w_fs w (Path.dirname (target_path w outputPath (lit "image/png"))));
    cbn [fst snd with_fs log w_trace]; rewrite after_naming_trace.
  - split; [reflexivity|]. split; [reflexivity|].
    split; [reflexivity|discriminate].
  - split; [reflexivity|]. split; [reflexivity|]. split; [|reflexivity].
    rewrite existsb_app. cbn [existsb is_write]. rewrite !orb_false_r.
    reflexivity.
Qed.

(** ** These properties at work *)

Lemma generation_failure_outcome_witness :
  outcome (Scenario.collaborators Scenario.gemini_down) Scenario.to_file
    Scenario.world
  = failure "Image generation failed"
      (Some (safeErrorMessage (Scenario.collaborators Scenario.gemini_down)
               (MkError (lit "ProviderError") (lit "Gemini API error: 503"))))
  /\ w_trace (world_after (Scenario.collaborators Scenario.gemini_down)
                Scenario.to_file Scenario.world)
     = w_trace Scenario.world
       ++ [EvGenerateImage
             (options_of (Scenario.collaborators Scenario.gemini_down)
                Scenario.to_file Scenario.ghost_banner)]
  /\ w_fs (world_after (Scenario.collaborators Scenario.gemini_down)
             Scenario.to_file Scenario.world) = w_fs Scenario.world
  /\ w_tick (world_after (Scenario.collaborators Scenario.gemini_down)
               Scenario.to_file Scenario.world) = w_tick Scenario.world.
Proof.
  apply generation_failure_outcome; vm_compute; reflexivity.
Defined.

Lemma success_leaves_the_file_witness :
  exists preset g image savedPath content,
    PLATFORM_PRESETS Scenario.configured (in_format Scenario.to_directory)
    = Some preset
    /\ generateImage
         (createProvider Scenario.configured
            (in_provider Scenario.to_directory))
         (options_of Scenario.configured Scenario.to_directory preset) = Ok g
    /\ res_image (outcome Scenario.configured Scenario.to_directory
                    Scenario.world) = Some image
    /\ img_savedTo image = Some savedPath
    /\ final_buffer (gi_base64Data g) (gi_mimeType g)
         (Some (metadata_in Scenario.to_directory g
                  (log Scenario.world
                     (EvGenerateImage
                        (options_of Scenario.configured Scenario.to_directory
                           preset)))))
       = Ok content
    /\ w_fs (world_after Scenario.configured Scenario.to_directory
               Scenario.world) savedPath = Some (FsFile content)
    /\ exists earlier,
         w_trace (world_after Scenario.configured Scenario.to_directory
                    Scenario.world)
         = earlier ++ [EvWriteFile savedPath content].
Proof.
  apply success_leaves_the_file. vm_compute. reflexivity.
Defined.

Lemma other_formats_are_written_raw_witness :
  w_fs (snd (saveImage Scenario.pixel_base64 (lit "pic") (lit "image/webp")
               (Some Scenario.provenance) Scenario.world))
    (lit "/home/user/project/pic.webp")
  = Some (FsFile (buffer_from_base64 Scenario.pixel_base64))
  /\ exists earlier,
       w_trace (snd (saveImage Scenario.pixel_base64 (lit "pic")
                       (lit "image/webp") (Some Scenario.provenance)
                       Scenario.world))
       = earlier ++ [EvWriteFile (lit "/home/user/project/pic.webp")
                       (buffer_from_base64 Scenario.pixel_base64)].
Proof.
  apply other_formats_are_written_raw.
  - vm_compute. reflexivity.
  - left. vm_compute. discriminate.
Defined.


Lemma truncated_png_is_not_saved_witness :
  buf_length (buffer_from_base64 Scenario.signature_only_base64) = 8
  /\ fst (saveImage Scenario.signature_only_base64 (lit "out/")
            (lit "image/png") (Some Scenario.provenance) Scenario.world)
     = Throw (RangeError
                (lit "The value of " ++ QUOTE ++ lit "offset" ++ QUOTE
                 ++ lit " is out of range. It must be >= 0 and <= 4. Received 8"))
  /\ existsb is_write
       (w_trace (snd (saveImage Scenario.signature_only_base64 (lit "out/")
                        (lit "image/png") (Some Scenario.provenance)
                        Scenario.world)))
     = existsb is_write (w_trace Scenario.world)
  /\ (existsSync Scenario.world
        (Path.dirname (target_path Scenario.world (lit "out/")
                         (lit "image/png"))) = false ->
      w_trace (snd (saveImage Scenario.signature_only_base64 (lit "out/")
                      (lit "image/png") (Some Scenario.provenance)
                      Scenario.world))
      = w_trace Scenario.world
        ++ [EvMkdir (Path.dirname
                       (target_path Scenario.world (lit "out/")
                          (lit "image/png")))]).
Proof.
  destruct (truncated_png_is_not_saved Scenario.signature_only_base64
              (lit "out/") Scenario.provenance Scenario.world)
    as (Hthrow & _ & Hwrites & Htrace).
  - vm_compute. reflexivity.
  - vm_compute. reflexivity.
  - vm_compute. reflexivity.
  - split; [vm_compute; reflexivity|].
    split; [rewrite Hthrow; vm_compute; reflexivity|].
    split; [exact Hwrites|exact Htrace].
Defined.

(** ** More on the codec *)

Lemma trim_start_length (s : JsString) :
  (length (trim_start s) <= length s)%nat.
Proof.
  induction s as [|c s IH]; cbn [trim_start length]; [lia|].
  destruct (is_js_whitespace c); cbn [length]; lia.
Qed.

Lemma trim_length (s : JsString) : (length (trim s) <= length s)%nat.
Proof.
  unfold trim. rewrite length_rev.
  pose proof (trim_start_length (rev (trim_start s))) as H1.
  rewrite length_rev in H1. pose proof (trim_start_length s). lia.
Qed.

Lemma safe_keyword_length (keyword : JsString) :
  (length (safe_keyword keyword) <= 79)%nat.
Proof.
  unfold safe_keyword, str_slice0.
  pose proof (trim_length (firstn 79 keyword)) as H.
  pose proof (firstn_le_length 79 keyword). lia.
Qed.

(** X8.  [createPngTextChunk] never throws on strings the engine can
    hold, whatever the keyword: it cuts the keyword to 79 code units and
    trims it, so that the keyword takes at most 79 bytes, and builds a
    chunk of [12 + keyword bytes + 1 + text bytes] bytes, the text taking
    at most three bytes per code unit. *)
Theorem text_chunk_is_always_built (keyword text : JsString) :
  js_string_ok text ->
  exists chunk,
    createPngTextChunk keyword text = Ok chunk
    /\ chunk = text_chunk (trim (str_slice0 keyword 79)) text
    /\ buf_length (buffer_from_latin1 (trim (str_slice0 keyword 79))) <= 79
    /\ buf_length (buffer_from_utf8 text) <= 3 * Z.of_nat (length text)
    /\ buf_length chunk
       = 12 + buf_length (buffer_from_latin1 (trim (str_slice0 keyword 79)))
         + 1 + buf_length (buffer_from_utf8 text).
Proof.
  intros Hok. fold (safe_keyword keyword).
  pose proof (safe_keyword_length keyword) as Hk.
  exists (text_chunk (safe_keyword keyword) text).
  split; [apply createPngTextChunk_ok, chunk_data_fits; assumption|].
  split; [reflexivity|].
  split; [unfold buf_length; rewrite buffer_from_latin1_length; lia|].
  split; [pose proof (buffer_from_utf8_length text); unfold buf_length; lia|].
  apply text_chunk_length.
Qed.

Lemma text_chunk_is_always_built_witness :
  exists chunk,
    createPngTextChunk (lit "  Comment ") (lit "sunset") = Ok chunk
    /\ chunk = text_chunk (trim (str_slice0 (lit "  Comment ") 79)) (lit "sunset")
    /\ buf_length (buffer_from_latin1 (trim (str_slice0 (lit "  Comment ") 79)))
       <= 79
    /\ buf_length (buffer_from_utf8 (lit "sunset"))
       <= 3 * Z.of_nat (length (lit "sunset"))
    /\ buf_length chunk
       = 12 + buf_length (buffer_from_latin1
                            (trim (str_slice0 (lit "  Comment ") 79)))
         + 1 + buf_length (buffer_from_utf8 (lit "sunset")).
Proof.
  apply text_chunk_is_always_built.
  apply Z.leb_le. vm_compute. reflexivity.
Defined.

Lemma firstn_exact {A} (a b : list A) (n : nat) :
  length a = n -> firstn n (a ++ b) = a.
Proof.
  intros <-. rewrite firstn_app, firstn_all, Nat.sub_diag. cbn [firstn].
  apply app_nil_r.
Qed.

Lemma skipn_exact {A} (a b : list A) (n : nat) :
  length a = n -> skipn n (a ++ b) = b.
Proof.
  intros <-. rewrite skipn_app, skipn_all, Nat.sub_diag. reflexivity.
Qed.

(** The first twelve bytes and more survive the splice. *)
Lemma spliced_keeps_header (buf : Buffer) (md : ImageMetadata) (L : Z) :
  has_png_signature buf ->
  readUInt32BE buf PNG_SIGNATURE_LENGTH = Ok L ->
  0 <= L ->
  ihdr_end L <= buf_length buf ->
  has_png_signature (spliced buf L md)
  /\ readUInt32BE (spliced buf L md) PNG_SIGNATURE_LENGTH = Ok L.
Proof.
  intros Hsig Hread HL Hfit.
  rewrite spliced_firstn_skipn.
  unfold has_png_signature, readUInt32BE, ihdr_end, PNG_SIGNATURE_LENGTH,
    buf_length in *.
  rewrite buf_slice_0 in *. change (Z.to_nat 8) with 8%nat in *.
  set (e := Z.to_nat (8 + 4 + 4 + L + 4)) in *.
  assert (He : (20 <= e)%nat) by (unfold e; lia).
  assert (He' : (e <= length buf)%nat) by (unfold e; lia).
  assert (Hlen : length (firstn e buf) = e) by (apply firstn_length_le; lia).
  split.
  - rewrite firstn_app, Hlen.
    replace (8 - e)%nat with 0%nat by lia. rewrite firstn_O, app_nil_r.
    rewrite firstn_firstn. replace (Nat.min 8 e) with 8%nat by lia.
    exact Hsig.
  - rewrite skipn_app, Hlen.
    replace (8 - e)%nat with 0%nat by lia. rewrite skipn_O.
    rewrite skipn_firstn_comm.
    destruct (skipn 8 buf) as [|b0 [|b1 [|b2 [|b3 rest]]]]; try discriminate.
    destruct (e - 8)%nat as [|[|[|[|n]]]] eqn:Hn; try lia.
    cbn [firstn app]. exact Hread.
Qed.

(** X9.  [embedPngMetadata] does not look for chunks it has added
    before: its output begins with the signature and declares the same
    first-chunk length, and embedding the same record into it once more
    puts a second copy of every chunk after the first chunk. *)
Theorem embedding_again_repeats_the_chunks
    (buf : Buffer) (md : ImageMetadata) (ihdrLength : Z) :
  has_png_signature buf ->
  readUInt32BE buf PNG_SIGNATURE_LENGTH = Ok ihdrLength ->
  0 <= ihdrLength ->
  ihdr_end ihdrLength <= buf_length buf ->
  metadata_ok md ->
  exists out,
    embedPngMetadata buf md = Ok out
    /\ has_png_signature out
    /\ readUInt32BE out PNG_SIGNATURE_LENGTH = Ok ihdrLength
    /\ embedPngMetadata out md
       = Ok (firstn (Z.to_nat (ihdr_end ihdrLength)) buf
             ++ concat (map chunk_of (synthesized_fields md))
             ++ concat (map chunk_of (synthesized_fields md))
             ++ skipn (Z.to_nat (ihdr_end ihdrLength)) buf).
Proof.
  intros Hsig Hread HL Hfit Hmd.
  exists (spliced buf ihdrLength md).
  destruct (spliced_keeps_header buf md ihdrLength Hsig Hread HL Hfit)
    as [Hsig' Hread'].
  split; [apply embed_ok; assumption|].
  split; [exact Hsig'|]. split; [exact Hread'|].
  rewrite (embed_ok _ md ihdrLength Hsig' Hread' Hmd). f_equal.
  rewrite (spliced_firstn_skipn (spliced buf ihdrLength md)).
  rewrite spliced_firstn_skipn.
  assert (Hlen : length (firstn (Z.to_nat (ihdr_end ihdrLength)) buf)
                 = Z.to_nat (ihdr_end ihdrLength)).
  { apply firstn_length_le. unfold buf_length in Hfit. lia. }
  rewrite (firstn_exact _ _ _ Hlen), (skipn_exact _ _ _ Hlen).
  reflexivity.
Qed.

Lemma embedding_again_repeats_the_chunks_witness :
  exists out,
    embedPngMetadata Scenario.pixel_png Scenario.provenance = Ok out
    /\ has_png_signature out
    /\ readUInt32BE out PNG_SIGNATURE_LENGTH = Ok 13
    /\ embedPngMetadata out Scenario.provenance
       = Ok (firstn (Z.to_nat (ihdr_end 13)) Scenario.pixel_png
             ++ concat (map chunk_of (synthesized_fields Scenario.provenance))
             ++ concat (map chunk_of (synthesized_fields Scenario.provenance))
             ++ skipn (Z.to_nat (ihdr_end 13)) Scenario.pixel_png).
Proof.
  apply embedding_again_repeats_the_chunks.
  - vm_compute. reflexivity.
  - vm_compute. reflexivity.
  - apply Z.leb_le. vm_compute. reflexivity.
  - apply Z.leb_le. vm_compute. reflexivity.
  - unfold metadata_ok, provenance_fields.
    repeat (apply Forall_cons;
            [vm_compute; first [exact I | discriminate]|]).
    apply Forall_nil.
Defined.

(** X10.  Whenever [embedPngMetadata] returns for a buffer with the PNG
    signature, the output is longer than the input by the 129 bytes of
    the Software and Source chunks at least: such a buffer never comes
    back as it went in. *)
Theorem embed_output_is_longer (buf out : Buffer) (md : ImageMetadata) :
  has_png_signature buf ->
  embedPngMetadata buf md = Ok out ->
  buf_length buf + 129 <= buf_length out /\ out <> buf.
Proof.
  intros Hsig Hout.
  destruct (embed_inv buf md out Hsig Hout) as (L & _ & -> & _).
  assert (H : buf_length buf + 129 <= buf_length (spliced buf L md)).
  { rewrite spliced_length. unfold synthesized_fields.
    rewrite chunks_size_app.
    pose proof (chunks_size_nonneg
                  (flat_map present_field (provenance_fields md))).
    assert (Hfixed : chunks_size fixed_fields = 129)
      by (vm_compute; reflexivity).
    lia. }
  split; [exact H|].
  intros Heq. rewrite Heq in H. lia.
Qed.

Lemma embed_output_is_longer_witness :
  buf_length Scenario.pixel_png + 129 <= buf_length Scenario.tagged_png
  /\ Scenario.tagged_png <> Scenario.pixel_png.
Proof.
  apply (embed_output_is_longer Scenario.pixel_png Scenario.tagged_png
           Scenario.provenance); vm_compute; reflexivity.
Defined.

(** ** Sizes *)

Lemma base64_sextets_length (s : JsString) :
  (length (base64_sextets s) <= length s)%nat.
Proof.
  induction s as [|u s IH]; cbn [base64_sextets length]; [lia|].
  cbv zeta. destruct (unbase64 (low_byte u)); cbn [length]; [lia|].
  destruct (low_byte u =? 61); cbn [length]; lia.
Qed.

Lemma base64_bytes_length (n : nat) (sextets : list Z) :
  (length sextets <= n)%nat ->
  (4 * length (base64_bytes sextets) <= 3 * length sextets)%nat.
Proof.
  revert sextets. induction n as [n IH] using lt_wf_ind.
  intros [|a [|b [|c [|d rest]]]] Hn; cbn [base64_bytes length app]; try lia.
  cbn [length] in Hn.
  assert (Hrest : (length rest <= n - 4)%nat) by lia.
  pose proof (IH (n - 4)%nat ltac:(lia) rest Hrest). lia.
Qed.

(** X11.  The estimate of [estimateFileSize] is never below the number
    of bytes the base64 data decode to: [Buffer.from(data, "base64")]
    yields at most [floor (3 * length / 4)] bytes. *)
Theorem estimate_bounds_decoded_size (base64Data : JsString) :
  buf_length (buffer_from_base64 base64Data) <= estimateFileSize base64Data.
Proof.
  unfold estimateFileSize, buffer_from_base64, buf_length.
  pose proof (base64_sextets_length base64Data) as Hs.
  pose proof (base64_bytes_length _ (base64_sextets base64Data) (le_n _)) as Hb.
  apply Z.div_le_lower_bound; lia.
Qed.

(** X12.  [formatFileSize] picks the unit by the exact number of bytes
    and rounds the figure to one decimal afterwards: from 1048525 bytes up
    to one byte short of a mebibyte the text is [1024.0 KB]. *)
Theorem kilobytes_can_read_1024 (bytes : Z) :
  1048525 <= bytes < 1048576 ->
  formatFileSize bytes = lit "1024.0 KB".
Proof.
  intros Hb. unfold formatFileSize.
  destruct (Z.ltb_spec bytes 1024); [lia|].
  destruct (Z.ltb_spec bytes (1024 * 1024)); [|lia].
  unfold toFixed1.
  assert (Hn : (20 * bytes + 1024) / (2 * 1024) = 10240).
  { symmetry. apply (Z.div_unique _ _ _ (20 * bytes + 1024 - 10240 * 2048)); lia. }
  rewrite Hn. vm_compute. reflexivity.
Qed.

Lemma kilobytes_can_read_1024_witness :
  formatFileSize 1048570 = lit "1024.0 KB".
Proof. apply kilobytes_can_read_1024. lia. Defined.

(** ** [sanitizeFilename] *)

Lemma collapse_dashes_head (s : JsString) :
  starts_with_dash (collapse_dashes s) = starts_with_dash s.
Proof.
  induction s as [|c s IH]; [reflexivity|].
  cbn [collapse_dashes]. destruct (Z.eqb_spec c 45) as [->|Hc].
  - destruct s as [|d s]; [reflexivity|].
    destruct (Z.eqb_spec d 45) as [->|Hd]; [|reflexivity].
    rewrite IH. reflexivity.
  - cbn [starts_with_dash]. reflexivity.
Qed.

Lemma collapse_dashes_no_double (s : JsString) :
  has_double_dash (collapse_dashes s) = false.
Proof.
  induction s as [|c s IH]; [reflexivity|].
  cbn [collapse_dashes]. destruct (Z.eqb_spec c 45) as [->|Hc].
  - destruct s as [|d s]; [reflexivity|].
    destruct (Z.eqb_spec d 45) as [->|Hd]; [exact IH|].
    cbn [has_double_dash]. rewrite IH, collapse_dashes_head.
    cbn [starts_with_dash]. destruct (Z.eqb_spec d 45); [contradiction|].
    reflexivity.
  - cbn [has_double_dash]. rewrite IH.
    destruct (Z.eqb_spec c 45); [contradiction|]. reflexivity.
Qed.

Lemma collapse_dashes_chars (P : Z -> Prop) (s : JsString) :
  Forall P s -> Forall P (collapse_dashes s).
Proof.
  induction 1 as [|c s Hc Hs IH]; [constructor|].
  cbn [collapse_dashes]. destruct (c =? 45).
  - destruct s as [|d s]; [repeat constructor; exact Hc|].
    destruct (d =? 45); [exact IH|constructor; assumption].
  - constructor; assumption.
Qed.

Lemma strip_leading_dash_no_double (s : JsString) :
  has_double_dash s = false ->
  has_double_dash (strip_leading_dash s) = false
  /\ starts_with_dash (strip_leading_dash s) = false.
Proof.
  destruct s as [|c s]; [split; reflexivity|].
  cbn [strip_leading_dash has_double_dash].
  destruct (Z.eqb_spec c 45) as [->|Hc]; cbn [andb orb]; intros H.
  - apply orb_false_iff in H. tauto.
  - split; [cbn [has_double_dash]|cbn [starts_with_dash]];
      destruct (Z.eqb_spec c 45); try contradiction; assumption || reflexivity.
Qed.

Lemma strip_leading_dash_chars (P : Z -> Prop) (s : JsString) :
  Forall P s -> Forall P (strip_leading_dash s).
Proof.
  intros H. destruct s as [|c s]; [constructor|].
  cbn [strip_leading_dash]. destruct (c =? 45); [exact (Forall_inv_tail H)|exact H].
Qed.

Lemma strip_trailing_dash_head (s : JsString) :
  starts_with_dash s = false -> starts_with_dash (strip_trailing_dash s) = false.
Proof.
  destruct s as [|c [|d s]]; cbn [strip_trailing_dash starts_with_dash];
    intros H; rewrite ?H; cbn [starts_with_dash]; rewrite ?H; reflexivity.
Qed.

Lemma strip_trailing_dash_head_le (s : JsString) :
  starts_with_dash (strip_trailing_dash s) = true -> starts_with_dash s = true.
Proof.
  destruct (starts_with_dash s) eqn:H; [reflexivity|].
  rewrite (strip_trailing_dash_head s H). discriminate.
Qed.

Lemma strip_trailing_dash_no_double (s : JsString) :
  has_double_dash s = false -> has_double_dash (strip_trailing_dash s) = false.
Proof.
  induction s as [|c s IH]; [reflexivity|].
  intros H. cbn [has_double_dash] in H. apply orb_false_iff in H as [H1 H2].
  destruct s as [|d s].
  - cbn [strip_trailing_dash].
    destruct (c =? 45) eqn:Hc; cbn [has_double_dash starts_with_dash];
      rewrite ?Hc; reflexivity.
  - change (strip_trailing_dash (c :: d :: s))
      with (c :: strip_trailing_dash (d :: s)).
    cbn [has_double_dash]. rewrite (IH H2). rewrite orb_false_r.
    destruct (c =? 45); [|reflexivity]. cbn [andb] in *.
    apply strip_trailing_dash_head. exact H1.
Qed.

Lemma strip_trailing_dash_chars (P : Z -> Prop) (s : JsString) :
  Forall P s -> Forall P (strip_trailing_dash s).
Proof.
  induction 1 as [|c s Hc Hs IH]; [constructor|].
  destruct s as [|d s].
  - cbn [strip_trailing_dash]. destruct (c =? 45); repeat constructor; exact Hc.
  - change (strip_trailing_dash (c :: d :: s))
      with (c :: strip_trailing_dash (d :: s)).
    constructor; assumption.
Qed.

Lemma ascii_lower_dash (c : Z) : (ascii_lower c =? 45) = (c =? 45).
Proof.
  unfold ascii_lower.
  destruct (Z.leb_spec 65 c); destruct (Z.leb_spec c 90); cbn [andb];
    try reflexivity.
  destruct (Z.eqb_spec (c + 32) 45); destruct (Z.eqb_spec c 45); lia || reflexivity.
Qed.

Lemma lower_starts_with_dash (s : JsString) :
  starts_with_dash (map ascii_lower s) = starts_with_dash s.
Proof. destruct s; [reflexivity|]. cbn [map starts_with_dash]. apply ascii_lower_dash. Qed.

Lemma lower_has_double_dash (s : JsString) :
  has_double_dash (map ascii_lower s) = has_double_dash s.
Proof.
  induction s as [|c s IH]; [reflexivity|].
  cbn [map has_double_dash]. fold (map ascii_lower s).
  rewrite IH, ascii_lower_dash, lower_starts_with_dash. reflexivity.
Qed.

Lemma firstn_starts_with_dash (n : nat) (s : JsString) :
  starts_with_dash s = false -> starts_with_dash (firstn n s) = false.
Proof. destruct n, s; cbn [firstn starts_with_dash]; auto. Qed.

Lemma firstn_has_double_dash (n : nat) (s : JsString) :
  has_double_dash s = false -> has_double_dash (firstn n s) = false.
Proof.
  revert n. induction s as [|c s IH]; intros [|n]; cbn [firstn]; try reflexivity.
  intros H. cbn [has_double_dash] in *. apply orb_false_iff in H as [H1 H2].
  rewrite (IH n H2), orb_false_r.
  destruct (c =? 45); [|reflexivity]. cbn [andb] in *.
  apply firstn_starts_with_dash. exact H1.
Qed.

Lemma lower_safe (c : Z) :
  is_filename_char c = true -> is_safe_lower_char (ascii_lower c) = true.
Proof.
  unfold is_filename_char, is_safe_lower_char, ascii_lower.
  intros H.
  repeat match goal with
         | |- context [?a <=? ?b] => destruct (Z.leb_spec a b)
         | H : context [?a <=? ?b] |- _ => destruct (Z.leb_spec a b)
         | |- context [?a =? ?b] => destruct (Z.eqb_spec a b)
         | H : context [?a =? ?b] |- _ => destruct (Z.eqb_spec a b)
         end; cbn [andb orb] in *; try reflexivity; try discriminate; lia.
Qed.

(** X13.  Whatever the name, the result of [sanitizeFilename] has at
    most 100 characters, all of them lower-case ASCII letters, digits,
    dashes or underscores; it does not begin with a dash and has no two
    dashes in a row. *)
Theorem sanitized_filename_is_tame (name : JsString) :
  (length (sanitizeFilename name) <= 100)%nat
  /\ forallb is_safe_lower_char (sanitizeFilename name) = true
  /\ starts_with_dash (sanitizeFilename name) = false
  /\ has_double_dash (sanitizeFilename name) = false.
Proof.
  unfold sanitizeFilename, str_slice0.
  set (collapsed := collapse_dashes (replace_unsafe name)).
  assert (Hchars : Forall (fun c => is_filename_char c = true) collapsed).
  { apply collapse_dashes_chars. unfold replace_unsafe. apply Forall_map.
    apply Forall_forall. intros c _. cbv beta.
    destruct (is_filename_char c) eqn:Hc; [exact Hc|reflexivity]. }
  destruct (strip_leading_dash_no_double collapsed
              (collapse_dashes_no_double (replace_unsafe name)))
    as [Hdouble Hhead].
  split; [apply firstn_le_length|]. split; [|split].
  - apply forallb_forall. apply Forall_forall. apply Forall_firstn.
    apply Forall_map. eapply Forall_impl; [intros c; apply lower_safe|].
    apply strip_trailing_dash_chars, strip_leading_dash_chars. exact Hchars.
  - apply firstn_starts_with_dash. rewrite lower_starts_with_dash.
    apply strip_trailing_dash_head. exact Hhead.
  - apply firstn_has_double_dash. rewrite lower_has_double_dash.
    apply strip_trailing_dash_no_double. exact Hdouble.
Qed.

Lemma safe_lower_is_filename_char (c : Z) :
  is_safe_lower_char c = true ->
  is_filename_char c = true /\ ascii_lower c = c.
Proof.
  unfold is_filename_char, is_safe_lower_char, ascii_lower.
  intros H.
  repeat match goal with
         | |- context [?a <=? ?b] => destruct (Z.leb_spec a b)
         | H : context [?a <=? ?b] |- _ => destruct (Z.leb_spec a b)
         | |- context [?a =? ?b] => destruct (Z.eqb_spec a b)
         | H : context [?a =? ?b] |- _ => destruct (Z.eqb_spec a b)
         end; cbn [andb orb] in *; try (split; reflexivity); try discriminate;
    lia.
Qed.

Lemma replace_unsafe_safe (a : JsString) :
  forallb is_safe_lower_char a = true -> replace_unsafe a = a.
Proof.
  induction a as [|x a IH]; [reflexivity|].
  cbn [forallb]. intros H. apply andb_prop in H as [Hx Ha].
  unfold replace_unsafe in *. cbn [map]. rewrite (IH Ha).
  destruct (safe_lower_is_filename_char x Hx) as [-> _]. reflexivity.
Qed.

Lemma lower_safe_id (a : JsString) :
  forallb is_safe_lower_char a = true -> map ascii_lower a = a.
Proof.
  induction a as [|x a IH]; [reflexivity|].
  cbn [forallb]. intros H. apply andb_prop in H as [Hx Ha].
  cbn [map]. rewrite (IH Ha).
  destruct (safe_lower_is_filename_char x Hx) as [_ ->]. reflexivity.
Qed.

Lemma collapse_dashes_prefix (a rest : JsString) :
  no_char 45 a -> collapse_dashes (a ++ rest) = a ++ collapse_dashes rest.
Proof.
  induction 1 as [|x a Hx Ha IH]; [reflexivity|].
  cbn [app collapse_dashes]. destruct (Z.eqb_spec x 45); [contradiction|].
  rewrite IH. reflexivity.
Qed.

Lemma strip_trailing_dash_prefix (a rest : JsString) :
  rest <> [] ->
  strip_trailing_dash (a ++ rest) = a ++ strip_trailing_dash rest.
Proof.
  intros Hrest. induction a as [|x a IH]; [reflexivity|].
  cbn [app]. destruct (a ++ rest) as [|y l] eqn:Hal.
  - apply app_eq_nil in Hal as [_ Hal]. contradiction.
  - change (strip_trailing_dash (x :: y :: l))
      with (x :: strip_trailing_dash (y :: l)).
    rewrite IH. reflexivity.
Qed.

(** X22.  The cut to 100 characters comes after the dashes at the ends
    are removed, so a dash can end the result after all: a name of 99
    plain characters, a dash and a letter is cut right after the dash. *)
Theorem truncation_can_leave_a_trailing_dash (a rest : JsString) (c : Z) :
  length a = 99%nat ->
  forallb is_safe_lower_char a = true ->
  no_char 45 a ->
  97 <= c <= 122 ->
  sanitizeFilename (a ++ 45 :: c :: rest) = a ++ [45].
Proof.
  intros Hlen Hsafe Hnodash Hc.
  assert (Hc' : is_filename_char c = true).
  { unfold is_filename_char.
    destruct (Z.leb_spec 97 c); [|lia]. destruct (Z.leb_spec c 122); [|lia].
    reflexivity. }
  assert (Hc45 : (c =? 45) = false) by (apply Z.eqb_neq; lia).
  unfold sanitizeFilename, str_slice0.
  unfold replace_unsafe. rewrite map_app. fold (replace_unsafe a).
  rewrite (replace_unsafe_safe a Hsafe). cbn [map].
  change (is_filename_char 45) with true. cbv iota. rewrite Hc'.
  fold (replace_unsafe rest).
  rewrite (collapse_dashes_prefix a _ Hnodash).
  cbn [collapse_dashes]. change (45 =? 45) with true. cbv iota.
  rewrite Hc45.
  destruct a as [|a0 a]; [discriminate Hlen|].
  pose proof (Forall_inv Hnodash) as Ha0. cbv beta in Ha0.
  cbn [app strip_leading_dash].
  destruct (Z.eqb_spec a0 45); [contradiction|].
  replace (a0 :: a ++ 45 :: c :: collapse_dashes (replace_unsafe rest))
    with (((a0 :: a) ++ [45])
          ++ c :: collapse_dashes (replace_unsafe rest))
    by (rewrite <- app_assoc; reflexivity).
  rewrite strip_trailing_dash_prefix by discriminate.
  rewrite map_app, map_app.
  rewrite (lower_safe_id (a0 :: a) Hsafe).
  change (map ascii_lower [45]) with [45].
  apply firstn_exact. cbn [app length] in *. rewrite length_app.
  cbn [length]. lia.
Qed.

Lemma truncation_can_leave_a_trailing_dash_witness :
  sanitizeFilename (repeat 97 99 ++ 45 :: 98 :: lit ".png")
  = repeat 97 99 ++ [45].
Proof.
  apply truncation_can_leave_a_trailing_dash.
  - vm_compute. reflexivity.
  - vm_compute. reflexivity.
  - apply Forall_forall. intros x Hx. apply repeat_spec in Hx. subst x.
    discriminate.
  - lia.
Defined.

(** ** Timestamps of the years 0 to 9999 *)

Lemma pad2_table :
  forallb (fun k => Nat.eqb (length (pad_start 2 (decimal (N.of_nat k)))) 2)
    (seq 0 100) = true.
Proof. vm_compute. reflexivity. Qed.

Lemma pad3_table :
  forallb (fun k => Nat.eqb (length (pad_start 3 (decimal (N.of_nat k)))) 3)
    (seq 0 1000) = true.
Proof. vm_compute. reflexivity. Qed.

Lemma pad4_table :
  forallb (fun k => Nat.eqb (length (pad_start 4 (decimal (N.of_nat k)))) 4)
    (seq 0 (100 * 100)) = true.
Proof. vm_compute. reflexivity. Qed.

Lemma pad2_length (n : N) :
  (n < 100)%N -> length (pad_start 2 (decimal n)) = 2%nat.
Proof.
  intros Hn. pose proof pad2_table as H.
  rewrite forallb_forall in H. specialize (H (N.to_nat n)).
  rewrite Nnat.N2Nat.id in H. apply Nat.eqb_eq, H, in_seq. lia.
Qed.

Lemma pad3_length (n : N) :
  (n < 1000)%N -> length (pad_start 3 (decimal n)) = 3%nat.
Proof.
  intros Hn. pose proof pad3_table as H.
  rewrite forallb_forall in H. specialize (H (N.to_nat n)).
  rewrite Nnat.N2Nat.id in H. apply Nat.eqb_eq, H, in_seq. lia.
Qed.

Lemma pad4_length (n : N) :
  (n < 10000)%N -> length (pad_start 4 (decimal n)) = 4%nat.
Proof.
  intros Hn. pose proof pad4_table as H.
  rewrite forallb_forall in H. specialize (H (N.to_nat n)).
  rewrite Nnat.N2Nat.id in H. apply Nat.eqb_eq, H, in_seq. lia.
Qed.

Lemma replace_colon_dot_digits (s : JsString) :
  Forall (fun c => 48 <= c <= 57) s -> replace_colon_dot s = s.
Proof.
  induction 1 as [|c s Hc Hs IH]; [reflexivity|].
  unfold replace_colon_dot in *. cbn [map]. rewrite IH.
  destruct (Z.eqb_spec c 58); [lia|]. destruct (Z.eqb_spec c 46); [lia|].
  reflexivity.
Qed.

Lemma replace_colon_dot_app (a b : JsString) :
  replace_colon_dot (a ++ b) = replace_colon_dot a ++ replace_colon_dot b.
Proof. apply map_app. Qed.

Lemma replace_colon_dot_padded (width : nat) (n : N) :
  replace_colon_dot (pad_start width (decimal n)) = pad_start width (decimal n).
Proof. apply replace_colon_dot_digits, pad_start_digits, decimal_digits. Qed.

(** The ISO text and the timestamp of a date of the years 0 to 9999. *)
Lemma four_digit_timestamp (now : DateTime) :
  four_digit_date now ->
  length (toISOString now) = 24%nat
  /\ filename_timestamp now
     = pad_start 4 (decimal (Z.to_N (dt_year now))) ++ lit "-"
       ++ pad_start 2 (decimal (dt_month now)) ++ lit "-"
       ++ pad_start 2 (decimal (dt_day now)) ++ lit "T"
       ++ pad_start 2 (decimal (dt_hours now)) ++ lit "-"
       ++ pad_start 2 (decimal (dt_minutes now)) ++ lit "-"
       ++ pad_start 2 (decimal (dt_seconds now)).
Proof.
  intros (Hy & Hmo & Hd & Hh & Hmi & Hs & Hms).
  assert (Hyear : iso_year (dt_year now)
                  = pad_start 4 (decimal (Z.to_N (dt_year now)))).
  { unfold iso_year.
    destruct (Z.leb_spec 0 (dt_year now)); [|lia].
    destruct (Z.leb_spec (dt_year now) 9999); [reflexivity|lia]. }
  pose proof (pad4_length (Z.to_N (dt_year now)) ltac:(lia)) as L4.
  pose proof (pad2_length _ Hmo) as Lmo. pose proof (pad2_length _ Hd) as Ld.
  pose proof (pad2_length _ Hh) as Lh. pose proof (pad2_length _ Hmi) as Lmi.
  pose proof (pad2_length _ Hs) as Ls. pose proof (pad3_length _ Hms) as Lms.
  split.
  - unfold toISOString. rewrite Hyear, !length_app.
    rewrite L4, Lmo, Ld, Lh, Lmi, Ls, Lms. reflexivity.
  - unfold filename_timestamp, str_slice0, toISOString. rewrite Hyear.
    rewrite !replace_colon_dot_app, !replace_colon_dot_padded.
    change (replace_colon_dot (lit "-")) with (lit "-").
    change (replace_colon_dot (lit "T")) with (lit "T").
    change (replace_colon_dot (lit ":")) with (lit "-").
    change (replace_colon_dot (lit ".")) with (lit "-").
    change (replace_colon_dot (lit "Z")) with (lit "Z").
    set (Y := pad_start 4 (decimal (Z.to_N (dt_year now)))) in *.
    set (Mo := pad_start 2 (decimal (dt_month now))) in *.
    set (D := pad_start 2 (decimal (dt_day now))) in *.
    set (H := pad_start 2 (decimal (dt_hours now))) in *.
    set (Mi := pad_start 2 (decimal (dt_minutes now))) in *.
    set (S := pad_start 2 (decimal (dt_seconds now))) in *.
    set (Ms := pad_start 3 (decimal (dt_ms now))) in *.
    replace (Y ++ lit "-" ++ Mo ++ lit "-" ++ D ++ lit "T" ++ H ++ lit "-"
             ++ Mi ++ lit "-" ++ S ++ lit "-" ++ Ms ++ lit "Z")
      with ((Y ++ lit "-" ++ Mo ++ lit "-" ++ D ++ lit "T" ++ H ++ lit "-"
             ++ Mi ++ lit "-" ++ S) ++ lit "-" ++ Ms ++ lit "Z")
      by (rewrite <- !app_assoc; reflexivity).
    apply firstn_exact. rewrite !length_app, L4, Lmo, Ld, Lh, Lmi, Ls.
    reflexivity.
Qed.

(** X14.  For a date of the years 0 to 9999 the ISO text has 24
    characters, and the timestamp of a generated file name is its part
    down to the seconds, [YYYY-MM-DDTHH-mm-ss]: the milliseconds do not
    enter the name. *)
Theorem timestamp_stops_at_seconds (now : DateTime) :
  four_digit_date now ->
  length (toISOString now) = 24%nat
  /\ filename_timestamp now
     = pad_start 4 (decimal (Z.to_N (dt_year now))) ++ lit "-"
       ++ pad_start 2 (decimal (dt_month now)) ++ lit "-"
       ++ pad_start 2 (decimal (dt_day now)) ++ lit "T"
       ++ pad_start 2 (decimal (dt_hours now)) ++ lit "-"
       ++ pad_start 2 (decimal (dt_minutes now)) ++ lit "-"
       ++ pad_start 2 (decimal (dt_seconds now)).
Proof. apply four_digit_timestamp. Qed.


Lemma timestamp_stops_at_seconds_witness :
  length (toISOString Scenario.noon_later) = 24%nat
  /\ filename_timestamp Scenario.noon_later
     = pad_start 4 (decimal (Z.to_N (dt_year Scenario.noon_later))) ++ lit "-"
       ++ pad_start 2 (decimal (dt_month Scenario.noon_later)) ++ lit "-"
       ++ pad_start 2 (decimal (dt_day Scenario.noon_later)) ++ lit "T"
       ++ pad_start 2 (decimal (dt_hours Scenario.noon_later)) ++ lit "-"
       ++ pad_start 2 (decimal (dt_minutes Scenario.noon_later)) ++ lit "-"
       ++ pad_start 2 (decimal (dt_seconds Scenario.noon_later)).
Proof.
  apply timestamp_stops_at_seconds.
  unfold four_digit_date. repeat split; vm_compute; reflexivity || discriminate.
Defined.

Lemma same_second_same_name (a b : DateTime) (prefix mimeType : JsString) :
  four_digit_date a -> four_digit_date b -> same_second a b ->
  filename_at a prefix mimeType = filename_at b prefix mimeType.
Proof.
  intros Ha Hb (Hy & Hmo & Hd & Hh & Hmi & Hs).
  unfold filename_at.
  destruct (four_digit_timestamp a Ha) as [_ ->].
  destruct (four_digit_timestamp b Hb) as [_ ->].
  rewrite Hy, Hmo, Hd, Hh, Hmi, Hs. reflexivity.
Qed.

(** ** Two saves in one second *)

Lemma saveImage_frame (base64Data outputPath mimeType : JsString)
    (metadata : option ImageMetadata) (w : World) :
  w_cwd (snd (saveImage base64Data outputPath mimeType metadata w)) = w_cwd w
  /\ w_clock (snd (saveImage base64Data outputPath mimeType metadata w))
     = w_clock w
  /\ w_tick (snd (saveImage base64Data outputPath mimeType metadata w))
     = w_tick (after_naming w outputPath).
Proof.
  rewrite saveImage_steps, ensure_dir_cases.
  assert (Hcwd : w_cwd (after_naming w outputPath) = w_cwd w)
    by (unfold after_naming; destruct (is_directory_path w outputPath);
        reflexivity).
  assert (Hclock : w_clock (after_naming w outputPath) = w_clock w)
    by (unfold after_naming; destruct (is_directory_path w outputPath);
        reflexivity).
  generalize dependent (after_naming w outputPath). intros w0 Hcwd Hclock.
  destruct (existsSync w0 _); [|destruct (w_mkdir_error w0 _)];
    try (split; [|split]; assumption || reflexivity);
    destruct (final_buffer base64Data mimeType metadata);
    try (split; [|split]; assumption || reflexivity);
    rewrite writeFile_cases; cbn [with_fs log w_writeFile_error];
    destruct (w_writeFile_error w0 _);
    split; try split; assumption || reflexivity.
Qed.

Lemma textual_directory (w : World) (outputPath : JsString) :
  endsWith outputPath (lit "/") = true -> is_directory_path w outputPath = true.
Proof. intros H. unfold is_directory_path. rewrite H. reflexivity. Qed.

(** X15.  Two images saved to the same directory within one second get
    the same generated path, and the second save replaces the file of the
    first: the generated name changes with the second only. *)
Theorem saves_within_a_second_collide
    (data1 data2 outputPath mimeType : JsString)
    (metadata1 metadata2 : option ImageMetadata) (w : World)
    (path1 path2 : JsString) :
  endsWith outputPath (lit "/") = true ->
  four_digit_date (w_clock w (w_tick w)) ->
  four_digit_date (w_clock w (S (w_tick w))) ->
  same_second (w_clock w (w_tick w)) (w_clock w (S (w_tick w))) ->
  fst (saveImage data1 outputPath mimeType metadata1 w) = Ok path1 ->
  fst (saveImage data2 outputPath mimeType metadata2
         (snd (saveImage data1 outputPath mimeType metadata1 w))) = Ok path2 ->
  path2 = path1
  /\ exists content1 content2,
       final_buffer data1 mimeType metadata1 = Ok content1
       /\ final_buffer data2 mimeType metadata2 = Ok content2
       /\ w_fs (snd (saveImage data1 outputPath mimeType metadata1 w)) path1
          = Some (FsFile content1)
       /\ w_fs (snd (saveImage data2 outputPath mimeType metadata2
                       (snd (saveImage data1 outputPath mimeType metadata1 w))))
            path1
          = Some (FsFile content2).
Proof.
  intros Hdir Ha Hb Hsame.
  pose proof (saveImage_frame data1 outputPath mimeType metadata1 w)
    as (Hcwd & Hclock & Htick).
  destruct (saveImage data1 outputPath mimeType metadata1 w) as [r1 w1] eqn:H1.
  cbn [fst snd] in *. intros ->.
  destruct (saveImage data2 outputPath mimeType metadata2 w1) as [r2 w2] eqn:H2.
  cbn [fst snd]. intros ->.
  apply saveImage_ok_inv in H1 as (Hp1 & c1 & Hc1 & Hfs1 & _).
  apply saveImage_ok_inv in H2 as (Hp2 & c2 & Hc2 & Hfs2 & _).
  assert (Hpaths : path2 = path1).
  { rewrite Hp1, Hp2.
    rewrite (final_path_under_directory w outputPath mimeType
               (textual_directory w outputPath Hdir)).
    rewrite (final_path_under_directory w1 outputPath mimeType
               (textual_directory w1 outputPath Hdir)).
    rewrite Hcwd, Hclock, Htick. unfold after_naming.
    rewrite (textual_directory w outputPath Hdir). cbn [with_tick w_tick].
    assert (Hname : filename_at (w_clock w (w_tick w)) (lit "blog-image")
                      mimeType
                    = filename_at (w_clock w (S (w_tick w))) (lit "blog-image")
                        mimeType)
      by (apply same_second_same_name; assumption).
    rewrite <- Hname. reflexivity. }
  split; [exact Hpaths|].
  exists c1, c2. split; [exact Hc1|]. split; [exact Hc2|].
  split; [exact Hfs1|]. rewrite <- Hpaths. exact Hfs2.
Qed.

Lemma saves_within_a_second_collide_witness :
  lit "/home/user/project/out/blog-image-2025-12-02T12-00-00.png"
  = lit "/home/user/project/out/blog-image-2025-12-02T12-00-00.png"
  /\ exists content1 content2,
       final_buffer Scenario.pixel_base64 (lit "image/png")
         (Some Scenario.provenance) = Ok content1
       /\ final_buffer Scenario.signature_only_base64 (lit "image/png") None
          = Ok content2
       /\ w_fs (snd (saveImage Scenario.pixel_base64 (lit "out/")
                       (lit "image/png") (Some Scenario.provenance)
                       Scenario.ticking_world))
            (lit "/home/user/project/out/blog-image-2025-12-02T12-00-00.png")
          = Some (FsFile content1)
       /\ w_fs (snd (saveImage Scenario.signature_only_base64 (lit "out/")
                       (lit "image/png") None
                       (snd (saveImage Scenario.pixel_base64 (lit "out/")
                               (lit "image/png") (Some Scenario.provenance)
                               Scenario.ticking_world))))
            (lit "/home/user/project/out/blog-image-2025-12-02T12-00-00.png")
          = Some (FsFile content2).
Proof.
  apply (saves_within_a_second_collide Scenario.pixel_base64
           Scenario.signature_only_base64 (lit "out/") (lit "image/png")
           (Some Scenario.provenance) None Scenario.ticking_world).
  - vm_compute. reflexivity.
  - unfold four_digit_date.
    repeat split; vm_compute; reflexivity || discriminate.
  - unfold four_digit_date.
    repeat split; vm_compute; reflexivity || discriminate.
  - unfold same_second. repeat split.
  - vm_compute. reflexivity.
  - vm_compute. reflexivity.
Defined.

(** ** The Gemini provider *)

Lemma actual_dimensions_bounds (aspectRatio : GeminiAspectRatio)
    (requestedWidth requestedHeight : Z) :
  0 < fst (getActualDimensions aspectRatio requestedWidth requestedHeight)
    <= 4096
  /\ 0 < snd (getActualDimensions aspectRatio requestedWidth requestedHeight)
       <= 4096.
Proof.
  unfold getActualDimensions.
  destruct (1500 <? requestedWidth); [destruct (3000 <? requestedWidth)|];
    destruct aspectRatio;
    split; vm_compute; (split; [reflexivity|discriminate]).
Qed.

(** X16.  Whatever is requested, the dimensions [getActualDimensions]
    reports are positive, stay within [getMaxResolution], and have exactly
    the aspect ratio asked of Gemini: width times the second term of the
    ratio is height times the first.  They are the standard sizes up to a
    requested width of 1500. *)
Theorem actual_dimensions_fit (aspectRatio : GeminiAspectRatio)
    (requestedWidth requestedHeight : Z) :
  0 < fst (getActualDimensions aspectRatio requestedWidth requestedHeight)
    <= fst getMaxResolution
  /\ 0 < snd (getActualDimensions aspectRatio requestedWidth requestedHeight)
       <= snd getMaxResolution
  /\ fst (getActualDimensions aspectRatio requestedWidth requestedHeight)
     * snd (ratio_terms aspectRatio)
     = snd (getActualDimensions aspectRatio requestedWidth requestedHeight)
       * fst (ratio_terms aspectRatio)
  /\ (requestedWidth <= 1500 ->
      getActualDimensions aspectRatio requestedWidth requestedHeight
      = standardSizes aspectRatio).
Proof.
  unfold getActualDimensions.
  destruct (Z.ltb_spec 1500 requestedWidth) as [Hbig|Hsmall].
  - destruct (3000 <? requestedWidth); destruct aspectRatio;
      (split; [vm_compute; split; [reflexivity|discriminate]|]);
      (split; [vm_compute; split; [reflexivity|discriminate]|]);
      (split; [vm_compute; reflexivity|]); intros; lia.
  - destruct aspectRatio;
      (split; [vm_compute; split; [reflexivity|discriminate]|]);
      (split; [vm_compute; split; [reflexivity|discriminate]|]);
      (split; [vm_compute; reflexivity|]); intros; reflexivity.
Qed.

Lemma gemini_attempt_image (toGeminiAspectRatio : JsString -> GeminiAspectRatio)
    (self : GeminiProvider) (client : GeminiClient)
    (options : ImageGenerationOptions) (image : GeneratedImage) :
  gemini_attempt toGeminiAspectRatio self client options = inr image ->
  gi_base64Data image <> []
  /\ gi_width image
     = Some (fst (getActualDimensions
                    (toGeminiAspectRatio (opt_aspectRatio options))
                    (opt_width options) (opt_height options)))
  /\ gi_height image
     = Some (snd (getActualDimensions
                    (toGeminiAspectRatio (opt_aspectRatio options))
                    (opt_width options) (opt_height options)))
  /\ gi_model image = Some (model_name (select_model self options))
  /\ exists response parts,
       client (gemini_request toGeminiAspectRatio self options) = inr response
       /\ first_parts response = Some parts
       /\ first_image parts
          = Some (gi_mimeType image, Some (gi_base64Data image)).
Proof.
  unfold gemini_attempt.
  destruct (client _) as [failure|response] eqn:Hclient; [discriminate|].
  destruct (first_parts response) as [parts|] eqn:Hparts; [|discriminate].
  destruct (first_image parts) as [[mimeType [[|c data]|]]|] eqn:Himage;
    try discriminate.
  intros H. injection H as <-.
  cbn [gi_base64Data gi_mimeType gi_width gi_height gi_model].
  split; [discriminate|]. repeat (split; [reflexivity|]).
  exists response, parts. repeat split; assumption.
Qed.

Lemma first_image_is_image (parts : list ResponsePart) (mimeType : JsString)
    (data : option JsString) :
  first_image parts = Some (mimeType, data) ->
  is_prefix (lit "image/") mimeType = true.
Proof.
  induction parts as [|part parts IH]; cbn [first_image]; [discriminate|].
  destruct (image_of_part part) as [[m d]|] eqn:Hpart; [|exact IH].
  intros H. injection H as -> ->.
  unfold image_of_part in Hpart.
  destruct (part_inlineData part) as [inlineData|]; [|discriminate].
  destruct (inline_mimeType inlineData) as [m|]; [|discriminate].
  destruct (is_prefix (lit "image/") m) eqn:Hm; [|discriminate].
  injection Hpart as -> _. exact Hm.
Qed.

(** What the provider returns, when it returns. *)
Lemma gemini_image (toGeminiAspectRatio : JsString -> GeminiAspectRatio)
    (self : GeminiProvider) (options : ImageGenerationOptions)
    (image : GeneratedImage) :
  gemini_generateImage toGeminiAspectRatio self options = inr image ->
  gemini_isConfigured self = true
  /\ gi_base64Data image <> []
  /\ is_prefix (lit "image/") (gi_mimeType image) = true
  /\ gi_width image
     = Some (fst (getActualDimensions
                    (toGeminiAspectRatio (opt_aspectRatio options))
                    (opt_width options) (opt_height options)))
  /\ gi_height image
     = Some (snd (getActualDimensions
                    (toGeminiAspectRatio (opt_aspectRatio options))
                    (opt_width options) (opt_height options)))
  /\ gi_model image = Some (model_name (select_model self options)).
Proof.
  unfold gemini_generateImage, gemini_isConfigured.
  destruct (gp_client self) as [client|]; [|discriminate].
  destruct (gemini_attempt toGeminiAspectRatio self client options)
    as [[error|failure]|image'] eqn:Hattempt; try discriminate.
  intros H. injection H as ->.
  destruct (gemini_attempt_image _ _ _ _ _ Hattempt)
    as (Hdata & Hw & Hh & Hm & response & parts & _ & _ & Himage).
  split; [reflexivity|]. split; [exact Hdata|].
  split; [exact (first_image_is_image _ _ _ Himage)|].
  repeat split; assumption.
Qed.

(** X17.  An image the Gemini provider returns is never empty, has a
    MIME type that starts with [image/], and comes with its width, height
    and model set: the dimensions are those of [getActualDimensions] for
    the requested aspect ratio and width, the model is the Pro model for
    high quality and the configured default otherwise.  The provider was
    configured, and the image is the first image part of the first
    candidate. *)
Theorem gemini_image_is_complete
    (toGeminiAspectRatio : JsString -> GeminiAspectRatio)
    (self : GeminiProvider) (options : ImageGenerationOptions)
    (image : GeneratedImage) :
  gemini_generateImage toGeminiAspectRatio self options = inr image ->
  gemini_isConfigured self = true
  /\ gi_base64Data image <> []
  /\ is_prefix (lit "image/") (gi_mimeType image) = true
  /\ gi_width image
     = Some (fst (getActualDimensions
                    (toGeminiAspectRatio (opt_aspectRatio options))
                    (opt_width options) (opt_height options)))
  /\ gi_height image
     = Some (snd (getActualDimensions
                    (toGeminiAspectRatio (opt_aspectRatio options))
                    (opt_width options) (opt_height options)))
  /\ gi_model image = Some (model_name (select_model self options))
  /\ (opt_quality options = high ->
      gi_model image = Some (lit "gemini-3-pro-image-preview")).
Proof.
  intros H. destruct (gemini_image _ _ _ _ H) as (H1 & H2 & H3 & H4 & H5 & H6).
  repeat (split; [assumption|]).
  intros Hq. rewrite H6. unfold select_model. rewrite Hq. reflexivity.
Qed.

(** X18.  Every error of the Gemini provider names the provider
    [gemini] and carries one of five codes.  The code is [NOT_CONFIGURED]
    exactly when the provider is not configured, and that error is not
    retryable; the three errors about a response without a usable image
    are retryable; a rejection of the client becomes an [API_ERROR] whose
    message quotes it and which is retryable exactly when the message
    mentions a rate limit, a timeout or 503. *)
Theorem gemini_errors_are_classified
    (toGeminiAspectRatio : JsString -> GeminiAspectRatio)
    (self : GeminiProvider) (options : ImageGenerationOptions)
    (error : ProviderError) :
  gemini_generateImage toGeminiAspectRatio self options = inl error ->
  pe_provider error = lit "gemini"
  /\ In (pe_code error) provider_error_codes
  /\ (pe_code error = lit "NOT_CONFIGURED" <-> gemini_isConfigured self = false)
  /\ (pe_code error = lit "NOT_CONFIGURED" -> pe_isRetryable error = false)
  /\ (In (pe_code error)
        [lit "NO_IMAGE"; lit "EMPTY_IMAGE_DATA"; lit "NO_IMAGE_DATA"] ->
      pe_isRetryable error = true)
  /\ (pe_code error = lit "API_ERROR" ->
      exists message,
        pe_message error = lit "Gemini API error: " ++ message
        /\ pe_isRetryable error
           = includes message (lit "rate limit")
             || includes message (lit "timeout")
             || includes message (lit "503")).
Proof.
  unfold gemini_generateImage, gemini_isConfigured, provider_error_codes.
  destruct (gp_client self) as [client|].
  - unfold gemini_attempt.
    destruct (client _) as [failure|response].
    + intros H. injection H as <-.
      cbn [pe_provider pe_code pe_isRetryable pe_message].
      split; [reflexivity|]. split; [cbn [In]; tauto|].
      split; [split; intros H; [vm_compute in H|]; discriminate|].
      split; [intros H; vm_compute in H; discriminate|].
      split; [intros H; cbn [In] in H;
              repeat destruct H as [H|H]; try contradiction;
              vm_compute in H; discriminate|].
      intros _. eexists. split; reflexivity.
    + destruct (first_parts response) as [parts|].
      * destruct (first_image parts) as [[mimeType [[|c data]|]]|];
          try discriminate;
          intros H; injection H as <-;
          cbn [provider_error pe_provider pe_code pe_isRetryable pe_message];
          (split; [reflexivity|]); (split; [cbn [In]; tauto|]);
          (split; [split; intros H; [vm_compute in H|]; discriminate|]);
          (split; [intros H; vm_compute in H; discriminate|]);
          (split; [reflexivity|]);
          intros H; vm_compute in H; discriminate.
      * intros H; injection H as <-;
          cbn [provider_error pe_provider pe_code pe_isRetryable pe_message];
          (split; [reflexivity|]); (split; [cbn [In]; tauto|]);
          (split; [split; intros H; [vm_compute in H|]; discriminate|]);
          (split; [intros H; vm_compute in H; discriminate|]);
          (split; [reflexivity|]);
          intros H; vm_compute in H; discriminate.
  - intros H. injection H as <-.
    cbn [provider_error pe_provider pe_code pe_isRetryable pe_message].
    split; [reflexivity|]. split; [cbn [In]; tauto|].
    split; [split; reflexivity|]. split; [reflexivity|].
    split; [intros H; cbn [In] in H;
            repeat destruct H as [H|H]; try contradiction;
            vm_compute in H; discriminate|].
    intros H. vm_compute in H. discriminate.
Qed.

(** X19.  With the Gemini provider behind the tool, the fall-backs of
    the tool for a missing width, height or model are never taken: in
    every successful outcome the reported dimensions are those of
    [getActualDimensions] for the preset, within the maximum resolution,
    and the model recorded in the provenance is the one Gemini used. *)
Theorem gemini_outcomes_report_standard_sizes (env : Collaborators)
    (toGeminiAspectRatio : JsString -> GeminiAspectRatio)
    (self : GeminiProvider) (input : GenerateImageInput) (w : World) :
  createProvider env (in_provider input)
  = gemini_provider toGeminiAspectRatio self ->
  res_success (outcome env input w) = true ->
  exists preset g image,
    PLATFORM_PRESETS env (in_format input) = Some preset
    /\ generateImage (createProvider env (in_provider input))
         (options_of env input preset) = Ok g
    /\ res_image (outcome env input w) = Some image
    /\ (dim_width (img_dimensions image), dim_height (img_dimensions image))
       = getActualDimensions (toGeminiAspectRatio (ps_aspectRatio preset))
           (ps_width preset) (ps_height preset)
    /\ 0 < dim_width (img_dimensions image) <= 4096
    /\ 0 < dim_height (img_dimensions image) <= 4096
    /\ md_model (metadata_in input g
                   (log w (EvGenerateImage (options_of env input preset))))
       = Some (model_name
                 (select_model self (options_of env input preset)))
    /\ img_base64Data image <> [].
Proof.
  intros Hprovider Hsuccess.
  destruct (execute_success_inv env input w _ _ (run_pair env input w) Hsuccess)
    as (preset & g & savedPath & _ & Hpreset & _ & Hgen & _ & Hr).
  pose proof Hgen as Hgen'.
  rewrite Hprovider in Hgen'. cbn [gemini_provider generateImage] in Hgen'.
  destruct (gemini_generateImage toGeminiAspectRatio self
              (options_of env input preset)) as [error|image] eqn:Himage;
    [discriminate|].
  apply Ok_inj in Hgen'. subst image.
  destruct (gemini_image _ _ _ _ Himage) as (_ & Hdata & _ & Hw & Hh & Hm).
  unfold options_of, generation_options in Hw, Hh.
  cbn [opt_aspectRatio opt_width opt_height] in Hw, Hh.
  rewrite Hr. unfold success_result, reconcile. rewrite Hw, Hh.
  cbn [nullish].
  exists preset, g. eexists.
  split; [exact Hpreset|]. split; [exact Hgen|].
  split; [cbn [res_image]; reflexivity|].
  cbn [img_dimensions dim_width dim_height img_base64Data].
  pose proof (actual_dimensions_bounds
                (toGeminiAspectRatio (ps_aspectRatio preset))
                (ps_width preset) (ps_height preset)) as (Hbw & Hbh).
  split; [symmetry; apply surjective_pairing|].
  split; [exact Hbw|]. split; [exact Hbh|].
  split; [|exact Hdata].
  unfold metadata_in.
  destruct (match in_outputPath input with
            | Some p => _
            | None => _
            end) as [p w0].
  unfold build_metadata. cbn [md_model]. rewrite Hm. reflexivity.
Qed.

Lemma gemini_image_is_complete_witness :
  gemini_isConfigured Scenario.with_key = true
  /\ gi_base64Data Scenario.answer <> []
  /\ is_prefix (lit "image/") (gi_mimeType Scenario.answer) = true
  /\ gi_width Scenario.answer
     = Some (fst (getActualDimensions
                    (Scenario.nearest_ratio
                       (opt_aspectRatio
                          (options_of Scenario.configured Scenario.to_file
                             Scenario.ghost_banner)))
                    (opt_width
                       (options_of Scenario.configured Scenario.to_file
                          Scenario.ghost_banner))
                    (opt_height
                       (options_of Scenario.configured Scenario.to_file
                          Scenario.ghost_banner))))
  /\ gi_height Scenario.answer
     = Some (snd (getActualDimensions
                    (Scenario.nearest_ratio
                       (opt_aspectRatio
                          (options_of Scenario.configured Scenario.to_file
                             Scenario.ghost_banner)))
                    (opt_width
                       (options_of Scenario.configured Scenario.to_file
                          Scenario.ghost_banner))
                    (opt_height
                       (options_of Scenario.configured Scenario.to_file
                          Scenario.ghost_banner))))
  /\ gi_model Scenario.answer
     = Some (model_name
               (select_model Scenario.with_key
                  (options_of Scenario.configured Scenario.to_file
                     Scenario.ghost_banner)))
  /\ (opt_quality
        (options_of Scenario.configured Scenario.to_file Scenario.ghost_banner)
      = high ->
      gi_model Scenario.answer = Some (lit "gemini-3-pro-image-preview")).
Proof.
  apply (gemini_image_is_complete Scenario.nearest_ratio Scenario.with_key).
  vm_compute. reflexivity.
Defined.

Lemma gemini_errors_are_classified_witness :
  pe_provider Scenario.quota_error = lit "gemini"
  /\ In (pe_code Scenario.quota_error) provider_error_codes
  /\ (pe_code Scenario.quota_error = lit "NOT_CONFIGURED"
      <-> gemini_isConfigured Scenario.limited = false)
  /\ (pe_code Scenario.quota_error = lit "NOT_CONFIGURED" ->
      pe_isRetryable Scenario.quota_error = false)
  /\ (In (pe_code Scenario.quota_error)
        [lit "NO_IMAGE"; lit "EMPTY_IMAGE_DATA"; lit "NO_IMAGE_DATA"] ->
      pe_isRetryable Scenario.quota_error = true)
  /\ (pe_code Scenario.quota_error = lit "API_ERROR" ->
      exists message,
        pe_message Scenario.quota_error = lit "Gemini API error: " ++ message
        /\ pe_isRetryable Scenario.quota_error
           = includes message (lit "rate limit")
             || includes message (lit "timeout")
             || includes message (lit "503")).
Proof.
  apply (gemini_errors_are_classified Scenario.nearest_ratio Scenario.limited
           (options_of Scenario.configured Scenario.to_file
              Scenario.ghost_banner)).
  vm_compute. reflexivity.
Defined.

Lemma gemini_outcomes_report_standard_sizes_witness :
  exists preset g image,
    PLATFORM_PRESETS Scenario.with_gemini (in_format Scenario.to_file)
    = Some preset
    /\ generateImage
         (createProvider Scenario.with_gemini (in_provider Scenario.to_file))
         (options_of Scenario.with_gemini Scenario.to_file preset) = Ok g
    /\ res_image (outcome Scenario.with_gemini Scenario.to_file Scenario.world)
       = Some image
    /\ (dim_width (img_dimensions image), dim_height (img_dimensions image))
       = getActualDimensions (Scenario.nearest_ratio (ps_aspectRatio preset))
           (ps_width preset) (ps_height preset)
    /\ 0 < dim_width (img_dimensions image) <= 4096
    /\ 0 < dim_height (img_dimensions image) <= 4096
    /\ md_model (metadata_in Scenario.to_file g
                   (log Scenario.world
                      (EvGenerateImage
                         (options_of Scenario.with_gemini Scenario.to_file
                            preset))))
       = Some (model_name
                 (select_model Scenario.with_key
                    (options_of Scenario.with_gemini Scenario.to_file preset)))
    /\ img_base64Data image <> [].
Proof.
  apply gemini_outcomes_report_standard_sizes.
  - reflexivity.
  - vm_compute. reflexivity.
Defined.

(** ** The answer to a tool call *)

Lemma resolve_nonempty (cwd path : JsString) : Path.resolve cwd path <> [].
Proof.
  unfold Path.resolve.
  destruct (Path.resolve_step cwd (Path.resolve_step path ([], false)))
    as [resolvedPath resolvedAbsolute].
  destruct resolvedAbsolute; [discriminate|].
  destruct (Path.normalizeString resolvedPath (negb false)); discriminate.
Qed.

Lemma target_path_nonempty (w : World) (outputPath mimeType : JsString) :
  target_path w outputPath mimeType <> [].
Proof.
  unfold target_path. destruct (is_directory_path w outputPath).
  - pose proof (generated_name_is_file (w_clock w (w_tick w)) mimeType)
      as Hfile.
    destruct (join_file (Path.resolve (w_cwd w) outputPath) _ Hfile)
      as (prefix & -> & _).
    destruct Hfile as (Hne & _).
    intros H. apply app_eq_nil in H as [_ H]. contradiction.
  - apply resolve_nonempty.
Qed.

Lemma final_path_nonempty (w : World) (outputPath mimeType : JsString) :
  final_path w outputPath mimeType <> [].
Proof.
  unfold final_path. pose proof (target_path_nonempty w outputPath mimeType).
  destruct (is_empty _); [|assumption].
  intros H'. apply app_eq_nil in H' as [H' _]. contradiction.
Qed.

Lemma save_generated_path_nonempty (input : GenerateImageInput)
    (g : GeneratedImage) (w w' : World) (savedPath : JsString) :
  save_generated input g w = (Ok savedPath, w') -> savedPath <> [].
Proof.
  unfold save_generated.
  destruct (in_outputPath input) as [p|];
    cbv beta iota zeta delta [generateDefaultOutputPath generateFilename new_Date];
    intros H; apply saveImage_ok_inv in H as (-> & _);
    apply final_path_nonempty.
Qed.

(** X20.  The handler of [generate_blog_image] answers every parsed
    request in one of two shapes.  A failed outcome gives an error
    response with a single text, [Error: ] followed by the error of the
    outcome or, when it has none, its message.  A successful outcome gives
    a response that is no error and has exactly three items: the message,
    the image with the provider's base64 data and MIME type, and the
    details, which always end with the line that names the saved path. *)
Theorem handler_answers_in_two_shapes (env : Collaborators)
    (input : GenerateImageInput) (w : World) :
  tr_isError (respond (outcome env input w))
  = negb (res_success (outcome env input w))
  /\ (res_success (outcome env input w) = false ->
      tr_content (respond (outcome env input w))
      = [TextContent
           (lit "Error: "
            ++ nullish (res_error (outcome env input w))
                 (res_message (outcome env input w)))])
  /\ (res_success (outcome env input w) = true ->
      exists image savedPath,
        res_image (outcome env input w) = Some image
        /\ img_savedTo image = Some savedPath
        /\ savedPath <> []
        /\ tr_content (respond (outcome env input w))
           = [TextContent (lit "Image generated and saved to " ++ savedPath);
              ImageContent (img_base64Data image) (img_mimeType image);
              TextContent
                (LF ++ lit "Details:" ++ LF ++ lit "- Format: "
                 ++ in_format input ++ LF ++ lit "- Dimensions: "
                 ++ show_int (dim_width (img_dimensions image)) ++ lit "x"
                 ++ show_int (dim_height (img_dimensions image))
                 ++ LF ++ lit "- File size: " ++ img_fileSize image
                 ++ LF ++ lit "- Saved to: " ++ savedPath)]).
Proof.
  split; [|split].
  - unfold respond. destruct (res_success (outcome env input w)); reflexivity.
  - intros Hfail. unfold respond. rewrite Hfail. reflexivity.
  - intros Hsuccess.
    destruct (execute_success_inv env input w _ _ (run_pair env input w)
                Hsuccess)
      as (preset & g & savedPath & _ & _ & _ & _ & Hsave & Hr).
    pose proof (save_generated_path_nonempty _ _ _ _ _ Hsave) as Hne.
    rewrite Hr. unfold success_result.
    destruct (reconcile preset g) as [[aw ah] warning].
    eexists. exists savedPath.
    split; [cbn [res_image]; reflexivity|].
    split; [reflexivity|]. split; [exact Hne|].
    unfold respond, details_text.
    cbn [res_success negb res_message res_image tr_content img_base64Data
         img_mimeType img_format img_dimensions dim_width dim_height
         img_fileSize img_savedTo truthy nullish].
    destruct savedPath as [|c savedPath]; [contradiction|]. reflexivity.
Qed.

(** ** The default output path *)

Lemma normalize_step_empty (allowAboveRoot : bool) (stack : list JsString) :
  Path.normalize_step allowAboveRoot stack [] = stack.
Proof. unfold Path.normalize_step. rewrite jsstr_eqb_refl. reflexivity. Qed.

Lemma normalizeString_file_slash (q f : JsString) (allowAboveRoot : bool) :
  (q = [] \/ exists q', q = q' ++ [Path.SLASH]) ->
  file_name f ->
  ends_in_file (Path.normalizeString ((q ++ f) ++ [Path.SLASH]) allowAboveRoot) f.
Proof.
  intros Hq Hf. pose proof Hf as (Hne & Hslash & _).
  unfold Path.normalizeString.
  assert (Hsplit : exists segs, Path.split (q ++ f) = segs ++ [f]).
  { destruct Hq as [->|(q' & ->)].
    - exists []. apply split_slash_free. exact Hslash.
    - exists (Path.split q'). rewrite <- app_assoc. cbn [app].
      rewrite split_app, (split_slash_free f Hslash). reflexivity. }
  destruct Hsplit as (segs & Hsegs).
  rewrite split_app, Hsegs. cbn [Path.split].
  rewrite !fold_left_app. cbn [fold_left].
  rewrite (normalize_step_file _ _ f Hf), normalize_step_empty. cbn [rev].
  rewrite join_segments_snoc.
  destruct (rev _) as [|s l].
  - exists []. split; [reflexivity|left; reflexivity].
  - exists (Path.join_segments (s :: l) ++ [Path.SLASH]).
    rewrite <- app_assoc. split; [reflexivity|].
    right. eexists. reflexivity.
Qed.

(** [path.resolve] keeps the file name of the path it resolves. *)
Lemma resolve_file (cwd p f : JsString) :
  ends_in_file p f -> file_name f -> ends_in_file (Path.resolve cwd p) f.
Proof.
  intros (prefix & -> & Hprefix) Hf. pose proof Hf as (Hne & _).
  unfold Path.resolve.
  assert (Hstep : Path.resolve_step (prefix ++ f) ([], false)
                  = ((prefix ++ f) ++ [Path.SLASH],
                     Path.starts_with_slash (prefix ++ f))).
  { unfold Path.resolve_step. cbn [snd fst].
    destruct (prefix ++ f) eqn:Hp; [|reflexivity].
    apply app_eq_nil in Hp as [_ Hp]. contradiction. }
  rewrite Hstep. clear Hstep.
  assert (Hshape : exists q abs,
             Path.resolve_step cwd
               ((prefix ++ f) ++ [Path.SLASH],
                Path.starts_with_slash (prefix ++ f))
             = ((q ++ f) ++ [Path.SLASH], abs)
             /\ (q = [] \/ exists q', q = q' ++ [Path.SLASH])).
  { unfold Path.resolve_step. cbn [snd fst].
    destruct (Path.starts_with_slash (prefix ++ f)).
    - exists prefix, true. split; [reflexivity|exact Hprefix].
    - destruct cwd as [|c cwd].
      + exists prefix, false. split; [reflexivity|exact Hprefix].
      + exists ((c :: cwd) ++ Path.SLASH :: prefix),
          (Path.starts_with_slash (c :: cwd)).
        split.
        * rewrite <- !app_assoc. reflexivity.
        * right. destruct Hprefix as [->|(q' & ->)].
          -- exists (c :: cwd). reflexivity.
          -- exists ((c :: cwd) ++ Path.SLASH :: q').
             rewrite <- app_assoc. reflexivity. }
  destruct Hshape as (q & abs & -> & Hq).
  destruct (normalizeString_file_slash q f (negb abs) Hq Hf)
    as (pre & -> & Hpre).
  destruct abs.
  - exists (Path.SLASH :: pre). split; [reflexivity|]. right.
    destruct Hpre as [->|(x & ->)].
    + exists []. reflexivity.
    + exists (Path.SLASH :: x). reflexivity.
  - destruct (pre ++ f) eqn:Hp.
    { apply app_eq_nil in Hp as [_ Hp]. contradiction. }
    rewrite <- Hp. exists pre. split; [reflexivity|exact Hpre].
Qed.

(** Where a generated path goes when it is saved: nowhere else, unless a
    directory stands in its place. *)
Lemma final_path_of_generated (w : World) (dir mimeType : JsString)
    (now : DateTime) :
  inherited mimeType = None ->
  exists name,
    (name = filename_at now (lit "blog-image") mimeType
     \/ name = filename_at (w_clock w (w_tick w)) (lit "blog-image") mimeType)
    /\ ends_in_file
         (final_path w
            (Path.join dir (filename_at now (lit "blog-image") mimeType))
            mimeType)
         name
    /\ Path.extname
         (final_path w
            (Path.join dir (filename_at now (lit "blog-image") mimeType))
            mimeType)
       = to_js_string (getExtensionFromMimeType mimeType)
    /\ (is_directory_path w
          (Path.join dir (filename_at now (lit "blog-image") mimeType)) = false ->
        name = filename_at now (lit "blog-image") mimeType
        /\ final_path w
             (Path.join dir (filename_at now (lit "blog-image") mimeType))
             mimeType
           = Path.resolve (w_cwd w)
               (Path.join dir (filename_at now (lit "blog-image") mimeType))).
Proof.
  intros Hplain.
  set (p := Path.join dir (filename_at now (lit "blog-image") mimeType)).
  destruct (is_directory_path w p) eqn:Hdir.
  - destruct (final_path_directory w p mimeType Hdir Hplain)
      as (_ & Hends & Hext).
    eexists. split; [right; reflexivity|]. split; [exact Hends|].
    split; [exact Hext|discriminate].
  - destruct (filename_at_shape now mimeType Hplain)
      as (e & Hext & Heq & Hne & Hse & Hde & Hname & Hfile).
    pose proof (resolve_file (w_cwd w) p _ (join_file dir _ Hfile) Hfile)
      as Hends.
    assert (Hextname : Path.extname (Path.resolve (w_cwd w) p)
                       = Path.DOT :: e).
    { apply (extname_file _ (lit "blog-image-" ++ filename_timestamp now) e);
        try assumption.
      - rewrite <- Heq. exact Hends.
      - intros H. apply app_eq_nil in H as [H _]. discriminate H. }
    assert (Hfinal : final_path w p mimeType = Path.resolve (w_cwd w) p).
    { unfold final_path, target_path. rewrite Hdir, Hextname. reflexivity. }
    eexists. split; [left; reflexivity|]. rewrite Hfinal.
    split; [exact Hends|]. split; [rewrite Hext; exact Hextname|].
    intros _. split; reflexivity.
Qed.

(** X21.  Without an output path the tool saves under a generated name.
    When the MIME type of the image is not the name of a property that the
    extension table inherits from [Object.prototype], the last component
    of the saved path is [blog-image-], the timestamp of a reading of the
    clock and the extension of the MIME type, and that extension is the
    extension of the path.  The reading is the first of the run, and the
    path is the default one (under [IMAGE_OUTPUT_DIR], or under
    [generated-images] in the working directory), unless a directory
    already stands at the default path; then the name comes from the third
    reading. *)
Theorem default_path_has_generated_name (env : Collaborators)
    (input : GenerateImageInput) (w : World) :
  in_outputPath input = None ->
  res_success (outcome env input w) = true ->
  exists image savedPath,
    res_image (outcome env input w) = Some image
    /\ img_savedTo image = Some savedPath
    /\ (inherited (img_mimeType image) = None ->
        exists now,
          (now = w_clock w (w_tick w) \/ now = w_clock w (S (S (w_tick w))))
          /\ Path.last_component savedPath
             = lit "blog-image-" ++ filename_timestamp now
               ++ to_js_string (getExtensionFromMimeType (img_mimeType image))
          /\ Path.extname savedPath
             = to_js_string (getExtensionFromMimeType (img_mimeType image))
          /\ (is_directory_path w
                (Path.join (getDefaultOutputDir w)
                   (filename_at (w_clock w (w_tick w)) (lit "blog-image")
                      (img_mimeType image))) = false ->
              now = w_clock w (w_tick w)
              /\ savedPath
                 = Path.resolve (w_cwd w)
                     (Path.join (getDefaultOutputDir w)
                        (filename_at (w_clock w (w_tick w)) (lit "blog-image")
                           (img_mimeType image))))).
Proof.
  intros Hnone Hsuccess.
  destruct (execute_success_inv env input w _ _ (run_pair env input w) Hsuccess)
    as (preset & g & savedPath & _ & _ & _ & _ & Hsave & Hr).
  rewrite Hr. unfold success_result.
  destruct (reconcile preset g) as [[aw ah] warning].
  cbn [res_image].
  unfold save_generated in Hsave. rewrite Hnone in Hsave.
  cbv beta iota zeta delta [generateDefaultOutputPath generateFilename new_Date]
    in Hsave.
  apply saveImage_ok_inv in Hsave as (Hpath & _).
  cbn [with_tick log w_tick w_clock] in Hpath.
  eexists. exists savedPath.
  split; [reflexivity|]. split; [reflexivity|].
  cbn [img_mimeType]. intros Hkey.
  match type of Hpath with
  | _ = final_path ?w1 (Path.join ?dir _) _ =>
      destruct (final_path_of_generated w1 dir (gi_mimeType g)
                  (w_clock w (w_tick w)) Hkey)
        as (name & Hname & Hends & Hext & Hplain)
  end.
  cbn [with_tick log w_tick w_clock w_cwd] in Hname, Hplain.
  rewrite <- Hpath in Hends, Hext, Hplain.
  assert (Hfile : file_name name).
  { destruct Hname as [->| ->]; apply generated_name_is_file. }
  destruct Hfile as (Hne & Hslash & _).
  pose proof (last_component_file _ _ Hends Hne Hslash) as Hlast.
  destruct (is_directory_path w
              (Path.join (getDefaultOutputDir w)
                 (filename_at (w_clock w (w_tick w)) (lit "blog-image")
                    (gi_mimeType g)))) eqn:Hdir.
  - destruct Hname as [->| ->].
    + exists (w_clock w (w_tick w)).
      split; [left; reflexivity|]. split; [exact Hlast|].
      split; [exact Hext|discriminate].
    + exists (w_clock w (S (S (w_tick w)))).
      split; [right; reflexivity|]. split; [exact Hlast|].
      split; [exact Hext|discriminate].
  - exists (w_clock w (w_tick w)).
    destruct (Hplain Hdir) as [-> Hsaved].
    split; [left; reflexivity|]. split; [exact Hlast|].
    split; [exact Hext|]. intros _. split; [reflexivity|exact Hsaved].
Qed.

Lemma default_path_has_generated_name_witness :
  exists image,
    res_image (outcome Scenario.configured Scenario.by_default Scenario.world)
    = Some image
    /\ img_savedTo image
       = Some (lit "/home/user/project/generated-images/blog-image-2025-12-02T12-00-00.png")
    /\ inherited (img_mimeType image) = None
    /\ Path.last_component
         (lit "/home/user/project/generated-images/blog-image-2025-12-02T12-00-00.png")
       = lit "blog-image-"
         ++ filename_timestamp
              (w_clock Scenario.world (w_tick Scenario.world))
         ++ to_js_string (getExtensionFromMimeType (img_mimeType image))
    /\ Path.extname
         (lit "/home/user/project/generated-images/blog-image-2025-12-02T12-00-00.png")
       = to_js_string (getExtensionFromMimeType (img_mimeType image)).
Proof.
  destruct (default_path_has_generated_name Scenario.configured
              Scenario.by_default Scenario.world)
    as (image & savedPath & Himage & Hsaved & Hrest).
  - reflexivity.
  - vm_compute. reflexivity.
  - assert (Hmime : option_map img_mimeType
                      (res_image (outcome Scenario.configured
                                    Scenario.by_default Scenario.world))
                    = Some (lit "image/png"))
      by (vm_compute; reflexivity).
    assert (Hpath : match res_image (outcome Scenario.configured
                                       Scenario.by_default Scenario.world) with
                    | Some i => img_savedTo i
                    | None => None
                    end
                    = Some (lit "/home/user/project/generated-images/blog-image-2025-12-02T12-00-00.png"))
      by (vm_compute; reflexivity).
    rewrite Himage in Hmime, Hpath. cbn [option_map] in Hmime.
    assert (Hm : img_mimeType image = lit "image/png") by congruence.
    assert (Hs : savedPath
                 = lit "/home/user/project/generated-images/blog-image-2025-12-02T12-00-00.png")
      by congruence.
    assert (Hkey : inherited (img_mimeType image) = None)
      by (rewrite Hm; vm_compute; reflexivity).
    destruct (Hrest Hkey) as (now & _ & Hlast & Hext & Hdefault).
    assert (Hdir : is_directory_path Scenario.world
                     (Path.join (getDefaultOutputDir Scenario.world)
                        (filename_at
                           (w_clock Scenario.world (w_tick Scenario.world))
                           (lit "blog-image") (img_mimeType image))) = false)
      by (rewrite Hm; vm_compute; reflexivity).
    destruct (Hdefault Hdir) as [-> _].
    exists image. split; [exact Himage|].
    split; [rewrite Hsaved, Hs; reflexivity|].
    split; [exact Hkey|]. rewrite <- Hs. split; [exact Hlast|exact Hext].
Defined.
